(** * Reward-history reconstruction of the Lido SDK ([LidoSDKRewards])

    A shallow embedding of the class [LidoSDKRewards]: the range resolver
    ([parseProps], [toBlockNumber], [toBackBlock]), the two event sources
    ([getRewardsFromChain], [getRewardsFromSubgraph]), the chronological
    merge, the sequential fold that produces typed reward records, and the
    two post-filters.

    Conventions of the embedding.
    - A JS [bigint] is a [Z]; bigint [/] truncates toward zero and is
      [Z.quot].  Decimal strings of the indexed entities are read through
      [BigInt(...)] in the source and are carried here as the [Z] they denote;
      where the source reads one through [Number(...)] instead, the rounding
      to a double is applied to that [Z].
    - A rejected promise or a thrown exception is the [Err] branch of
      [Result]; the closure variables the [map] callbacks mutate are an
      explicit state threaded by the monad [M].
    - The collaborators the class talks to (RPC node, contract reads, the
      indexed query service) are records of oracle functions.  Those of the
      range resolver and of the withdrawal queue answer with a [Result]; the
      contract reads and the index requests of the two reward queries are
      given by what they answer when they resolve. *)

From Stdlib Require Import ZArith List String Bool Lia Sorted Permutation.
From Stdlib Require Import DecimalString.
Import ListNotations.
Open Scope string_scope.
Open Scope Z_scope.

Set Implicit Arguments.

(** ** Errors and results *)

Inductive Error : Type :=
| InvalidArgument (message : string)      (* raised by [invariantArgument] *)
| InvariantFailed (message : string)      (* raised by [invariant] *)
| SDKError (code : string) (message : string) (* made by [core.error] *)
| RangeError                              (* [BigInt] of a non-integer number *)
| TypeError                               (* property read on [undefined] *)
| CollaboratorFailure (detail : string).  (* a rejected external call *)

Inductive Result (A : Type) : Type :=
| Ok (a : A)
| Err (e : Error).

Arguments Ok {A} a.
Arguments Err {A} e.

Definition rbind {A B : Type} (r : Result A) (k : A -> Result B) : Result B :=
  match r with
  | Ok a => k a
  | Err e => Err e
  end.

Declare Scope result_scope.
Delimit Scope result_scope with result.
Notation "x <- c ;; k" := (rbind c (fun x => k))
  (at level 61, c at next level, right associativity) : result_scope.
Notation "' pat <- c ;; k" := (rbind c (fun x => match x with pat => k end))
  (at level 61, pat pattern, c at next level, right associativity)
  : result_scope.
Notation "c ;;; k" := (rbind c (fun _ => k))
  (at level 61, right associativity) : result_scope.

(** Modelled from the spec: [invariantArgument] lives in [../index.js], which
    is not part of the sources at hand.  Section 7 of the specification makes
    it the source of the argument errors: it raises one carrying the given
    message when its condition is falsy and returns otherwise. *)
Definition invariantArgument (condition : bool) (message : string) : Result unit :=
  if condition then Ok tt else Err (InvalidArgument message).

(** Modelled from the spec: [invariant], from the same absent module, is the
    internal-invariant assertion of section 7; a falsy condition aborts the
    computation. *)
Definition invariant (condition : bool) (message : string) : Result unit :=
  if condition then Ok tt else Err (InvariantFailed message).

(** JS truthiness of a [bigint | undefined | null] value: absent and [0n]
    are both falsy. *)
Definition truthy (v : option Z) : bool :=
  match v with
  | Some n => negb (n =? 0)
  | None => false
  end.

(** [n.toString()] of a bigint. *)
Definition toString (n : Z) : string := NilZero.string_of_int (Z.to_int n).

(** ** [Number(x)] of an integer

    A JS number is an IEEE 754 double.  [Number] of the decimal string of an
    integer is the double nearest to it, a tie going to the even significand
    of 53 bits.  Integers of magnitude up to [2^53] are their own doubles;
    from [2^1024 - 2^970] on the result is an infinity. *)
Inductive JSNumber : Type :=
| Finite (value : Z)           (* an integer-valued double *)
| Infinity (negative : bool).

(** The double nearest to a natural number [a], as an integer. *)
Definition roundToDouble (a : Z) : Z :=
  if a <? 2 ^ 53 then a
  else
    let e := Z.log2 a - 52 in
    let q := a / 2 ^ e in
    let r := a mod 2 ^ e in
    let half := 2 ^ (e - 1) in
    let m :=
      if r <? half then q
      else if half <? r then q + 1
      else if Z.even q then q else q + 1 in
    m * 2 ^ e.

Definition Number (z : Z) : JSNumber :=
  let d := roundToDouble (Z.abs z) in
  if 2 ^ 1024 <=? d then Infinity (z <? 0) else Finite (Z.sgn z * d).

(** [x - y] of two such numbers as a sort comparator's result is read:
    [Array.prototype.sort] looks at the sign of the result only and takes
    [NaN], the difference of two infinities of one sign, for [+0].  The
    difference of two finite doubles is rounded, which leaves its sign as it
    is. *)
Definition minusSign (x y : JSNumber) : Z :=
  match x, y with
  | Finite a, Finite b => Z.sgn (a - b)
  | Finite _, Infinity negative => if negative then 1 else -1
  | Infinity negative, Finite _ => if negative then -1 else 1
  | Infinity n1, Infinity n2 =>
      if Bool.eqb n1 n2 then 0 else if n1 then -1 else 1
  end.


(** ** State-and-error monad of the [map] callbacks

    The callbacks passed to [events.map] read and assign [let] variables of
    the enclosing function and may throw.  [M S A] is a computation over the
    closure state [S]; a throw discards the state, as the exception leaves the
    whole function. *)

Definition M (S A : Type) : Type := S -> Result (A * S).

Definition ret {S A : Type} (a : A) : M S A := fun s => Ok (a, s).

Definition bind {S A B : Type} (m : M S A) (k : A -> M S B) : M S B :=
  fun s =>
    match m s with
    | Ok (a, s') => k a s'
    | Err e => Err e
    end.

Definition get {S : Type} : M S S := fun s => Ok (s, s).

Definition put {S : Type} (s : S) : M S unit := fun _ => Ok (tt, s).

Definition throw {S A : Type} (e : Error) : M S A := fun _ => Err e.

(** A call that may throw but does not touch the closure state. *)
Definition lift {S A : Type} (r : Result A) : M S A :=
  fun s =>
    match r with
    | Ok a => Ok (a, s)
    | Err e => Err e
    end.

Declare Scope fold_scope.
Delimit Scope fold_scope with fold.
Notation "x <-- c ;; k" := (bind c (fun x => k))
  (at level 61, c at next level, right associativity) : fold_scope.
Notation "c ;;> k" := (bind c (fun _ => k))
  (at level 61, right associativity) : fold_scope.

(** [Array.prototype.map] with an effectful callback: elements are visited
    left to right, each call seeing the state left by the previous one. *)
Fixpoint mapM {S A B : Type} (f : A -> M S B) (l : list A) : M S (list B) :=
  match l with
  | [] => ret []
  | x :: xs =>
      (y <-- f x ;;
       ys <-- mapM f xs ;;
       ret (y :: ys))%fold
  end.

(** ** [Array.prototype.sort]

    The engine's sort is specified to be stable; with a consistent comparator
    its result is the unique stable ordering of the input, which this
    insertion sort computes: an element is placed before the first element
    it does not compare greater than, so equal elements keep their order. *)

Section Sort.
Variable A : Type.
Variable cmp : A -> A -> Z.

Fixpoint insert (x : A) (l : list A) : list A :=
  match l with
  | [] => [x]
  | y :: ys => if cmp x y <=? 0 then x :: y :: ys else y :: insert x ys
  end.

Fixpoint sort (l : list A) : list A :=
  match l with
  | [] => []
  | x :: xs => insert x (sort xs)
  end.

End Sort.

(** ** Addresses and reward records *)

Definition Address : Type := string.

(** [zeroAddress] of viem. *)
Definition zeroAddress : Address := "0x0000000000000000000000000000000000000000".

Inductive RewardType : Type :=
| submit
| transfer_in
| transfer_out
| withdrawal
| rebase.

Definition RewardType_eqb (a b : RewardType) : bool :=
  match a, b with
  | submit, submit | transfer_in, transfer_in | transfer_out, transfer_out
  | withdrawal, withdrawal | rebase, rebase => true
  | _, _ => false
  end.

(** [Reward<TEvent>]: [R] is the type of share rates, [E] the type of the
    original event. *)
Module Reward.
Record t (R E : Type) : Type := mk {
  type : RewardType;
  balanceShares : Z;
  changeShares : Z;
  change : Z;
  balance : Z;
  shareRate : R;
  originalEvent : E
}.
Arguments mk {R E}.
End Reward.

(** [(r) => r.type === 'rebase'] *)
Definition isRebase {R E : Type} (r : Reward.t R E) : bool :=
  RewardType_eqb (Reward.type r) rebase.

(** [(r) => !(r.type === 'rebase' && r.change === 0n)] *)
Definition notZeroRebase {R E : Type} (r : Reward.t R E) : bool :=
  negb (RewardType_eqb (Reward.type r) rebase && (Reward.change r =? 0)).

(** ** Imported helpers that are not part of the sources at hand

    [calcShareRate], [sharesToSteth] and [requestWithBlockStep] come from
    [./utils.js], [addressEqual] from [../common/utils/address-equal.js] and
    the table [EARLIEST_TOKEN_REBASED_EVENT] from [../common/constants.js].
    The embedding of the class takes them as parameters.  The share rate is
    kept abstract: the subgraph path initialises it with the number literal
    [0] and otherwise only stores what [calcShareRate] returns. *)

Class Imports : Type := {
  ShareRate : Type;
  zeroShareRate : ShareRate;
  calcShareRate : Z -> Z -> Z -> ShareRate;
  sharesToSteth : Z -> Z -> Z -> Z -> Z;
  addressEqual : Address -> Address -> bool;
  requestWithBlockStep :
    forall A : Type, Z -> Z -> Z -> (Z -> Z -> list A) -> list A;
  EARLIEST_TOKEN_REBASED_EVENT : Z -> Z
}.

(** [LidoSDKRewards.PRECISION = 10n ** 27n] and [DEFAULT_STEP = 1000]. *)
Definition PRECISION : Z := 10 ^ 27.
Definition DEFAULT_STEP : Z := 1000.

(** ** Range resolver *)

Inductive BlockTag : Type :=
| latest
| earliest
| pending
| safe
| finalized.

(** The [block] member of a block argument: [bigint | BlockTag]. *)
Inductive BlockRef : Type :=
| BlockNumber (n : Z)
| Tagged (tag : BlockTag).

Module BlockArgumentType.
Record t : Type := mk {
  timestamp : option Z;
  block : option BlockRef
}.
End BlockArgumentType.

Module BackArgumentType.
Record t : Type := mk {
  blocks : option Z;
  days : option Z;
  seconds : option Z
}.
End BackArgumentType.

(** [GetRewardsOptions]; an absent member is [None].  [step] is a JS number,
    taken here among the integers. *)
Module Props.
Record t : Type := mk {
  address : Address;
  to : option BlockArgumentType.t;
  from : option BlockArgumentType.t;
  back : option BackArgumentType.t;
  step : option Z;
  includeZeroRebases : option bool;
  includeOnlyRebases : option bool
}.
End Props.

(** What [parseProps] resolves to. *)
Module Parsed.
Record t : Type := mk {
  address : Address;
  fromBlock : Z;
  toBlock : Z;
  step : Z;
  includeZeroRebases : bool;
  includeOnlyRebases : bool
}.
End Parsed.

(** [this.core] as the class uses it.  [getBlock] answers with the block's
    [number], [None] standing for the [null] of a pending block; its argument
    is the [blockTag], absent when the caller passed none.  [now] is the value
    of [Date.now()], in milliseconds. *)
Module Core.
Record t : Type := mk {
  chainId : Z;
  getLatestBlockToTimestamp : Z -> Result Z;
  getBlock : option BlockTag -> Result (option Z);
  now : Z;
  withdrawalQueueAddress : Address
}.
End Core.

(** [if (v) { ... } else { ... }] on a [bigint | undefined]: the first branch
    runs when [v] is present and not [0n]. *)
Definition ifTruthy {X : Type} (v : option Z) (thenBranch : Z -> X)
  (elseBranch : X) : X :=
  match v with
  | Some n => if n =? 0 then elseBranch else thenBranch n
  | None => elseBranch
  end.

(** [BigInt(n / d)] for integral numbers [n] and [d]: the number division is
    done in floating point and [BigInt] throws a [RangeError] on a number that
    is not an integer.  Exact for operands in the safe-integer range. *)
Definition BigIntOfDivision (n d : Z) : Result Z :=
  if n mod d =? 0 then Ok (n / d) else Err RangeError.

Section RangeResolver.
Variable core : Core.t.

Local Open Scope result_scope.

Definition toBlockNumber (arg : BlockArgumentType.t) : Result Z :=
  ifTruthy (BlockArgumentType.timestamp arg)
    (fun timestamp => Core.getLatestBlockToTimestamp core timestamp)
    match BlockArgumentType.block arg with
    | Some (BlockNumber block) => Ok block
    | other =>
        let blockTag :=
          match other with
          | Some (Tagged tag) => Some tag
          | _ => None
          end in
        number <- Core.getBlock core blockTag ;;
        invariantArgument (truthy number) "block must not be pending" ;;;
        match number with
        | Some n => Ok n
        | None => Err TypeError (* not reached: the assertion has thrown *)
        end
    end.

Definition toBackBlock (arg : option BackArgumentType.t) (start : Z)
  : Result Z :=
  match arg with
  | None => Err TypeError (* [arg.blocks] read on [undefined] *)
  | Some arg =>
      ifTruthy (BackArgumentType.blocks arg)
        (fun blocks =>
           let end_ := start - blocks in
           invariantArgument (end_ >=? 0) "Too many blocks back" ;;;
           Ok end_)
        (ifTruthy (BackArgumentType.days arg)
           (fun days =>
              let date := Z.quot (Core.now core - days * 86400000) 1000 in
              Core.getLatestBlockToTimestamp core date)
           (ifTruthy (BackArgumentType.seconds arg)
              (fun seconds =>
                 nowSeconds <- BigIntOfDivision (Core.now core) 1000 ;;
                 let date := nowSeconds - seconds in
                 Core.getLatestBlockToTimestamp core date)
              (invariantArgument false
                 "must have at least something in back argument" ;;;
               Err TypeError (* not reached *))))
  end.

Definition parseProps (props : Props.t) : Result Parsed.t :=
  toBlock <- toBlockNumber
    match Props.to props with
    | Some to => to
    | None => BlockArgumentType.mk None (Some (Tagged latest))
    end ;;
  fromBlock <-
    match Props.from props with
    | Some from => toBlockNumber from
    | None => toBackBlock (Props.back props) toBlock
    end ;;
  invariantArgument (toBlock >=? fromBlock) "toBlock is lower than fromBlock" ;;;
  let step := match Props.step props with Some s => s | None => DEFAULT_STEP end in
  let includeZeroRebases :=
    match Props.includeZeroRebases props with Some b => b | None => false end in
  let includeOnlyRebases :=
    match Props.includeOnlyRebases props with Some b => b | None => false end in
  invariantArgument (step >? 0) "steps must be a positive integer" ;;;
  Ok (Parsed.mk (Props.address props) fromBlock toBlock step
        includeZeroRebases includeOnlyRebases).

End RangeResolver.

(** [core.error] belongs to [LidoSDKCore], which is not part of the sources
    at hand.  It makes the error value of the SDK out of a code and a message
    and hands it back to its caller; raising it takes a [throw] at the call
    site. *)
Definition coreError (code message : string) : Error :=
  SDKError code message.

(** [if (c) e;] with [e] an expression statement: [e] is evaluated when [c]
    holds, its value is dropped, and the function goes on with the next
    statement either way. *)
Definition whenDropped {A B : Type} (c : bool) (e : A) (next : B) : B :=
  let _ := if c then Some e else None in next.

(** ** Chain event source, merge and fold: [getRewardsFromChain] *)

Module Chain.

(** [RewardsChainEvents]: the decoded logs of [TransferShares] and
    [TokenRebased], with the arguments the fold reads.  [OtherEvent] stands
    for a log of any other name, which the fold rejects. *)
Inductive EventArgs : Type :=
| TransferShares (from to : Address) (sharesValue : Z)
| TokenRebased (postTotalEther postTotalShares : Z)
| OtherEvent (eventName : string).

Module Event.
Record t : Type := mk {
  args : EventArgs;
  blockNumber : Z;
  logIndex : Z
}.
End Event.

(** The indexed-argument filter of [getEvents.TransferShares]. *)
Inductive TransferFilter : Type :=
| FromIs (address : Address)
| ToIs (address : Address).

(** The stETH contract instance: three historical reads at a block number
    and the two log queries over a block range.  The record holds what the
    calls answer when they resolve.  A call that rejects ends the query
    without a ledger and has no place in it, so the record serves for what
    is said of the ledgers a query returns, not for saying when one is
    returned. *)
Module Contract.
Record t : Type := mk {
  sharesOf : Address -> Z -> Z;
  getTotalPooledEther : Z -> Z;
  getTotalShares : Z -> Z;
  getEvents_TransferShares : TransferFilter -> Z -> Z -> list Event.t;
  getEvents_TokenRebased : Z -> Z -> list Event.t
}.
End Contract.

(** The [let] variables the [map] callback closes over. *)
Module State.
Record t (R : Type) : Type := mk {
  currentTotalEther : Z;
  currentTotalShares : Z;
  totalRewards : Z;
  shareRate : R;
  prevSharesBalance : Z
}.
Arguments mk {R}.

Definition set_totals {R : Type} (ether shares : Z) (s : t R) : t R :=
  mk ether shares (totalRewards s) (shareRate s) (prevSharesBalance s).
Definition set_totalRewards {R : Type} (v : Z) (s : t R) : t R :=
  mk (currentTotalEther s) (currentTotalShares s) v (shareRate s)
     (prevSharesBalance s).
Definition set_shareRate {R : Type} (v : R) (s : t R) : t R :=
  mk (currentTotalEther s) (currentTotalShares s) (totalRewards s) v
     (prevSharesBalance s).
Definition set_prevSharesBalance {R : Type} (v : Z) (s : t R) : t R :=
  mk (currentTotalEther s) (currentTotalShares s) (totalRewards s)
     (shareRate s) v.
End State.

(** [GetRewardsFromChainResult] *)
Module Ledger.
Record t (R : Type) : Type := mk {
  rewards : list (Reward.t R Event.t);
  baseBalanceShares : Z;
  baseShareRate : R;
  baseBalance : Z;
  totalRewards : Z;
  fromBlock : Z;
  toBlock : Z
}.
Arguments mk {R}.
End Ledger.

(** The comparator handed to [events.sort]. *)
Definition compareEvents (event1 event2 : Event.t) : Z :=
  let block := Event.blockNumber event1 - Event.blockNumber event2 in
  if block =? 0 then Event.logIndex event1 - Event.logIndex event2
  else if block >? 0 then 1 else -1.

Section Rewards.
Context `{imports : Imports}.

Definition getCurrentStethFromShares (st : State.t ShareRate) (shares : Z) : Z :=
  sharesToSteth shares (State.currentTotalEther st)
    (State.currentTotalShares st) PRECISION.

Definition getCurrentShareRate (st : State.t ShareRate) : ShareRate :=
  calcShareRate (State.currentTotalEther st) (State.currentTotalShares st)
    PRECISION.

Local Open Scope fold_scope.

(** The callback of [events.map]. *)
Definition callback (address withdrawalQueueAddress : Address)
  (event : Event.t) : M (State.t ShareRate) (Reward.t ShareRate Event.t) :=
  match Event.args event with
  | TransferShares from to sharesValue =>
      st <-- get ;;
      let '(type, balanceShares, changeShares) :=
        if String.eqb to address then
          (if String.eqb from zeroAddress then submit else transfer_in,
           State.prevSharesBalance st + sharesValue,
           sharesValue)
        else
          (if String.eqb to withdrawalQueueAddress then withdrawal
           else transfer_out,
           State.prevSharesBalance st - sharesValue,
           - sharesValue) in
      put (State.set_prevSharesBalance balanceShares st) ;;>
      ret {| Reward.type := type;
             Reward.balanceShares := balanceShares;
             Reward.changeShares := changeShares;
             Reward.change := getCurrentStethFromShares st changeShares;
             Reward.balance := getCurrentStethFromShares st balanceShares;
             Reward.shareRate := State.shareRate st;
             Reward.originalEvent := event |}
  | TokenRebased postTotalEther postTotalShares =>
      st <-- get ;;
      let oldBalance :=
        getCurrentStethFromShares st (State.prevSharesBalance st) in
      let st := State.set_totals postTotalEther postTotalShares st in
      let newBalance :=
        getCurrentStethFromShares st (State.prevSharesBalance st) in
      let st := State.set_shareRate (getCurrentShareRate st) st in
      let change := newBalance - oldBalance in
      let st := State.set_totalRewards (State.totalRewards st + change) st in
      put st ;;>
      ret {| Reward.type := rebase;
             Reward.change := change;
             Reward.changeShares := 0;
             Reward.balance := newBalance;
             Reward.balanceShares := State.prevSharesBalance st;
             Reward.shareRate := State.shareRate st;
             Reward.originalEvent := event |}
  | OtherEvent _ =>
      lift (invariant false "Impossible event") ;;>
      throw TypeError (* not reached: the assertion has thrown *)
  end.

(** [fromBlock === 0n ? 0n : fromBlock - 1n] *)
Definition preBlock (fromBlock : Z) : Z :=
  if fromBlock =? 0 then 0 else fromBlock - 1.

(** The three chunked log queries, concatenated in the order of the source
    and sorted in place. *)
Definition sortedEvents (contract : Contract.t) (p : Parsed.t)
  : list Event.t :=
  let address := Parsed.address p in
  let step := Parsed.step p in
  let fromBlock := Parsed.fromBlock p in
  let toBlock := Parsed.toBlock p in
  let transferOutEvents :=
    requestWithBlockStep step fromBlock toBlock
      (fun fromBlock toBlock =>
         Contract.getEvents_TransferShares contract (FromIs address)
           fromBlock toBlock) in
  let transferInEvents :=
    requestWithBlockStep step fromBlock toBlock
      (fun fromBlock toBlock =>
         Contract.getEvents_TransferShares contract (ToIs address)
           fromBlock toBlock) in
  let rebaseEvents :=
    requestWithBlockStep step fromBlock toBlock
      (fun fromBlock toBlock =>
         Contract.getEvents_TokenRebased contract fromBlock toBlock) in
  sort compareEvents (transferInEvents ++ transferOutEvents ++ rebaseEvents).

(** The closure state when [events.map] starts: base totals read at
    [preBlock], [totalRewards = 0n], the base share rate and the base share
    balance. *)
Definition initialState (contract : Contract.t) (p : Parsed.t)
  : State.t ShareRate :=
  let block := preBlock (Parsed.fromBlock p) in
  let baseBalanceShares :=
    Contract.sharesOf contract (Parsed.address p) block in
  let baseTotalEther := Contract.getTotalPooledEther contract block in
  let baseTotalShares := Contract.getTotalShares contract block in
  State.mk baseTotalEther baseTotalShares 0
    (calcShareRate baseTotalEther baseTotalShares PRECISION)
    baseBalanceShares.

(** [events.map(...)]: the records before any post-filter, with the closure
    state the callback left behind. *)
Definition mapEvents (core : Core.t) (contract : Contract.t) (p : Parsed.t)
  : Result (list (Reward.t ShareRate Event.t) * State.t ShareRate) :=
  mapM (callback (Parsed.address p) (Core.withdrawalQueueAddress core))
    (sortedEvents contract p) (initialState contract p).

(** The two post-filters, in the order of this path. *)
Definition postFilter (includeZeroRebases includeOnlyRebases : bool)
  (rewards : list (Reward.t ShareRate Event.t))
  : list (Reward.t ShareRate Event.t) :=
  let rewards :=
    if negb includeOnlyRebases then filter isRebase rewards else rewards in
  let rewards :=
    if negb includeZeroRebases then filter notZeroRebase rewards
    else rewards in
  rewards.

Local Open Scope result_scope.

Definition getRewardsFromChain (core : Core.t) (contract : Contract.t)
  (props : Props.t) : Result (Ledger.t ShareRate) :=
  p <- parseProps core props ;;
  let fromBlock := Parsed.fromBlock p in
  let toBlock := Parsed.toBlock p in
  let lowerBound := EARLIEST_TOKEN_REBASED_EVENT (Core.chainId core) in
  whenDropped (fromBlock <? lowerBound)
    (coreError "NOT_SUPPORTED"
       ("Cannot index events earlier than first TokenRebased event at block "
        ++ toString lowerBound)) (
  let st0 := initialState contract p in
  let baseBalanceShares := State.prevSharesBalance st0 in
  let baseBalance := getCurrentStethFromShares st0 baseBalanceShares in
  let baseShareRate := getCurrentShareRate st0 in
  '(rewards, st) <- mapEvents core contract p ;;
  let rewards :=
    postFilter (Parsed.includeZeroRebases p) (Parsed.includeOnlyRebases p)
      rewards in
  Ok {| Ledger.rewards := rewards;
        Ledger.baseBalanceShares := baseBalanceShares;
        Ledger.baseShareRate := baseShareRate;
        Ledger.baseBalance := baseBalance;
        Ledger.totalRewards := State.totalRewards st;
        Ledger.fromBlock := fromBlock;
        Ledger.toBlock := toBlock |}).

End Rewards.

End Chain.

(** ** Subgraph event source, merge and fold: [getRewardsFromSubgraph] *)

Module Subgraph.

(** [TransferEventEntity]: a transfer as the index stores it, with the
    balances and shares after the transfer already computed. *)
Module TransferEventEntity.
Record t : Type := mk {
  from : Address;
  to : Address;
  shares : Z;
  sharesAfterIncrease : Z;
  value : Z;
  balanceAfterDecrease : Z;
  balanceAfterIncrease : Z;
  sharesAfterDecrease : Z;
  totalPooledEther : Z;
  totalShares : Z;
  block : Z;
  logIndex : Z
}.
End TransferEventEntity.

(** [TotalRewardEntity]: a rebase as the index stores it. *)
Module TotalRewardEntity.
Record t : Type := mk {
  totalPooledEtherAfter : Z;
  totalSharesAfter : Z;
  block : Z;
  logIndex : Z
}.
End TotalRewardEntity.

(** [RewardsSubgraphEvents].  The fold recognises a transfer by its member
    [value] and a rebase by its member [apr]; [OtherEntity] stands for an
    object with neither. *)
Inductive Event : Type :=
| Transfer (entity : TransferEventEntity.t)
| TotalReward (entity : TotalRewardEntity.t)
| OtherEntity (block logIndex : Z).

Definition block (event : Event) : Z :=
  match event with
  | Transfer e => TransferEventEntity.block e
  | TotalReward e => TotalRewardEntity.block e
  | OtherEntity b _ => b
  end.

Definition logIndex (event : Event) : Z :=
  match event with
  | Transfer e => TransferEventEntity.logIndex e
  | TotalReward e => TotalRewardEntity.logIndex e
  | OtherEntity _ i => i
  end.

(** The query service behind [url]: the last indexed block, the two paged
    range queries (address, first block, last block, page size) and the
    last transfer and rebase before a block.  The range queries answer with
    the objects the service sent, which the fold tells apart by membership
    tests only; their numeric members are the integers their decimal
    strings spell.  As with the contract of the chain path, the record holds
    what the requests answer when they resolve: a rejected request ends the
    query without a ledger and has no place in it. *)
Module Service.
Record t : Type := mk {
  getLastIndexedBlock : Z;
  getTransfers : Address -> Z -> Z -> Z -> list Event;
  getTotalRewards : Z -> Z -> Z -> list Event;
  getInitialData :
    Address -> Z -> option TransferEventEntity.t * option TotalRewardEntity.t
}.
End Service.

(** The [let] variables the [map] callback closes over. *)
Module State.
Record t : Type := mk {
  prevBalanceShares : Z;
  prevBalance : Z;
  totalRewards : Z
}.
End State.

(** [GetRewardsFromSubgraphResult] *)
Module Ledger.
Record t (R : Type) : Type := mk {
  rewards : list (Reward.t R Event);
  baseBalance : Z;
  lastIndexedBlock : Z;
  baseBalanceShares : Z;
  totalRewards : Z;
  baseShareRate : R;
  fromBlock : Z;
  toBlock : Z
}.
Arguments mk {R}.
End Ledger.

(** The comparator handed to [events.sort]: blocks are compared as
    bigints, log indices after conversion with [Number]. *)
Definition compareEvents (event1 event2 : Event) : Z :=
  let blockDiff := block event1 - block event2 in
  if blockDiff =? 0 then
    minusSign (Number (logIndex event1)) (Number (logIndex event2))
  else if blockDiff >? 0 then 1 else -1.

Section Rewards.
Context `{imports : Imports}.

Local Open Scope fold_scope.

(** The callback of [events.map]. *)
Definition callback (address withdrawalQueueAddress : Address)
  (event : Event) : M State.t (Reward.t ShareRate Event) :=
  match event with
  | Transfer e =>
      st <-- get ;;
      let from := TransferEventEntity.from e in
      let to := TransferEventEntity.to e in
      let '(type, changeShares, balanceShares, change, balance) :=
        if addressEqual to address then
          (if String.eqb from zeroAddress then submit else transfer_in,
           TransferEventEntity.shares e,
           TransferEventEntity.sharesAfterIncrease e,
           TransferEventEntity.value e,
           TransferEventEntity.balanceAfterIncrease e)
        else
          (if addressEqual to withdrawalQueueAddress then withdrawal
           else transfer_out,
           - TransferEventEntity.shares e,
           TransferEventEntity.sharesAfterDecrease e,
           - TransferEventEntity.value e,
           TransferEventEntity.balanceAfterDecrease e) in
      let shareRate :=
        calcShareRate (TransferEventEntity.totalPooledEther e)
          (TransferEventEntity.totalShares e) PRECISION in
      put (State.mk balanceShares balance (State.totalRewards st)) ;;>
      ret {| Reward.type := type;
             Reward.balanceShares := balanceShares;
             Reward.changeShares := changeShares;
             Reward.change := change;
             Reward.balance := balance;
             Reward.shareRate := shareRate;
             Reward.originalEvent := event |}
  | TotalReward e =>
      st <-- get ;;
      let totalEther := TotalRewardEntity.totalPooledEtherAfter e in
      let totalShares := TotalRewardEntity.totalSharesAfter e in
      let newBalance :=
        sharesToSteth (State.prevBalanceShares st) totalEther totalShares
          PRECISION in
      let change := newBalance - State.prevBalance st in
      put (State.mk (State.prevBalanceShares st) newBalance
             (State.totalRewards st + change)) ;;>
      ret {| Reward.type := rebase;
             Reward.change := change;
             Reward.changeShares := 0;
             Reward.balance := newBalance;
             Reward.balanceShares := State.prevBalanceShares st;
             Reward.shareRate := calcShareRate totalEther totalShares PRECISION;
             Reward.originalEvent := event |}
  | OtherEntity _ _ =>
      lift (invariant false "impossible event") ;;>
      throw TypeError (* not reached: the assertion has thrown *)
  end.

(** [lastIndexedBlock < toBlock ? lastIndexedBlock : toBlock] *)
Definition cappedToBlock (service : Service.t) (p : Parsed.t) : Z :=
  let lastIndexedBlock := Service.getLastIndexedBlock service in
  if lastIndexedBlock <? Parsed.toBlock p then lastIndexedBlock
  else Parsed.toBlock p.

Definition preBlock (fromBlock : Z) : Z :=
  if fromBlock =? 0 then 0 else fromBlock - 1.

(** The two range queries, rebases first, sorted in place. *)
Definition sortedEvents (service : Service.t) (p : Parsed.t) : list Event :=
  let toBlock := cappedToBlock service p in
  let transfers :=
    Service.getTransfers service (Parsed.address p) (Parsed.fromBlock p)
      toBlock (Parsed.step p) in
  let rebases :=
    Service.getTotalRewards service (Parsed.fromBlock p) toBlock
      (Parsed.step p) in
  sort compareEvents (rebases ++ transfers).

(** Base share balance, base asset balance and base share rate, from the
    last transfer and the last rebase before the range. *)
Definition baseValues (service : Service.t) (p : Parsed.t)
  : Z * Z * ShareRate :=
  let address := Parsed.address p in
  let '(initialTransfer, initialRebase) :=
    Service.getInitialData service address (preBlock (Parsed.fromBlock p)) in
  let '(prevBalanceShares, prevBalance) :=
    match initialTransfer with
    | Some t =>
        if addressEqual (TransferEventEntity.to t) address then
          (TransferEventEntity.sharesAfterIncrease t,
           TransferEventEntity.balanceAfterIncrease t)
        else if addressEqual (TransferEventEntity.from t) address then
          (TransferEventEntity.sharesAfterDecrease t,
           TransferEventEntity.balanceAfterDecrease t)
        else (0, 0)
    | None => (0, 0)
    end in
  match initialRebase with
  | Some r =>
      let totalEther := TotalRewardEntity.totalPooledEtherAfter r in
      let totalShares := TotalRewardEntity.totalSharesAfter r in
      (prevBalanceShares,
       sharesToSteth prevBalanceShares totalEther totalShares PRECISION,
       calcShareRate totalEther totalShares PRECISION)
  | None => (prevBalanceShares, prevBalance, zeroShareRate)
  end.

Definition initialState (service : Service.t) (p : Parsed.t) : State.t :=
  let '(prevBalanceShares, prevBalance, _) := baseValues service p in
  State.mk prevBalanceShares prevBalance 0.

(** [events.map(...)]: the records before any post-filter, with the closure
    state the callback left behind. *)
Definition mapEvents (core : Core.t) (service : Service.t) (p : Parsed.t)
  : Result (list (Reward.t ShareRate Event) * State.t) :=
  mapM (callback (Parsed.address p) (Core.withdrawalQueueAddress core))
    (sortedEvents service p) (initialState service p).

(** The two post-filters, in the order of this path. *)
Definition postFilter (includeZeroRebases includeOnlyRebases : bool)
  (rewards : list (Reward.t ShareRate Event))
  : list (Reward.t ShareRate Event) :=
  let rewards :=
    if negb includeZeroRebases then filter notZeroRebase rewards
    else rewards in
  let rewards :=
    if negb includeOnlyRebases then filter isRebase rewards else rewards in
  rewards.

Local Open Scope result_scope.

Definition getRewardsFromSubgraph (core : Core.t) (service : Service.t)
  (props : Props.t) : Result (Ledger.t ShareRate) :=
  p <- parseProps core props ;;
  let lastIndexedBlock := Service.getLastIndexedBlock service in
  let '(baseBalanceShares, baseBalance, baseShareRate) :=
    baseValues service p in
  '(rewards, st) <- mapEvents core service p ;;
  let rewards :=
    postFilter (Parsed.includeZeroRebases p) (Parsed.includeOnlyRebases p)
      rewards in
  Ok {| Ledger.rewards := rewards;
        Ledger.baseBalance := baseBalance;
        Ledger.lastIndexedBlock := lastIndexedBlock;
        Ledger.baseBalanceShares := baseBalanceShares;
        Ledger.totalRewards := State.totalRewards st;
        Ledger.baseShareRate := baseShareRate;
        Ledger.fromBlock := Parsed.fromBlock p;
        Ledger.toBlock := cappedToBlock service p |}.

End Rewards.

End Subgraph.

(** ** Share-rate arithmetic and chunked fetch, as the specification gives them *)

(** Modelled from the spec: [sharesToSteth] of [./utils.js] is not part of the
    sources at hand.  Section 4.5: [shares * totalAssetUnits / totalShares]
    when [totalShares > 0], else [0], in exact integers, the division
    truncating toward zero. *)
Definition sharesToAsset (shares totalAssetUnits totalShares precision : Z) : Z :=
  if totalShares >? 0 then Z.quot (shares * totalAssetUnits) totalShares else 0.

(** Modelled from the spec: [calcShareRate] of [./utils.js] is not part of the
    sources at hand.  Section 4.5: [totalAssetUnits * precision / totalShares]
    when [totalShares > 0], else [0]. *)
Definition computeShareRate (totalAssetUnits totalShares precision : Z) : Z :=
  if totalShares >? 0 then Z.quot (totalAssetUnits * precision) totalShares
  else 0.

(** Modelled from the spec: [requestWithBlockStep] of [./utils.js] is not part
    of the sources at hand.  Sections 1 and 4.2: the range is cut into chunks
    of at most [step] blocks, the callback is run on each sub-range, and the
    results are concatenated in chunk order.  Each chunk holds at least one
    block, so as many rounds as the range has blocks exhaust it. *)
Fixpoint requestChunks {A : Type} (rounds : nat) (step fromBlock toBlock : Z)
  (request : Z -> Z -> list A) : list A :=
  match rounds with
  | O => []
  | S rounds' =>
      if toBlock <? fromBlock then []
      else
        let last := Z.min (Z.max fromBlock (fromBlock + step - 1)) toBlock in
        request fromBlock last
          ++ requestChunks rounds' step (last + 1) toBlock request
  end.

Definition chunkedRequest (A : Type) (step fromBlock toBlock : Z)
  (request : Z -> Z -> list A) : list A :=
  requestChunks (Z.to_nat (toBlock - fromBlock + 1)) step fromBlock toBlock
    request.

(** The helpers of the specification, with addresses compared as the strings
    they are and a rebase-capable ledger from block [10] on. *)
Definition specImports : Imports := {|
  ShareRate := Z;
  zeroShareRate := 0;
  calcShareRate := computeShareRate;
  sharesToSteth := sharesToAsset;
  addressEqual := String.eqb;
  requestWithBlockStep := chunkedRequest;
  EARLIEST_TOKEN_REBASED_EVENT := fun _ => 10
|}.

(** [String.prototype.toLowerCase] on the characters of an address: the
    letters [A] to [Z] go to [a] to [z]. *)
Definition toLowerAscii (c : Ascii.ascii) : Ascii.ascii :=
  let n := Ascii.nat_of_ascii c in
  if ((65 <=? n) && (n <=? 90))%nat then Ascii.ascii_of_nat (n + 32) else c.

Fixpoint toLowerCase (s : string) : string :=
  match s with
  | EmptyString => EmptyString
  | String c s' => String (toLowerAscii c) (toLowerCase s')
  end.

(** Two spellings of one account: the hexadecimal digits of an address are
    read without regard to letter case, the checksummed spelling of a
    decoded log and the lower-case spelling of the same twenty bytes among
    them. *)
Definition sameAccount (a b : Address) : bool :=
  String.eqb (toLowerCase a) (toLowerCase b).

(** The helpers of the specification with an [addressEqual] that tells
    accounts, not spellings, apart. *)
Definition caseBlindImports : Imports := {|
  ShareRate := Z;
  zeroShareRate := 0;
  calcShareRate := computeShareRate;
  sharesToSteth := sharesToAsset;
  addressEqual := sameAccount;
  requestWithBlockStep := chunkedRequest;
  EARLIEST_TOKEN_REBASED_EVENT := fun _ => 10
|}.

(** ** Properties the theorems are stated with *)

Definition sumZ (l : list Z) : Z := fold_right Z.add 0 l.







(** Share balances chained along a sequence of records: every record that
    satisfies [P] has [balanceShares] equal to the [balanceShares] of the
    record before it ([prev] for the first) plus its own [changeShares]. *)
Fixpoint chained {R E : Type} (P : Reward.t R E -> Prop) (prev : Z)
  (rs : list (Reward.t R E)) : Prop :=
  match rs with
  | [] => True
  | r :: rs' =>
      (P r -> Reward.balanceShares r = prev + Reward.changeShares r)
      /\ chained P (Reward.balanceShares r) rs'
  end.

(** A query with both post-filter flags set explicitly. *)
Definition withFlags (includeZeroRebases includeOnlyRebases : bool)
  (props : Props.t) : Props.t :=
  Props.mk (Props.address props) (Props.to props) (Props.from props)
    (Props.back props) (Props.step props) (Some includeZeroRebases)
    (Some includeOnlyRebases).

(** The record type the chain callback computes for a [TransferShares] log,
    named for the statements below. *)
Definition chainTransferType (address withdrawalQueueAddress from to : Address)
  : RewardType :=
  if String.eqb to address then
    if String.eqb from zeroAddress then submit else transfer_in
  else if String.eqb to withdrawalQueueAddress then withdrawal
  else transfer_out.

(** The record type the subgraph callback computes for a transfer entity. *)
Definition subgraphTransferType `{imports : Imports}
  (address withdrawalQueueAddress from to : Address) : RewardType :=
  if addressEqual to address then
    if String.eqb from zeroAddress then submit else transfer_in
  else if addressEqual to withdrawalQueueAddress then withdrawal
  else transfer_out.

(** What the [includeZeroRebases] filter alone leaves of a sequence. *)
Definition dropZeroRebases {R E : Type} (includeZeroRebases : bool)
  (rs : list (Reward.t R E)) : list (Reward.t R E) :=
  if includeZeroRebases then rs else filter notZeroRebase rs.

(** [(r) => r.type !== 'rebase']: the transfer-derived records. *)
Definition isTransferDerived {R E : Type} (r : Reward.t R E) : bool :=
  negb (isRebase r).

(** A synthetic stream of rebases only: starting from [ether] total ether,
    each rebase adds the next of [deltas] to the total ether and leaves the
    total shares at [totalShares]; one rebase per block from [block] on. *)
Fixpoint syntheticRebases (totalShares ether : Z) (deltas : list Z)
  (block : Z) : list Chain.Event.t :=
  match deltas with
  | [] => []
  | d :: ds =>
      Chain.Event.mk (Chain.TokenRebased (ether + d) totalShares) block 0
        :: syntheticRebases totalShares (ether + d) ds (block + 1)
  end.

(** The same stream as the index stores it. *)
Fixpoint syntheticTotalRewards (totalShares ether : Z) (deltas : list Z)
  (block : Z) : list Subgraph.Event :=
  match deltas with
  | [] => []
  | d :: ds =>
      Subgraph.TotalReward
        (Subgraph.TotalRewardEntity.mk (ether + d) totalShares block 0)
        :: syntheticTotalRewards totalShares (ether + d) ds (block + 1)
  end.

(** The asset balance of [shares] after each rebase of such a stream minus
    the balance before it, both converted with [sharesToAsset]. *)
Fixpoint balanceDifferences (shares totalShares ether : Z) (deltas : list Z)
  : list Z :=
  match deltas with
  | [] => []
  | d :: ds =>
      (sharesToAsset shares (ether + d) totalShares PRECISION
       - sharesToAsset shares ether totalShares PRECISION)
        :: balanceDifferences shares totalShares (ether + d) ds
  end.

(** The collaborators of the range resolver raise no argument error of
    their own: whatever argument error a resolution ends with was raised by
    the resolver. *)
Definition raisesNoArgumentError (core : Core.t) : Prop :=
  (forall timestamp message,
      Core.getLatestBlockToTimestamp core timestamp
      <> Err (InvalidArgument message))
  /\ (forall blockTag message,
      Core.getBlock core blockTag <> Err (InvalidArgument message)).

(** The same flags on a resolved query. *)
Definition setFlags (includeZeroRebases includeOnlyRebases : bool)
  (p : Parsed.t) : Parsed.t :=
  Parsed.mk (Parsed.address p) (Parsed.fromBlock p) (Parsed.toBlock p)
    (Parsed.step p) includeZeroRebases includeOnlyRebases.

(** ** A scripted node and a scripted index, for concrete runs *)

Module Sample.

Definition account : Address := "0x00000000000000000000000000000000000000aa".
Definition stranger : Address := "0x00000000000000000000000000000000000000bb".
Definition queue : Address := "0x00000000000000000000000000000000000000cc".

Definition core (chainHead : Z) : Core.t := {|
  Core.chainId := 1;
  Core.getLatestBlockToTimestamp := fun timestamp => Ok (timestamp / 12);
  Core.getBlock := fun blockTag =>
    match blockTag with
    | Some pending => Ok None
    | Some earliest => Ok (Some 0)
    | _ => Ok (Some chainHead)
    end;
  Core.now := 1700000000123;
  Core.withdrawalQueueAddress := queue
|}.

Definition inRange (fromBlock toBlock block : Z) : bool :=
  (fromBlock <=? block) && (block <=? toBlock).

Definition selects (f : Chain.TransferFilter) (e : Chain.Event.t) : bool :=
  match Chain.Event.args e, f with
  | Chain.TransferShares from _ _, Chain.FromIs a => String.eqb from a
  | Chain.TransferShares _ to _, Chain.ToIs a => String.eqb to a
  | _, _ => false
  end.

Definition isTokenRebased (e : Chain.Event.t) : bool :=
  match Chain.Event.args e with
  | Chain.TokenRebased _ _ => true
  | _ => false
  end.

(** A node whose account holds [shares] before the range, whose totals
    before the range are [totalEther] and [totalShares], and whose log is
    [log]. *)
Definition node (shares totalEther totalShares : Z)
  (log : list Chain.Event.t) : Chain.Contract.t := {|
  Chain.Contract.sharesOf := fun _ _ => shares;
  Chain.Contract.getTotalPooledEther := fun _ => totalEther;
  Chain.Contract.getTotalShares := fun _ => totalShares;
  Chain.Contract.getEvents_TransferShares := fun f fromBlock toBlock =>
    filter (fun e => selects f e
                     && inRange fromBlock toBlock (Chain.Event.blockNumber e))
      log;
  Chain.Contract.getEvents_TokenRebased := fun fromBlock toBlock =>
    filter (fun e => isTokenRebased e
                     && inRange fromBlock toBlock (Chain.Event.blockNumber e))
      log
|}.

Definition transferShares (from to : Address) (sharesValue block index : Z)
  : Chain.Event.t :=
  Chain.Event.mk (Chain.TransferShares from to sharesValue) block index.

Definition tokenRebased (postTotalEther postTotalShares block index : Z)
  : Chain.Event.t :=
  Chain.Event.mk (Chain.TokenRebased postTotalEther postTotalShares) block
    index.

(** The scenario of the specification, moved into the supported range: the
    account submits 100 shares at block 20, the ledger rebases at block 30
    from 1000 to 1100 total ether with 10000 total shares. *)
Definition scenarioLog : list Chain.Event.t :=
  [ tokenRebased 1100 10000 30 0;
    transferShares zeroAddress account 100 20 3 ].

Definition scenarioNode : Chain.Contract.t := node 0 1000 10000 scenarioLog.

Definition range (fromBlock toBlock : Z) (zero only : option bool) : Props.t := {|
  Props.address := account;
  Props.to := Some (BlockArgumentType.mk None (Some (BlockNumber toBlock)));
  Props.from := Some (BlockArgumentType.mk None (Some (BlockNumber fromBlock)));
  Props.back := None;
  Props.step := Some 7;
  Props.includeZeroRebases := zero;
  Props.includeOnlyRebases := only
|}.

(** An index that answers with the same entities whatever the range. *)
Definition index (lastIndexed : Z) (transfers rebases : list Subgraph.Event)
  (initialTransfer : option Subgraph.TransferEventEntity.t)
  (initialRebase : option Subgraph.TotalRewardEntity.t) : Subgraph.Service.t := {|
  Subgraph.Service.getLastIndexedBlock := lastIndexed;
  Subgraph.Service.getTransfers := fun _ fromBlock toBlock _ =>
    filter (fun e => inRange fromBlock toBlock (Subgraph.block e)) transfers;
  Subgraph.Service.getTotalRewards := fun fromBlock toBlock _ =>
    filter (fun e => inRange fromBlock toBlock (Subgraph.block e)) rebases;
  Subgraph.Service.getInitialData := fun _ _ => (initialTransfer, initialRebase)
|}.

Definition submitEntity : Subgraph.TransferEventEntity.t := {|
  Subgraph.TransferEventEntity.from := zeroAddress;
  Subgraph.TransferEventEntity.to := account;
  Subgraph.TransferEventEntity.shares := 100;
  Subgraph.TransferEventEntity.sharesAfterIncrease := 100;
  Subgraph.TransferEventEntity.value := 10;
  Subgraph.TransferEventEntity.balanceAfterDecrease := 0;
  Subgraph.TransferEventEntity.balanceAfterIncrease := 10;
  Subgraph.TransferEventEntity.sharesAfterDecrease := 0;
  Subgraph.TransferEventEntity.totalPooledEther := 1000;
  Subgraph.TransferEventEntity.totalShares := 10000;
  Subgraph.TransferEventEntity.block := 20;
  Subgraph.TransferEventEntity.logIndex := 3
|}.

Definition rebaseEntity : Subgraph.TotalRewardEntity.t := {|
  Subgraph.TotalRewardEntity.totalPooledEtherAfter := 1100;
  Subgraph.TotalRewardEntity.totalSharesAfter := 10000;
  Subgraph.TotalRewardEntity.block := 30;
  Subgraph.TotalRewardEntity.logIndex := 0
|}.

Definition scenarioIndex (lastIndexed : Z) : Subgraph.Service.t :=
  index lastIndexed [Subgraph.Transfer submitEntity]
    [Subgraph.TotalReward rebaseEntity] None None.

(** [account] in the spelling of a decoded log: the same twenty bytes with
    the letters in upper case. *)
Definition accountAsLogged : Address :=
  "0x00000000000000000000000000000000000000AA".

(** A node that matches the indexed arguments of a log by account, as a
    topic filter does, and hands the logs back with their own spelling of
    the addresses. *)
Definition selectsAccount (f : Chain.TransferFilter) (e : Chain.Event.t)
  : bool :=
  match Chain.Event.args e, f with
  | Chain.TransferShares from _ _, Chain.FromIs a => sameAccount from a
  | Chain.TransferShares _ to _, Chain.ToIs a => sameAccount to a
  | _, _ => false
  end.

Definition depositNode : Chain.Contract.t := {|
  Chain.Contract.sharesOf := fun _ _ => 0;
  Chain.Contract.getTotalPooledEther := fun _ => 1000;
  Chain.Contract.getTotalShares := fun _ => 10000;
  Chain.Contract.getEvents_TransferShares := fun f fromBlock toBlock =>
    filter (fun e => selectsAccount f e
                     && inRange fromBlock toBlock (Chain.Event.blockNumber e))
      [transferShares zeroAddress accountAsLogged 100 20 3];
  Chain.Contract.getEvents_TokenRebased := fun _ _ => []
|}.

(** The deposit of [depositNode] as the index stores it. *)
Definition depositEntity : Subgraph.TransferEventEntity.t := {|
  Subgraph.TransferEventEntity.from := zeroAddress;
  Subgraph.TransferEventEntity.to := accountAsLogged;
  Subgraph.TransferEventEntity.shares := 100;
  Subgraph.TransferEventEntity.sharesAfterIncrease := 100;
  Subgraph.TransferEventEntity.value := 10;
  Subgraph.TransferEventEntity.balanceAfterDecrease := 0;
  Subgraph.TransferEventEntity.balanceAfterIncrease := 10;
  Subgraph.TransferEventEntity.sharesAfterDecrease := 0;
  Subgraph.TransferEventEntity.totalPooledEther := 1000;
  Subgraph.TransferEventEntity.totalShares := 10000;
  Subgraph.TransferEventEntity.block := 20;
  Subgraph.TransferEventEntity.logIndex := 3
|}.


End Sample.

(** ** Withdrawal requests of an account: [LidoSDKWithdrawRequestsInfo] *)

Module Withdraw.

(** [RequestStatusWithId], with the members the class reads. *)
Module RequestStatusWithId.
Record t : Type := mk {
  id : Z;
  amountOfStETH : Z;
  isFinalized : bool;
  isClaimed : bool
}.
End RequestStatusWithId.

(** [this.bus.views]: the view calls of the withdrawal queue, each of which
    may reject. *)
Module Views.
Record t : Type := mk {
  getWithdrawalRequestsIds : Address -> Result (list Z);
  getWithdrawalStatus : list Z -> Result (list RequestStatusWithId.t);
  getLastCheckpointIndex : Result Z;
  findCheckpointHints : list Z -> Z -> Result (list Z);
  getClaimableEther : list Z -> list Z -> Result (list Z)
}.
End Views.

(** The accumulator of the two [reduce] calls: a list that grows by [push]
    and a running amount. *)
Module Totals.
Record t : Type := mk {
  requests : list RequestStatusWithId.t;
  amountStETH : Z
}.
End Totals.

(** An element of [claimableRequestsIds]: [bigint | RequestStatusWithId].
    The type guard [isBigint] tells the two apart. *)
Inductive IdOrRequest : Type :=
| ById (id : Z)
| ByRequest (request : RequestStatusWithId.t).

Definition isBigint (req : IdOrRequest) : bool :=
  match req with
  | ById _ => true
  | ByRequest _ => false
  end.

(** [(req) => (isBigint(req) ? req : req.id)] *)
Definition idOf (req : IdOrRequest) : Z :=
  match req with
  | ById id => id
  | ByRequest request => RequestStatusWithId.id request
  end.

(** The comparator of [getClaimableRequestsETHByIds]: it never answers [0]
    for two elements of the same kind and always answers [0] across kinds. *)
Definition compareIdOrRequest (aReq bReq : IdOrRequest) : Z :=
  match aReq, bReq with
  | ById a, ById b => if a >? b then 1 else -1
  | ByRequest a, ByRequest b =>
      if RequestStatusWithId.id a >? RequestStatusWithId.id b then 1 else -1
  | _, _ => 0
  end.

(** [(aReq, bReq) => (aReq > bReq ? 1 : -1)] *)
Definition compareIds (aReq bReq : Z) : Z := if aReq >? bReq then 1 else -1.

(** The results of the two [getClaimableRequestsETH...] methods; the first
    method fills neither [requests] nor [sortedIds]. *)
Module ClaimableETH.
Record t : Type := mk {
  ethByRequests : list Z;
  ethSum : Z;
  hints : list Z;
  requests : option (list RequestStatusWithId.t);
  sortedIds : option (list Z)
}.
End ClaimableETH.

Module Info.
Record t : Type := mk {
  claimableInfo : Totals.t;
  pendingInfo : Totals.t;
  claimableETH : ClaimableETH.t
}.
End Info.

Section Methods.
Variable views : Views.t.

Local Open Scope result_scope.

Definition getWithdrawalRequestsStatus (account : Address)
  : Result (list RequestStatusWithId.t) :=
  requestsIds <- Views.getWithdrawalRequestsIds views account ;;
  Views.getWithdrawalStatus views requestsIds.

(** One round of [requests.reduce]: a request that passes [test] is pushed
    and its amount added. *)
Definition collect (test : RequestStatusWithId.t -> bool) (acc : Totals.t)
  (request : RequestStatusWithId.t) : Totals.t :=
  if test request then
    Totals.mk (Totals.requests acc ++ [request])
      (Totals.amountStETH acc + RequestStatusWithId.amountOfStETH request)
  else acc.

(** [request.isFinalized && !request.isClaimed] *)
Definition isClaimable (request : RequestStatusWithId.t) : bool :=
  RequestStatusWithId.isFinalized request
  && negb (RequestStatusWithId.isClaimed request).

(** [!request.isFinalized && !request.isClaimed] *)
Definition isPending (request : RequestStatusWithId.t) : bool :=
  negb (RequestStatusWithId.isFinalized request)
  && negb (RequestStatusWithId.isClaimed request).

Definition getClaimableRequestsInfo (account : Address) : Result Totals.t :=
  requests <- getWithdrawalRequestsStatus account ;;
  Ok (fold_left (collect isClaimable) requests (Totals.mk [] 0)).

Definition getPendingRequestsInfo (account : Address) : Result Totals.t :=
  requests <- getWithdrawalRequestsStatus account ;;
  Ok (fold_left (collect isPending) requests (Totals.mk [] 0)).

(** [ethByRequests.reduce((acc, eth) => acc + eth, BigInt(0))] *)
Definition sumEth (ethByRequests : list Z) : Z :=
  fold_left (fun acc eth => acc + eth) ethByRequests 0.

(** The tail both [getClaimableRequestsETH...] methods share: the last
    checkpoint index is read first, then the hints, then the ether. *)
Definition claimableEtherOf (sortedIds : list Z)
  : Result (list Z * Z * list Z) :=
  lastIndex <- Views.getLastCheckpointIndex views ;;
  hints <- Views.findCheckpointHints views sortedIds lastIndex ;;
  ethByRequests <- Views.getClaimableEther views sortedIds hints ;;
  Ok (ethByRequests, sumEth ethByRequests, hints).

Definition getClaimableRequestsETHByIds
  (claimableRequestsIds : list IdOrRequest) : Result ClaimableETH.t :=
  let sortedIds := map idOf (sort compareIdOrRequest claimableRequestsIds) in
  '(ethByRequests, ethSum, hints) <- claimableEtherOf sortedIds ;;
  Ok (ClaimableETH.mk ethByRequests ethSum hints None None).

Definition getClaimableRequestsETHByAccount (account : Address)
  : Result ClaimableETH.t :=
  requests <- getWithdrawalRequestsStatus account ;;
  let sortedIds :=
    sort compareIds (map RequestStatusWithId.id requests) in
  '(ethByRequests, ethSum, hints) <- claimableEtherOf sortedIds ;;
  Ok (ClaimableETH.mk ethByRequests ethSum hints (Some requests)
        (Some sortedIds)).

Definition getWithdrawalRequestsInfo (account : Address) : Result Info.t :=
  claimableInfo <- getClaimableRequestsInfo account ;;
  claimableETH <- getClaimableRequestsETHByAccount account ;;
  pendingInfo <- getPendingRequestsInfo account ;;
  Ok (Info.mk claimableInfo pendingInfo claimableETH).

End Methods.

End Withdraw.

(** ** The state of a playground action: [reducer] of [action.tsx] *)

Module Playground.

(** [ReducerAction<TResult>], over the error type [E]. *)
Inductive ReducerAction (E TResult : Type) : Type :=
| loading
| error (error : E)
| success (result : TResult)
| reset.
Arguments loading {E TResult}.
Arguments error {E TResult} error.
Arguments success {E TResult} result.
Arguments reset {E TResult}.

(** [ReducerState<TResult>]; an absent member is [None]. *)
Module ReducerState.
Record t (E TResult : Type) : Type := mk {
  loading : bool;
  error : option E;
  result : option TResult
}.
Arguments mk {E TResult}.
End ReducerState.

(** [switch (action?.type)]: an absent action takes the [default] branch. *)
Definition reducer {E TResult : Type} (state : ReducerState.t E TResult)
  (action : option (ReducerAction E TResult)) : ReducerState.t E TResult :=
  match action with
  | Some loading => ReducerState.mk true None None
  | Some (error e) => ReducerState.mk false (Some e) None
  | Some (success r) => ReducerState.mk false None (Some r)
  | Some reset => ReducerState.mk false None None
  | None => state
  end.

(** The state [useReducer] starts from. *)
Definition initialState {E TResult : Type} : ReducerState.t E TResult :=
  ReducerState.mk false None None.

(** The states a component goes through as actions are dispatched. *)
Definition dispatchAll {E TResult : Type}
  (actions : list (option (ReducerAction E TResult)))
  (state : ReducerState.t E TResult) : ReducerState.t E TResult :=
  fold_left reducer actions state.

(** What [startLoading] dispatches: [loading], then [success] with the value
    the action resolved to or [error] with what it threw. *)
Definition startLoading {E TResult : Type} (outcome : E + TResult)
  : list (option (ReducerAction E TResult)) :=
  [ Some loading;
    match outcome with
    | inr result => Some (success result)
    | inl e => Some (error e)
    end ].

(** A state that shows neither a result nor an error while it is loading,
    and never a result together with an error. *)
Definition coherent {E TResult : Type} (state : ReducerState.t E TResult)
  : Prop :=
  (ReducerState.loading state = true ->
   ReducerState.error state = None /\ ReducerState.result state = None)
  /\ (ReducerState.error state <> None -> ReducerState.result state = None).

End Playground.

(** A scripted withdrawal queue with three requests of one account: one
    claimable, one pending, one claimed. *)
Module SampleQueue.

Definition requests : list Withdraw.RequestStatusWithId.t :=
  [ Withdraw.RequestStatusWithId.mk 7 100 true false;
    Withdraw.RequestStatusWithId.mk 3 40 false false;
    Withdraw.RequestStatusWithId.mk 5 60 true true ].

Definition views : Withdraw.Views.t := {|
  Withdraw.Views.getWithdrawalRequestsIds := fun _ => Ok [7; 3; 5];
  Withdraw.Views.getWithdrawalStatus := fun ids =>
    Ok (filter
          (fun r => existsb (Z.eqb (Withdraw.RequestStatusWithId.id r)) ids)
          requests);
  Withdraw.Views.getLastCheckpointIndex := Ok 9;
  Withdraw.Views.findCheckpointHints := fun ids lastIndex =>
    Ok (map (fun _ => lastIndex) ids);
  Withdraw.Views.getClaimableEther := fun ids _ =>
    Ok (map (fun id => id * 10) ids)
|}.

End SampleQueue.

(** ** Further properties of the reward ledger *)

(** Asset balances chained along a sequence of records: every record that
    satisfies [P] has [balance] equal to the [balance] of the record before
    it ([prev] for the first) plus its own [change]. *)
Fixpoint balanceChained {R E : Type} (P : Reward.t R E -> Prop) (prev : Z)
  (rs : list (Reward.t R E)) : Prop :=
  match rs with
  | [] => True
  | r :: rs' =>
      (P r -> Reward.balance r = prev + Reward.change r)
      /\ balanceChained P (Reward.balance r) rs'
  end.

(** The [balance] of the last record, [base] when there is none. *)
Definition lastBalance {R E : Type} (base : Z) (rs : list (Reward.t R E)) : Z :=
  last (map (@Reward.balance R E) rs) base.

(** A log the chain fold has a branch for. *)
Definition chainRecognised (e : Chain.Event.t) : bool :=
  match Chain.Event.args e with
  | Chain.OtherEvent _ => false
  | _ => true
  end.

(** An object the subgraph fold has a branch for. *)
Definition subgraphRecognised (e : Subgraph.Event) : bool :=
  match e with
  | Subgraph.OtherEntity _ _ => false
  | _ => true
  end.

(** The three log streams of the chain path, in the order they are
    concatenated. *)
Definition chainStreams `{imports : Imports} (contract : Chain.Contract.t)
  (p : Parsed.t) : list Chain.Event.t :=
  requestWithBlockStep (Parsed.step p) (Parsed.fromBlock p) (Parsed.toBlock p)
    (fun fromBlock toBlock =>
       Chain.Contract.getEvents_TransferShares contract
         (Chain.ToIs (Parsed.address p)) fromBlock toBlock)
  ++ requestWithBlockStep (Parsed.step p) (Parsed.fromBlock p)
       (Parsed.toBlock p)
       (fun fromBlock toBlock =>
          Chain.Contract.getEvents_TransferShares contract
            (Chain.FromIs (Parsed.address p)) fromBlock toBlock)
  ++ requestWithBlockStep (Parsed.step p) (Parsed.fromBlock p)
       (Parsed.toBlock p)
       (fun fromBlock toBlock =>
          Chain.Contract.getEvents_TokenRebased contract fromBlock toBlock).

(** The two entity streams of the subgraph path, up to [toBlock]. *)
Definition subgraphStreams (service : Subgraph.Service.t) (p : Parsed.t)
  (toBlock : Z) : list Subgraph.Event :=
  Subgraph.Service.getTotalRewards service (Parsed.fromBlock p) toBlock
    (Parsed.step p)
  ++ Subgraph.Service.getTransfers service (Parsed.address p)
       (Parsed.fromBlock p) toBlock (Parsed.step p).

(** The total ether and total shares in force after each event of a chain
    stream: those of the event when it is a rebase, those in force before it
    otherwise. *)
Fixpoint totalsAlong (ether shares : Z) (events : list Chain.Event.t)
  : list (Z * Z) :=
  match events with
  | [] => []
  | e :: es =>
      let totals :=
        match Chain.Event.args e with
        | Chain.TokenRebased postTotalEther postTotalShares =>
            (postTotalEther, postTotalShares)
        | _ => (ether, shares)
        end in
      totals :: totalsAlong (fst totals) (snd totals) es
  end.

(** A query whose two bounds are explicit block numbers. *)
Definition explicitRange (address : Address) (fromBlock toBlock : Z)
  (step : option Z) (zero only : option bool) : Props.t := {|
  Props.address := address;
  Props.to := Some (BlockArgumentType.mk None (Some (BlockNumber toBlock)));
  Props.from := Some (BlockArgumentType.mk None (Some (BlockNumber fromBlock)));
  Props.back := None;
  Props.step := step;
  Props.includeZeroRebases := zero;
  Props.includeOnlyRebases := only
|}.

(** A query that ends at an explicit block number and starts a back
    specifier before it. *)
Definition backRange (address : Address) (toBlock : Z)
  (back : BackArgumentType.t) (step : option Z) (zero only : option bool)
  : Props.t := {|
  Props.address := address;
  Props.to := Some (BlockArgumentType.mk None (Some (BlockNumber toBlock)));
  Props.from := None;
  Props.back := Some back;
  Props.step := step;
  Props.includeZeroRebases := zero;
  Props.includeOnlyRebases := only
|}.

(** [step = DEFAULT_STEP] and the like: the value of an optional member. *)
Definition orDefault {A : Type} (v : option A) (default : A) : A :=
  match v with
  | Some a => a
  | None => default
  end.

(** * Proofs *)

(** ** Concrete runs *)

Example scenario_chain_all_records :
  option_map (fun l => (map (@Reward.type _ _) (Chain.Ledger.rewards l),
                        map (@Reward.balanceShares _ _) (Chain.Ledger.rewards l),
                        map (@Reward.change _ _) (Chain.Ledger.rewards l),
                        Chain.Ledger.totalRewards l))
    match Chain.getRewardsFromChain (imports := specImports) (Sample.core 100)
            Sample.scenarioNode (Sample.range 15 40 (Some true) (Some true)) with
    | Ok l => Some l
    | Err _ => None
    end
  = Some ([submit; rebase], [100; 100], [10; 1], 1).
Proof. vm_compute. reflexivity. Qed.

Example scenario_subgraph_all_records :
  option_map (fun l => (map (@Reward.type _ _) (Subgraph.Ledger.rewards l),
                        map (@Reward.balanceShares _ _)
                          (Subgraph.Ledger.rewards l),
                        map (@Reward.change _ _) (Subgraph.Ledger.rewards l),
                        Subgraph.Ledger.totalRewards l,
                        Subgraph.Ledger.toBlock l))
    match Subgraph.getRewardsFromSubgraph (imports := specImports)
            (Sample.core 100) (Sample.scenarioIndex 100)
            (Sample.range 15 40 (Some true) (Some true)) with
    | Ok l => Some l
    | Err _ => None
    end
  = Some ([submit; rebase], [100; 100], [10; 1], 1, 40).
Proof. vm_compute. reflexivity. Qed.

(** A second rebase that leaves the total ether where it was: dropped unless
    [includeZeroRebases] is set. *)
Example zero_rebase_dropped_by_default :
  let log := Sample.tokenRebased 1100 10000 31 0 :: Sample.scenarioLog in
  let changes (zero : option bool) :=
    match Chain.getRewardsFromChain (imports := specImports) (Sample.core 100)
            (Sample.node 0 1000 10000 log) (Sample.range 15 40 zero None) with
    | Ok l => Some (map (@Reward.change _ _) (Chain.Ledger.rewards l),
                    Chain.Ledger.totalRewards l)
    | Err _ => None
    end in
  changes None = Some ([1], 1) /\ changes (Some true) = Some ([1; 0], 1).
Proof. vm_compute. split; reflexivity. Qed.

(** An unrecognised log aborts the query. *)
Example impossible_event_aborts :
  Chain.getRewardsFromChain (imports := specImports) (Sample.core 100)
    (Chain.Contract.mk (fun _ _ => 0) (fun _ => 1000) (fun _ => 10000)
       (fun _ _ _ => [])
       (fun fromBlock _ =>
          [Chain.Event.mk (Chain.OtherEvent "Approval") fromBlock 0]))
    (Sample.range 15 15 None None)
  = Err (InvariantFailed "Impossible event").
Proof. vm_compute. reflexivity. Qed.

(** ** The error monad and [mapM] *)

Lemma rbind_Ok_inv (A B : Type) (r : Result A) (k : A -> Result B) (b : B) :
  rbind r k = Ok b -> exists a, r = Ok a /\ k a = Ok b.
Proof.
  destruct r as [a|e]; simpl; intros Hk.
  - exists a. split; [reflexivity | exact Hk].
  - discriminate Hk.
Qed.

Section MapM.
Variables (S A B : Type).
Variable f : A -> M S B.

Lemma mapM_cons_inv (x : A) (l : list A) (s s' : S) (rs : list B) :
  mapM f (x :: l) s = Ok (rs, s') ->
  exists r s1 rs',
    f x s = Ok (r, s1) /\ mapM f l s1 = Ok (rs', s') /\ rs = r :: rs'.
Proof.
  simpl. unfold bind, ret.
  destruct (f x s) as [[r s1]|e] eqn:Hx; [|discriminate].
  destruct (mapM f l s1) as [[rs' s2]|e] eqn:Hl; [|discriminate].
  intros Heq. injection Heq as <- <-.
  exists r, s1, rs'. repeat split. exact Hl.
Qed.

Lemma mapM_cons_intro (x : A) (l : list A) (s s1 s' : S) (r : B)
  (rs : list B) :
  f x s = Ok (r, s1) -> mapM f l s1 = Ok (rs, s') ->
  mapM f (x :: l) s = Ok (r :: rs, s').
Proof.
  intros Hx Hl. simpl. unfold bind, ret. rewrite Hx, Hl. reflexivity.
Qed.

(** Induction along a successful run of [mapM]. *)
Lemma mapM_run_ind (Q : S -> list A -> list B -> S -> Prop) :
  (forall s, Q s [] [] s) ->
  (forall x l s r s1 rs s',
      f x s = Ok (r, s1) -> mapM f l s1 = Ok (rs, s') ->
      Q s1 l rs s' -> Q s (x :: l) (r :: rs) s') ->
  forall l s rs s', mapM f l s = Ok (rs, s') -> Q s l rs s'.
Proof.
  intros Hnil Hcons. induction l as [|x l IH]; intros s rs s' Hrun.
  - simpl in Hrun. unfold ret in Hrun. injection Hrun as <- <-. apply Hnil.
  - apply mapM_cons_inv in Hrun.
    destruct Hrun as (r & s1 & rs' & Hx & Hl & ->).
    eapply Hcons; eauto.
Qed.

Lemma mapM_Forall2 (P : A -> B -> Prop) :
  (forall x s r s', f x s = Ok (r, s') -> P x r) ->
  forall l s rs s', mapM f l s = Ok (rs, s') -> Forall2 P l rs.
Proof.
  intros Hstep l s rs s' Hrun.
  pattern s, l, rs, s'. revert l s rs s' Hrun.
  apply mapM_run_ind.
  - intros; constructor.
  - intros x l s r s1 rs s' Hx _ IH. constructor; eauto.
Qed.

(** A callback that cannot throw makes [mapM] return. *)
Lemma mapM_total :
  forall l, (forall x, In x l -> forall s, exists r s', f x s = Ok (r, s')) ->
  forall s, exists rs s', mapM f l s = Ok (rs, s').
Proof.
  induction l as [|x l IH]; intros Hok s.
  - exists [], s. reflexivity.
  - destruct (Hok x (or_introl eq_refl) s) as (r & s1 & Hx).
    destruct (IH (fun y Hy => Hok y (or_intror Hy)) s1) as (rs & s' & Hl).
    exists (r :: rs), s'. eapply mapM_cons_intro; eauto.
Qed.

End MapM.

(** ** Lists *)

Lemma filter_filter_comm (A : Type) (p q : A -> bool) (l : list A) :
  filter p (filter q l) = filter q (filter p l).
Proof.
  induction l as [|x l IH]; simpl; [reflexivity|].
  destruct (p x) eqn:Hp, (q x) eqn:Hq; simpl;
    rewrite ?Hp, ?Hq, IH; reflexivity.
Qed.

Lemma filter_Forall_true (A : Type) (p : A -> bool) (l : list A) :
  Forall (fun x => p x = true) (filter p l).
Proof.
  induction l as [|x l IH]; simpl; [constructor|].
  destruct (p x) eqn:Hp; [constructor|]; assumption.
Qed.

Lemma RewardType_eqb_eq (a b : RewardType) :
  RewardType_eqb a b = true <-> a = b.
Proof. destruct a, b; simpl; split; congruence. Qed.

Lemma isRebase_true (R E : Type) (r : Reward.t R E) :
  isRebase r = true <-> Reward.type r = rebase.
Proof. apply RewardType_eqb_eq. Qed.

Lemma notZeroRebase_false (R E : Type) (r : Reward.t R E) :
  notZeroRebase r = false <-> Reward.type r = rebase /\ Reward.change r = 0.
Proof.
  unfold notZeroRebase. rewrite negb_false_iff, andb_true_iff.
  rewrite RewardType_eqb_eq, Z.eqb_eq. reflexivity.
Qed.

Lemma sum_filter_notZeroRebase (R E : Type) (rs : list (Reward.t R E)) :
  sumZ (map (@Reward.change R E) (filter isRebase (filter notZeroRebase rs)))
  = sumZ (map (@Reward.change R E) (filter isRebase rs)).
Proof.
  induction rs as [|r rs IH]; simpl; [reflexivity|].
  destruct (notZeroRebase r) eqn:Hz; simpl.
  - destruct (isRebase r); simpl; rewrite IH; reflexivity.
  - apply notZeroRebase_false in Hz. destruct Hz as [Ht Hc].
    apply isRebase_true in Ht. rewrite Ht. simpl. rewrite IH, Hc. reflexivity.
Qed.

(** ** The shape of a successful query *)

Lemma parseProps_withFlags (core : Core.t) (z o : bool) (props : Props.t) :
  parseProps core (withFlags z o props)
  = rbind (parseProps core props) (fun p => Ok (setFlags z o p)).
Proof.
  unfold parseProps, withFlags. simpl.
  destruct (toBlockNumber core _) as [toBlock|e]; simpl; [|reflexivity].
  destruct (match Props.from props with
            | Some from => toBlockNumber core from
            | None => toBackBlock core (Props.back props) toBlock
            end) as [fromBlock|e]; simpl; [|reflexivity].
  destruct (invariantArgument (toBlock >=? fromBlock) _); simpl;
    [|reflexivity].
  destruct (invariantArgument _ "steps must be a positive integer"); simpl;
    reflexivity.
Qed.

Section ChainShape.
Context `{imports : Imports}.
Variables (core : Core.t) (contract : Chain.Contract.t).

Lemma chain_mapEvents_setFlags (z o : bool) (p : Parsed.t) :
  Chain.mapEvents core contract (setFlags z o p)
  = Chain.mapEvents core contract p.
Proof. reflexivity. Qed.

Lemma chain_run_inv (props : Props.t) (ledger : Chain.Ledger.t ShareRate) :
  Chain.getRewardsFromChain core contract props = Ok ledger ->
  exists p rs st,
    parseProps core props = Ok p
    /\ Chain.mapEvents core contract p = Ok (rs, st)
    /\ ledger =
       {| Chain.Ledger.rewards :=
            Chain.postFilter (Parsed.includeZeroRebases p)
              (Parsed.includeOnlyRebases p) rs;
          Chain.Ledger.baseBalanceShares :=
            Chain.State.prevSharesBalance (Chain.initialState contract p);
          Chain.Ledger.baseShareRate :=
            Chain.getCurrentShareRate (Chain.initialState contract p);
          Chain.Ledger.baseBalance :=
            Chain.getCurrentStethFromShares (Chain.initialState contract p)
              (Chain.State.prevSharesBalance (Chain.initialState contract p));
          Chain.Ledger.totalRewards := Chain.State.totalRewards st;
          Chain.Ledger.fromBlock := Parsed.fromBlock p;
          Chain.Ledger.toBlock := Parsed.toBlock p |}.
Proof.
  unfold Chain.getRewardsFromChain. intros Hrun.
  apply rbind_Ok_inv in Hrun. destruct Hrun as (p & Hp & Hrun).
  unfold whenDropped in Hrun.
  apply rbind_Ok_inv in Hrun. destruct Hrun as ([rs st] & Hmap & Hrun).
  injection Hrun as <-.
  exists p, rs, st. repeat split; assumption.
Qed.

Lemma chain_run_intro (props : Props.t) (p : Parsed.t)
  (rs : list (Reward.t ShareRate Chain.Event.t)) (st : Chain.State.t ShareRate) :
  parseProps core props = Ok p ->
  Chain.mapEvents core contract p = Ok (rs, st) ->
  exists ledger,
    Chain.getRewardsFromChain core contract props = Ok ledger
    /\ Chain.Ledger.rewards ledger
       = Chain.postFilter (Parsed.includeZeroRebases p)
           (Parsed.includeOnlyRebases p) rs
    /\ Chain.Ledger.totalRewards ledger = Chain.State.totalRewards st.
Proof.
  intros Hp Hmap. unfold Chain.getRewardsFromChain.
  rewrite Hp. simpl. unfold whenDropped. rewrite Hmap. simpl.
  eexists. split; [reflexivity|]. split; reflexivity.
Qed.

(** The query with both flags set returns the records of [events.map]
    untouched. *)
Lemma chain_run_full (props : Props.t) (p : Parsed.t)
  (rs : list (Reward.t ShareRate Chain.Event.t)) (st : Chain.State.t ShareRate) :
  parseProps core props = Ok p ->
  Chain.mapEvents core contract p = Ok (rs, st) ->
  exists full,
    Chain.getRewardsFromChain core contract (withFlags true true props)
    = Ok full
    /\ Chain.Ledger.rewards full = rs
    /\ Chain.Ledger.totalRewards full = Chain.State.totalRewards st.
Proof.
  intros Hp Hmap.
  destruct (@chain_run_intro (withFlags true true props) (setFlags true true p)
              rs st) as (full & Hfull & Hrs & Htot).
  - rewrite parseProps_withFlags, Hp. reflexivity.
  - rewrite chain_mapEvents_setFlags. exact Hmap.
  - exists full. repeat split; assumption.
Qed.

End ChainShape.

Section SubgraphShape.
Context `{imports : Imports}.
Variables (core : Core.t) (service : Subgraph.Service.t).

Lemma subgraph_mapEvents_setFlags (z o : bool) (p : Parsed.t) :
  Subgraph.mapEvents core service (setFlags z o p)
  = Subgraph.mapEvents core service p.
Proof. reflexivity. Qed.

Lemma subgraph_run_inv (props : Props.t)
  (ledger : Subgraph.Ledger.t ShareRate) :
  Subgraph.getRewardsFromSubgraph core service props = Ok ledger ->
  exists p rs st,
    parseProps core props = Ok p
    /\ Subgraph.mapEvents core service p = Ok (rs, st)
    /\ Subgraph.Ledger.rewards ledger
       = Subgraph.postFilter (Parsed.includeZeroRebases p)
           (Parsed.includeOnlyRebases p) rs
    /\ Subgraph.Ledger.totalRewards ledger = Subgraph.State.totalRewards st
    /\ Subgraph.Ledger.baseBalanceShares ledger
       = Subgraph.State.prevBalanceShares (Subgraph.initialState service p)
    /\ Subgraph.Ledger.toBlock ledger = Subgraph.cappedToBlock service p
    /\ Subgraph.Ledger.lastIndexedBlock ledger
       = Subgraph.Service.getLastIndexedBlock service.
Proof.
  unfold Subgraph.getRewardsFromSubgraph. intros Hrun.
  apply rbind_Ok_inv in Hrun. destruct Hrun as (p & Hp & Hrun).
  destruct (Subgraph.baseValues service p) as [[shares bal] rate] eqn:Hbase.
  apply rbind_Ok_inv in Hrun. destruct Hrun as ([rs st] & Hmap & Hrun).
  injection Hrun as <-.
  exists p, rs, st. repeat split; try assumption.
  unfold Subgraph.initialState. rewrite Hbase. reflexivity.
Qed.

Lemma subgraph_run_intro (props : Props.t) (p : Parsed.t)
  (rs : list (Reward.t ShareRate Subgraph.Event)) (st : Subgraph.State.t) :
  parseProps core props = Ok p ->
  Subgraph.mapEvents core service p = Ok (rs, st) ->
  exists ledger,
    Subgraph.getRewardsFromSubgraph core service props = Ok ledger
    /\ Subgraph.Ledger.rewards ledger
       = Subgraph.postFilter (Parsed.includeZeroRebases p)
           (Parsed.includeOnlyRebases p) rs
    /\ Subgraph.Ledger.totalRewards ledger = Subgraph.State.totalRewards st.
Proof.
  intros Hp Hmap. unfold Subgraph.getRewardsFromSubgraph.
  rewrite Hp. simpl.
  destruct (Subgraph.baseValues service p) as [[shares bal] rate].
  rewrite Hmap. simpl.
  eexists. split; [reflexivity|]. split; reflexivity.
Qed.

Lemma subgraph_run_full (props : Props.t) (p : Parsed.t)
  (rs : list (Reward.t ShareRate Subgraph.Event)) (st : Subgraph.State.t) :
  parseProps core props = Ok p ->
  Subgraph.mapEvents core service p = Ok (rs, st) ->
  exists full,
    Subgraph.getRewardsFromSubgraph core service (withFlags true true props)
    = Ok full
    /\ Subgraph.Ledger.rewards full = rs
    /\ Subgraph.Ledger.totalRewards full = Subgraph.State.totalRewards st.
Proof.
  intros Hp Hmap.
  destruct (@subgraph_run_intro (withFlags true true props)
              (setFlags true true p) rs st) as (full & Hfull & Hrs & Htot).
  - rewrite parseProps_withFlags, Hp. reflexivity.
  - rewrite subgraph_mapEvents_setFlags. exact Hmap.
  - exists full. repeat split; assumption.
Qed.

End SubgraphShape.

(** ** One step of the chain fold *)

Section ChainStep.
Context `{imports : Imports}.
Variables (address withdrawalQueueAddress : Address).

Local Abbreviation step := (Chain.callback address withdrawalQueueAddress).
Local Abbreviation typeOf :=
  (chainTransferType address withdrawalQueueAddress).

Lemma chainTransferType_not_rebase (from to : Address) :
  typeOf from to <> rebase.
Proof.
  unfold chainTransferType.
  destruct (String.eqb to address), (String.eqb from zeroAddress),
    (String.eqb to withdrawalQueueAddress); discriminate.
Qed.

Lemma chain_step_transfer (e : Chain.Event.t) (from to : Address) (v : Z)
  (st : Chain.State.t ShareRate) :
  Chain.Event.args e = Chain.TransferShares from to v ->
  let changeShares := if String.eqb to address then v else - v in
  let balanceShares := Chain.State.prevSharesBalance st + changeShares in
  step e st
  = Ok ({| Reward.type := typeOf from to;
           Reward.balanceShares := balanceShares;
           Reward.changeShares := changeShares;
           Reward.change := Chain.getCurrentStethFromShares st changeShares;
           Reward.balance := Chain.getCurrentStethFromShares st balanceShares;
           Reward.shareRate := Chain.State.shareRate st;
           Reward.originalEvent := e |},
        Chain.State.set_prevSharesBalance balanceShares st).
Proof.
  intros Hargs. unfold Chain.callback, chainTransferType. rewrite Hargs.
  unfold bind, get, put, ret.
  destruct (String.eqb to address); simpl; reflexivity.
Qed.

Lemma chain_step_rebase (e : Chain.Event.t) (postTotalEther postTotalShares : Z)
  (st : Chain.State.t ShareRate) :
  Chain.Event.args e = Chain.TokenRebased postTotalEther postTotalShares ->
  let shares := Chain.State.prevSharesBalance st in
  let oldBalance := Chain.getCurrentStethFromShares st shares in
  let newBalance :=
    sharesToSteth shares postTotalEther postTotalShares PRECISION in
  let rate := calcShareRate postTotalEther postTotalShares PRECISION in
  step e st
  = Ok ({| Reward.type := rebase;
           Reward.balanceShares := shares;
           Reward.changeShares := 0;
           Reward.change := newBalance - oldBalance;
           Reward.balance := newBalance;
           Reward.shareRate := rate;
           Reward.originalEvent := e |},
        Chain.State.mk postTotalEther postTotalShares
          (Chain.State.totalRewards st + (newBalance - oldBalance)) rate
          shares).
Proof.
  intros Hargs. unfold Chain.callback. rewrite Hargs. reflexivity.
Qed.

Lemma chain_step_other (e : Chain.Event.t) (name : string)
  (st : Chain.State.t ShareRate) :
  Chain.Event.args e = Chain.OtherEvent name ->
  step e st = Err (InvariantFailed "Impossible event").
Proof.
  intros Hargs. unfold Chain.callback. rewrite Hargs. reflexivity.
Qed.

(** What a successful step tells about its record and the state it leaves. *)
Lemma chain_step_inv (e : Chain.Event.t) (st st' : Chain.State.t ShareRate)
  (r : Reward.t ShareRate Chain.Event.t) :
  step e st = Ok (r, st') ->
  Reward.originalEvent r = e
  /\ Reward.balanceShares r
     = Chain.State.prevSharesBalance st + Reward.changeShares r
  /\ Chain.State.prevSharesBalance st' = Reward.balanceShares r
  /\ (Reward.type r = rebase -> Reward.changeShares r = 0)
  /\ Chain.State.totalRewards st'
     = Chain.State.totalRewards st
       + (if isRebase r then Reward.change r else 0).
Proof.
  destruct (Chain.Event.args e) as [from to v|pe ps|name] eqn:Hargs.
  - erewrite chain_step_transfer by exact Hargs. intros Heq.
    injection Heq as <- <-. unfold isRebase. simpl.
    pose proof (chainTransferType_not_rebase from to) as Hne.
    destruct (typeOf from to); simpl;
      repeat split; try lia; try congruence.
  - erewrite chain_step_rebase by exact Hargs. intros Heq.
    injection Heq as <- <-. unfold isRebase. simpl.
    repeat split; lia.
  - erewrite chain_step_other by exact Hargs. discriminate.
Qed.

End ChainStep.

(** ** One step of the subgraph fold *)

Section SubgraphStep.
Context `{imports : Imports}.
Variables (address withdrawalQueueAddress : Address).

Local Abbreviation step := (Subgraph.callback address withdrawalQueueAddress).
Local Abbreviation typeOf :=
  (subgraphTransferType address withdrawalQueueAddress).

Lemma subgraphTransferType_not_rebase (from to : Address) :
  typeOf from to <> rebase.
Proof.
  unfold subgraphTransferType.
  destruct (addressEqual to address), (String.eqb from zeroAddress),
    (addressEqual to withdrawalQueueAddress); discriminate.
Qed.

Lemma subgraph_step_transfer (t : Subgraph.TransferEventEntity.t)
  (st : Subgraph.State.t) :
  let incoming := addressEqual (Subgraph.TransferEventEntity.to t) address in
  let balanceShares :=
    if incoming then Subgraph.TransferEventEntity.sharesAfterIncrease t
    else Subgraph.TransferEventEntity.sharesAfterDecrease t in
  let balance :=
    if incoming then Subgraph.TransferEventEntity.balanceAfterIncrease t
    else Subgraph.TransferEventEntity.balanceAfterDecrease t in
  step (Subgraph.Transfer t) st
  = Ok ({| Reward.type :=
             typeOf (Subgraph.TransferEventEntity.from t)
               (Subgraph.TransferEventEntity.to t);
           Reward.balanceShares := balanceShares;
           Reward.changeShares :=
             if incoming then Subgraph.TransferEventEntity.shares t
             else - Subgraph.TransferEventEntity.shares t;
           Reward.change :=
             if incoming then Subgraph.TransferEventEntity.value t
             else - Subgraph.TransferEventEntity.value t;
           Reward.balance := balance;
           Reward.shareRate :=
             calcShareRate (Subgraph.TransferEventEntity.totalPooledEther t)
               (Subgraph.TransferEventEntity.totalShares t) PRECISION;
           Reward.originalEvent := Subgraph.Transfer t |},
        Subgraph.State.mk balanceShares balance
          (Subgraph.State.totalRewards st)).
Proof.
  unfold Subgraph.callback, subgraphTransferType, bind, get, put, ret.
  destruct (addressEqual (Subgraph.TransferEventEntity.to t) address);
    simpl; reflexivity.
Qed.

Lemma subgraph_step_rebase (t : Subgraph.TotalRewardEntity.t)
  (st : Subgraph.State.t) :
  let newBalance :=
    sharesToSteth (Subgraph.State.prevBalanceShares st)
      (Subgraph.TotalRewardEntity.totalPooledEtherAfter t)
      (Subgraph.TotalRewardEntity.totalSharesAfter t) PRECISION in
  let change := newBalance - Subgraph.State.prevBalance st in
  step (Subgraph.TotalReward t) st
  = Ok ({| Reward.type := rebase;
           Reward.balanceShares := Subgraph.State.prevBalanceShares st;
           Reward.changeShares := 0;
           Reward.change := change;
           Reward.balance := newBalance;
           Reward.shareRate :=
             calcShareRate (Subgraph.TotalRewardEntity.totalPooledEtherAfter t)
               (Subgraph.TotalRewardEntity.totalSharesAfter t) PRECISION;
           Reward.originalEvent := Subgraph.TotalReward t |},
        Subgraph.State.mk (Subgraph.State.prevBalanceShares st) newBalance
          (Subgraph.State.totalRewards st + change)).
Proof. reflexivity. Qed.

Lemma subgraph_step_inv (e : Subgraph.Event) (st st' : Subgraph.State.t)
  (r : Reward.t ShareRate Subgraph.Event) :
  step e st = Ok (r, st') ->
  Reward.originalEvent r = e
  /\ Subgraph.State.prevBalanceShares st' = Reward.balanceShares r
  /\ (Reward.type r = rebase ->
      Reward.changeShares r = 0
      /\ Reward.balanceShares r = Subgraph.State.prevBalanceShares st)
  /\ Subgraph.State.totalRewards st'
     = Subgraph.State.totalRewards st
       + (if isRebase r then Reward.change r else 0).
Proof.
  destruct e as [t|t|b i].
  - rewrite subgraph_step_transfer. intros Heq.
    injection Heq as <- <-. unfold isRebase. simpl.
    pose proof (subgraphTransferType_not_rebase
                  (Subgraph.TransferEventEntity.from t)
                  (Subgraph.TransferEventEntity.to t)) as Hne.
    destruct (typeOf _ _); simpl;
      repeat split; try lia; try congruence.
  - rewrite subgraph_step_rebase. intros Heq.
    injection Heq as <- <-. unfold isRebase. simpl.
    repeat split; lia.
  - discriminate.
Qed.

End SubgraphStep.

(** ** The reward total *)

Section Totals.
Context `{imports : Imports}.

Lemma chain_fold_totalRewards (address wq : Address) :
  forall evs st rs st',
    mapM (Chain.callback address wq) evs st = Ok (rs, st') ->
    Chain.State.totalRewards st'
    = Chain.State.totalRewards st
      + sumZ (map (@Reward.change _ _) (filter isRebase rs)).
Proof.
  apply (mapM_run_ind (Chain.callback address wq)
           (fun st _ rs st' =>
              Chain.State.totalRewards st'
              = Chain.State.totalRewards st
                + sumZ (map (@Reward.change _ _) (filter isRebase rs)))).
  - intros st. simpl. lia.
  - intros e evs st r s1 rs st' Hstep _ IH.
    apply chain_step_inv in Hstep.
    destruct Hstep as (_ & _ & _ & _ & Htot).
    simpl. destruct (isRebase r); simpl; lia.
Qed.

Lemma subgraph_fold_totalRewards (address wq : Address) :
  forall evs st rs st',
    mapM (Subgraph.callback address wq) evs st = Ok (rs, st') ->
    Subgraph.State.totalRewards st'
    = Subgraph.State.totalRewards st
      + sumZ (map (@Reward.change _ _) (filter isRebase rs)).
Proof.
  apply (mapM_run_ind (Subgraph.callback address wq)
           (fun st _ rs st' =>
              Subgraph.State.totalRewards st'
              = Subgraph.State.totalRewards st
                + sumZ (map (@Reward.change _ _) (filter isRebase rs)))).
  - intros st. simpl. lia.
  - intros e evs st r s1 rs st' Hstep _ IH.
    apply subgraph_step_inv in Hstep.
    destruct Hstep as (_ & _ & _ & Htot).
    simpl. destruct (isRebase r); simpl; lia.
Qed.

Lemma chain_mapEvents_totalRewards (core : Core.t)
  (contract : Chain.Contract.t) (p : Parsed.t) rs st :
  Chain.mapEvents core contract p = Ok (rs, st) ->
  Chain.State.totalRewards st
  = sumZ (map (@Reward.change _ _) (filter isRebase rs)).
Proof.
  intros Hmap. apply chain_fold_totalRewards in Hmap. exact Hmap.
Qed.

Lemma subgraph_mapEvents_totalRewards (core : Core.t)
  (service : Subgraph.Service.t) (p : Parsed.t) rs st :
  Subgraph.mapEvents core service p = Ok (rs, st) ->
  Subgraph.State.totalRewards st
  = sumZ (map (@Reward.change _ _) (filter isRebase rs)).
Proof.
  intros Hmap. apply subgraph_fold_totalRewards in Hmap.
  rewrite Hmap. unfold Subgraph.initialState.
  destruct (Subgraph.baseValues service p) as [[shares bal] rate].
  reflexivity.
Qed.

(** C1.  Whatever post-filters a query asks for, on the chain path and on
    the subgraph path, the [totalRewards] it returns is the sum of [change]
    over the rebase records of the unfiltered sequence, that is, of the
    records the same query returns when both flags are set and no filter
    runs; and the same query under any other setting of the two flags
    returns the same [totalRewards]. *)
Theorem totalRewards_sums_unfiltered_rebases (core : Core.t)
  (contract : Chain.Contract.t) (service : Subgraph.Service.t)
  (props : Props.t) :
  (forall ledger,
      Chain.getRewardsFromChain core contract props = Ok ledger ->
      exists full,
        Chain.getRewardsFromChain core contract (withFlags true true props)
        = Ok full
        /\ Chain.Ledger.totalRewards ledger
           = sumZ (map (@Reward.change _ _)
                     (filter isRebase (Chain.Ledger.rewards full)))
        /\ (forall z o other,
               Chain.getRewardsFromChain core contract (withFlags z o props)
               = Ok other ->
               Chain.Ledger.totalRewards other
               = Chain.Ledger.totalRewards ledger))
  /\ (forall ledger,
      Subgraph.getRewardsFromSubgraph core service props = Ok ledger ->
      exists full,
        Subgraph.getRewardsFromSubgraph core service
          (withFlags true true props) = Ok full
        /\ Subgraph.Ledger.totalRewards ledger
           = sumZ (map (@Reward.change _ _)
                     (filter isRebase (Subgraph.Ledger.rewards full)))
        /\ (forall z o other,
               Subgraph.getRewardsFromSubgraph core service
                 (withFlags z o props) = Ok other ->
               Subgraph.Ledger.totalRewards other
               = Subgraph.Ledger.totalRewards ledger)).
Proof.
  split; intros ledger Hrun.
  - apply chain_run_inv in Hrun.
    destruct Hrun as (p & rs & st & Hp & Hmap & ->).
    destruct (chain_run_full _ _ _ Hp Hmap)
      as (full & Hfull & Hrs & Htot).
    exists full. simpl. rewrite Hrs.
    split; [exact Hfull|]. split.
    + eapply chain_mapEvents_totalRewards; eassumption.
    + intros z o other Hother. apply chain_run_inv in Hother.
      destruct Hother as (p' & rs' & st' & Hp' & Hmap' & ->). simpl.
      rewrite parseProps_withFlags, Hp in Hp'. injection Hp' as <-.
      rewrite chain_mapEvents_setFlags, Hmap in Hmap'.
      injection Hmap' as _ <-. reflexivity.
  - apply subgraph_run_inv in Hrun.
    destruct Hrun as (p & rs & st & Hp & Hmap & _ & Ht & _).
    destruct (subgraph_run_full _ _ _ Hp Hmap) as (full & Hfull & Hrs & Htot).
    exists full. rewrite Hrs, Ht.
    split; [exact Hfull|]. split.
    + eapply subgraph_mapEvents_totalRewards; eassumption.
    + intros z o other Hother. apply subgraph_run_inv in Hother.
      destruct Hother as (p' & rs' & st' & Hp' & Hmap' & _ & Ht' & _).
      rewrite parseProps_withFlags, Hp in Hp'. injection Hp' as <-.
      rewrite subgraph_mapEvents_setFlags, Hmap in Hmap'.
      injection Hmap' as _ <-. exact Ht'.
Qed.

End Totals.

Lemma totalRewards_sums_unfiltered_rebases_witness :
  exists ledger full,
    Chain.getRewardsFromChain (imports := specImports) (Sample.core 100)
      Sample.scenarioNode (Sample.range 15 40 None None) = Ok ledger
    /\ Chain.getRewardsFromChain (imports := specImports) (Sample.core 100)
         Sample.scenarioNode
         (withFlags true true (Sample.range 15 40 None None)) = Ok full
    /\ Chain.Ledger.totalRewards ledger
       = sumZ (map (@Reward.change _ _)
                 (filter isRebase (Chain.Ledger.rewards full))).
Proof.
  destruct (Chain.getRewardsFromChain (imports := specImports)
              (Sample.core 100) Sample.scenarioNode
              (Sample.range 15 40 None None)) as [ledger|e] eqn:Hrun.
  - exists ledger.
    destruct (proj1 (totalRewards_sums_unfiltered_rebases
                       (imports := specImports) (Sample.core 100)
                       Sample.scenarioNode (Sample.scenarioIndex 25)
                       (Sample.range 15 40 None None)) ledger Hrun)
      as (full & Hfull & Hsum & _).
    exists full. split; [reflexivity|]. split; assumption.
  - vm_compute in Hrun. discriminate Hrun.
Defined.

(** ** The post-filters *)

Lemma parseProps_fields (core : Core.t) (props : Props.t) (p : Parsed.t) :
  parseProps core props = Ok p ->
  Parsed.address p = Props.address props
  /\ Parsed.includeZeroRebases p
     = match Props.includeZeroRebases props with Some b => b | None => false end
  /\ Parsed.includeOnlyRebases p
     = match Props.includeOnlyRebases props with Some b => b | None => false end
  /\ Parsed.step p
     = match Props.step props with Some s => s | None => DEFAULT_STEP end
  /\ 0 < Parsed.step p
  /\ Parsed.fromBlock p <= Parsed.toBlock p.
Proof.
  unfold parseProps. intros Hp.
  apply rbind_Ok_inv in Hp. destruct Hp as (toBlock & _ & Hp).
  apply rbind_Ok_inv in Hp. destruct Hp as (fromBlock & _ & Hp).
  apply rbind_Ok_inv in Hp. destruct Hp as ([] & Hrange & Hp).
  apply rbind_Ok_inv in Hp. destruct Hp as ([] & Hstep & Hp).
  injection Hp as <-. simpl.
  unfold invariantArgument in Hrange, Hstep.
  destruct (toBlock >=? fromBlock) eqn:Hge; [|discriminate Hrange].
  destruct (_ >? 0) eqn:Hgt in Hstep; [|discriminate Hstep].
  repeat split; lia.
Qed.

Lemma filter_transfers_dropZeroRebases (R E : Type) (z : bool)
  (rs : list (Reward.t R E)) :
  filter isTransferDerived (dropZeroRebases z rs)
  = filter isTransferDerived rs.
Proof.
  destruct z; simpl; [reflexivity|].
  induction rs as [|r rs IH]; simpl; [reflexivity|].
  destruct (notZeroRebase r) eqn:Hz; simpl.
  - rewrite IH. reflexivity.
  - apply notZeroRebase_false in Hz. destruct Hz as [Ht _].
    apply isRebase_true in Ht. unfold isTransferDerived at 2.
    rewrite Ht. simpl. exact IH.
Qed.

Lemma chain_postFilter_spec `{imports : Imports} (z o : bool)
  (rs : list (Reward.t ShareRate Chain.Event.t)) :
  Chain.postFilter z o rs
  = if o then dropZeroRebases z rs
    else filter isRebase (dropZeroRebases z rs).
Proof.
  unfold Chain.postFilter, dropZeroRebases.
  destruct z, o; simpl; try reflexivity.
  apply filter_filter_comm.
Qed.

Lemma subgraph_postFilter_spec `{imports : Imports} (z o : bool)
  (rs : list (Reward.t ShareRate Subgraph.Event)) :
  Subgraph.postFilter z o rs
  = if o then dropZeroRebases z rs
    else filter isRebase (dropZeroRebases z rs).
Proof.
  unfold Subgraph.postFilter, dropZeroRebases.
  destruct z, o; reflexivity.
Qed.

Lemma Forall_isRebase_type (R E : Type) (rs : list (Reward.t R E)) :
  Forall (fun r => Reward.type r = rebase) (filter isRebase rs).
Proof.
  eapply Forall_impl; [|apply filter_Forall_true].
  intros r Hr. apply isRebase_true. exact Hr.
Qed.

(** C2.  On both paths, for a query resolved to [p], the returned records
    are these of the records [events.map] made: when [includeOnlyRebases] is
    false (which is also what an absent flag resolves to) every returned
    record is of type [rebase], the returned sequence being the rebase
    records of what the [includeZeroRebases] filter leaves; when it is true
    this filter removes nothing: the returned sequence is what the
    [includeZeroRebases] filter alone leaves of the mapped records, so every
    transfer-derived record is retained, in order, and it is the full mixed
    sequence when [includeZeroRebases] is true as well. *)
Theorem includeOnlyRebases_keeps_or_drops_transfers `{imports : Imports}
  (core : Core.t) (contract : Chain.Contract.t) (service : Subgraph.Service.t)
  (props : Props.t) (p : Parsed.t) :
  parseProps core props = Ok p ->
  (Props.includeOnlyRebases props = None -> Parsed.includeOnlyRebases p = false)
  /\ (forall b, Props.includeOnlyRebases props = Some b ->
                Parsed.includeOnlyRebases p = b)
  /\ (forall ledger,
        Chain.getRewardsFromChain core contract props = Ok ledger ->
        exists rs st,
          Chain.mapEvents core contract p = Ok (rs, st)
          /\ (Parsed.includeOnlyRebases p = false ->
              Forall (fun r => Reward.type r = rebase)
                (Chain.Ledger.rewards ledger)
              /\ Chain.Ledger.rewards ledger
                 = filter isRebase
                     (dropZeroRebases (Parsed.includeZeroRebases p) rs))
          /\ (Parsed.includeOnlyRebases p = true ->
              Chain.Ledger.rewards ledger
              = dropZeroRebases (Parsed.includeZeroRebases p) rs
              /\ filter isTransferDerived (Chain.Ledger.rewards ledger)
                 = filter isTransferDerived rs
              /\ (Parsed.includeZeroRebases p = true ->
                  Chain.Ledger.rewards ledger = rs)))
  /\ (forall ledger,
        Subgraph.getRewardsFromSubgraph core service props = Ok ledger ->
        exists rs st,
          Subgraph.mapEvents core service p = Ok (rs, st)
          /\ (Parsed.includeOnlyRebases p = false ->
              Forall (fun r => Reward.type r = rebase)
                (Subgraph.Ledger.rewards ledger)
              /\ Subgraph.Ledger.rewards ledger
                 = filter isRebase
                     (dropZeroRebases (Parsed.includeZeroRebases p) rs))
          /\ (Parsed.includeOnlyRebases p = true ->
              Subgraph.Ledger.rewards ledger
              = dropZeroRebases (Parsed.includeZeroRebases p) rs
              /\ filter isTransferDerived (Subgraph.Ledger.rewards ledger)
                 = filter isTransferDerived rs
              /\ (Parsed.includeZeroRebases p = true ->
                  Subgraph.Ledger.rewards ledger = rs))).
Proof.
  intros Hp.
  destruct (parseProps_fields _ _ Hp) as (_ & _ & Honly & _).
  split; [intros Hnone; rewrite Honly, Hnone; reflexivity|].
  split; [intros b Hsome; rewrite Honly, Hsome; reflexivity|].
  split; intros ledger Hrun.
  - apply chain_run_inv in Hrun.
    destruct Hrun as (p' & rs & st & Hp' & Hmap & ->).
    assert (p' = p) as -> by congruence.
    exists rs, st. split; [exact Hmap|]. simpl.
    rewrite chain_postFilter_spec.
    split; intros ->.
    + split; [apply Forall_isRebase_type | reflexivity].
    + split; [reflexivity|].
      split; [apply filter_transfers_dropZeroRebases|].
      intros ->. reflexivity.
  - apply subgraph_run_inv in Hrun.
    destruct Hrun as (p' & rs & st & Hp' & Hmap & Hrew & _).
    assert (p' = p) as -> by congruence.
    exists rs, st. split; [exact Hmap|].
    rewrite Hrew, subgraph_postFilter_spec.
    split; intros ->.
    + split; [apply Forall_isRebase_type | reflexivity].
    + split; [reflexivity|].
      split; [apply filter_transfers_dropZeroRebases|].
      intros ->. reflexivity.
Qed.

Lemma includeOnlyRebases_keeps_or_drops_transfers_witness :
  exists ledger rs st,
    Chain.getRewardsFromChain (imports := specImports) (Sample.core 100)
      Sample.scenarioNode (Sample.range 15 40 (Some true) (Some true))
    = Ok ledger
    /\ Chain.mapEvents (imports := specImports) (Sample.core 100)
         Sample.scenarioNode (Parsed.mk Sample.account 15 40 7 true true)
       = Ok (rs, st)
    /\ Chain.Ledger.rewards ledger = rs
    /\ map (@Reward.type _ _) (Chain.Ledger.rewards ledger) = [submit; rebase].
Proof.
  destruct (Chain.getRewardsFromChain (imports := specImports)
              (Sample.core 100) Sample.scenarioNode
              (Sample.range 15 40 (Some true) (Some true)))
    as [ledger|e] eqn:Hrun; [|vm_compute in Hrun; discriminate Hrun].
  destruct (includeOnlyRebases_keeps_or_drops_transfers
              (imports := specImports)
              (Sample.core 100) Sample.scenarioNode (Sample.scenarioIndex 25)
              (Sample.range 15 40 (Some true) (Some true))
              (p := Parsed.mk Sample.account 15 40 7 true true) eq_refl)
    as (_ & _ & Hchain & _).
  destruct (Hchain ledger Hrun) as (rs & st & Hmap & _ & Hon).
  destruct (Hon eq_refl) as (_ & _ & Hfull).
  exists ledger, rs, st.
  split; [reflexivity|]. split; [exact Hmap|].
  split; [exact (Hfull eq_refl)|].
  vm_compute in Hrun. injection Hrun as <-. reflexivity.
Defined.

(** With [includeOnlyRebases] true and [includeZeroRebases] left out, the
    full mixed sequence is not retained: of the three records mapped from a
    deposit, a rebase and a second rebase that changes nothing, the ledger
    has two. *)
Lemma includeOnlyRebases_alone_does_not_keep_the_full_sequence :
  exists ledger rs st,
    Chain.getRewardsFromChain (imports := specImports) (Sample.core 100)
      (Sample.node 0 1000 10000
         (Sample.tokenRebased 1100 10000 31 0 :: Sample.scenarioLog))
      (Sample.range 15 40 None (Some true)) = Ok ledger
    /\ Chain.mapEvents (imports := specImports) (Sample.core 100)
         (Sample.node 0 1000 10000
            (Sample.tokenRebased 1100 10000 31 0 :: Sample.scenarioLog))
         (Parsed.mk Sample.account 15 40 7 false true)
       = Ok (rs, st)
    /\ map (fun r => (Reward.type r, Reward.change r)) rs
       = [(submit, 10); (rebase, 1); (rebase, 0)]
    /\ map (fun r => (Reward.type r, Reward.change r))
         (Chain.Ledger.rewards ledger)
       = [(submit, 10); (rebase, 1)]
    /\ Chain.Ledger.rewards ledger <> rs.
Proof.
  eexists. eexists. eexists.
  split; [vm_compute; reflexivity|].
  split; [vm_compute; reflexivity|].
  split; [reflexivity|]. split; [reflexivity|].
  intros Heq. apply (f_equal (@List.length _)) in Heq. discriminate Heq.
Qed.

(** ** Share balances along the records *)

Lemma Forall_filter_keep (A : Type) (P : A -> Prop) (f : A -> bool)
  (l : list A) :
  Forall P l -> Forall P (filter f l).
Proof.
  induction 1 as [|x l Hx Hl IH]; simpl; [constructor|].
  destruct (f x); [constructor|]; assumption.
Qed.

Lemma Forall_dropZeroRebases (R E : Type) (P : Reward.t R E -> Prop)
  (z : bool) (rs : list (Reward.t R E)) :
  Forall P rs -> Forall P (dropZeroRebases z rs).
Proof.
  destruct z; simpl; [trivial | apply Forall_filter_keep].
Qed.

(** Dropping records that satisfy [P] and move no shares keeps a chain. *)
Lemma chained_filter (R E : Type) (P : Reward.t R E -> Prop)
  (keep : Reward.t R E -> bool) :
  forall (rs : list (Reward.t R E)) (prev : Z),
    chained P prev rs ->
    Forall (fun r => keep r = false -> P r /\ Reward.changeShares r = 0) rs ->
    chained P prev (filter keep rs).
Proof.
  induction rs as [|r rs IH]; intros prev Hchain Hdrop; simpl; [exact I|].
  destruct Hchain as [Hr Hrest]. inversion Hdrop as [|? ? Hd Hds]; subst.
  destruct (keep r) eqn:Hk; simpl.
  - split; [exact Hr | apply IH; assumption].
  - destruct (Hd eq_refl) as [HP Hzero].
    apply IH; [|assumption].
    replace prev with (Reward.balanceShares r); [exact Hrest|].
    rewrite (Hr HP), Hzero. lia.
Qed.

Lemma chained_dropZeroRebases (R E : Type) (P : Reward.t R E -> Prop)
  (z : bool) (rs : list (Reward.t R E)) (prev : Z) :
  (forall r, Reward.type r = rebase -> P r) ->
  Forall (fun r => Reward.type r = rebase -> Reward.changeShares r = 0) rs ->
  chained P prev rs ->
  chained P prev (dropZeroRebases z rs).
Proof.
  intros HP Hzero Hchain. destruct z; simpl; [exact Hchain|].
  apply chained_filter; [exact Hchain|].
  eapply Forall_impl; [|exact Hzero].
  intros r Hr Hkeep. apply notZeroRebase_false in Hkeep.
  destruct Hkeep as [Ht _]. split; [apply HP | apply Hr]; exact Ht.
Qed.

Section SharesChain.
Context `{imports : Imports}.

Lemma chain_fold_chained (address wq : Address) :
  forall evs st rs st',
    mapM (Chain.callback address wq) evs st = Ok (rs, st') ->
    chained (fun _ => True) (Chain.State.prevSharesBalance st) rs
    /\ Forall (fun r => Reward.type r = rebase -> Reward.changeShares r = 0)
         rs.
Proof.
  apply (mapM_run_ind (Chain.callback address wq)
           (fun st _ rs _ =>
              chained (fun _ => True) (Chain.State.prevSharesBalance st) rs
              /\ Forall (fun r => Reward.type r = rebase ->
                                  Reward.changeShares r = 0) rs)).
  - intros st. split; [exact I | constructor].
  - intros e evs st r s1 rs st' Hstep _ [IHc IHz].
    apply chain_step_inv in Hstep.
    destruct Hstep as (_ & Hbal & Hprev & Hzero & _).
    split.
    + simpl. split; [intros _; exact Hbal|]. rewrite <- Hprev. exact IHc.
    + constructor; assumption.
Qed.

Lemma subgraph_fold_chained (address wq : Address) :
  forall evs st rs st',
    mapM (Subgraph.callback address wq) evs st = Ok (rs, st') ->
    chained (fun r => Reward.type r = rebase)
      (Subgraph.State.prevBalanceShares st) rs
    /\ Forall (fun r => Reward.type r = rebase -> Reward.changeShares r = 0)
         rs.
Proof.
  apply (mapM_run_ind (Subgraph.callback address wq)
           (fun st _ rs _ =>
              chained (fun r => Reward.type r = rebase)
                (Subgraph.State.prevBalanceShares st) rs
              /\ Forall (fun r => Reward.type r = rebase ->
                                  Reward.changeShares r = 0) rs)).
  - intros st. split; [exact I | constructor].
  - intros e evs st r s1 rs st' Hstep _ [IHc IHz].
    apply subgraph_step_inv in Hstep.
    destruct Hstep as (_ & Hprev & Hreb & _).
    split.
    + simpl. split.
      * intros Ht. destruct (Hreb Ht) as [Hzero Hsame]. lia.
      * rewrite <- Hprev. exact IHc.
    + constructor; [|assumption]. intros Ht. apply (Hreb Ht).
Qed.

(** C3, as amended.  On both paths a rebase record has [changeShares = 0]
    whatever the flags.  When [includeOnlyRebases] is true (so that only
    zero-change rebase records can be missing), the returned sequence of the
    chain path is chained: each record's [balanceShares] is the preceding
    returned record's [balanceShares] plus its own [changeShares], starting
    from [baseBalanceShares]; on the subgraph path the same holds at every
    rebase record, a transfer record carrying the shares the index stored. *)
Theorem balanceShares_chained_when_transfers_kept (core : Core.t)
  (contract : Chain.Contract.t) (service : Subgraph.Service.t)
  (props : Props.t) (p : Parsed.t) :
  parseProps core props = Ok p ->
  (forall ledger,
      Chain.getRewardsFromChain core contract props = Ok ledger ->
      Forall (fun r => Reward.type r = rebase -> Reward.changeShares r = 0)
        (Chain.Ledger.rewards ledger)
      /\ (Parsed.includeOnlyRebases p = true ->
          chained (fun _ => True) (Chain.Ledger.baseBalanceShares ledger)
            (Chain.Ledger.rewards ledger)))
  /\ (forall ledger,
      Subgraph.getRewardsFromSubgraph core service props = Ok ledger ->
      Forall (fun r => Reward.type r = rebase -> Reward.changeShares r = 0)
        (Subgraph.Ledger.rewards ledger)
      /\ (Parsed.includeOnlyRebases p = true ->
          chained (fun r => Reward.type r = rebase)
            (Subgraph.Ledger.baseBalanceShares ledger)
            (Subgraph.Ledger.rewards ledger))).
Proof.
  intros Hp. split; intros ledger Hrun.
  - apply chain_run_inv in Hrun.
    destruct Hrun as (p' & rs & st & Hp' & Hmap & ->).
    assert (p' = p) as -> by congruence.
    apply chain_fold_chained in Hmap. destruct Hmap as [Hchain Hzero].
    simpl. rewrite chain_postFilter_spec. split.
    + destruct (Parsed.includeOnlyRebases p);
        [|apply Forall_filter_keep]; apply Forall_dropZeroRebases; exact Hzero.
    + intros ->. apply chained_dropZeroRebases; auto.
  - apply subgraph_run_inv in Hrun.
    destruct Hrun as (p' & rs & st & Hp' & Hmap & Hrew & _ & Hbase & _).
    assert (p' = p) as -> by congruence.
    apply subgraph_fold_chained in Hmap. destruct Hmap as [Hchain Hzero].
    rewrite Hrew, Hbase, subgraph_postFilter_spec. split.
    + destruct (Parsed.includeOnlyRebases p);
        [|apply Forall_filter_keep]; apply Forall_dropZeroRebases; exact Hzero.
    + intros ->. apply chained_dropZeroRebases; auto.
Qed.

End SharesChain.

Lemma balanceShares_chained_when_transfers_kept_witness :
  exists ledger,
    Chain.getRewardsFromChain (imports := specImports) (Sample.core 100)
      Sample.scenarioNode (Sample.range 15 40 None (Some true)) = Ok ledger
    /\ chained (fun _ => True) (Chain.Ledger.baseBalanceShares ledger)
         (Chain.Ledger.rewards ledger).
Proof.
  destruct (parseProps (Sample.core 100)
              (Sample.range 15 40 None (Some true)))
    as [p|e] eqn:Hp; [|vm_compute in Hp; discriminate Hp].
  destruct (Chain.getRewardsFromChain (imports := specImports)
              (Sample.core 100) Sample.scenarioNode
              (Sample.range 15 40 None (Some true))) as [ledger|e] eqn:Hrun;
    [|vm_compute in Hrun; discriminate Hrun].
  exists ledger. split; [reflexivity|].
  destruct (balanceShares_chained_when_transfers_kept (imports := specImports)
              (Sample.core 100) Sample.scenarioNode (Sample.scenarioIndex 25)
              (Sample.range 15 40 None (Some true)) Hp) as [Hchain _].
  apply (Hchain ledger Hrun).
  vm_compute in Hp. injection Hp as <-. reflexivity.
Defined.

(** C3 as stated fails on the returned sequence of a default query: the
    submit of 100 shares is dropped by the [includeOnlyRebases] filter and the
    one rebase record left has [balanceShares = 100] and [changeShares = 0]
    over [baseBalanceShares = 0]. *)
Lemma balanceShares_chain_broken_by_default_filter :
  exists ledger,
    Chain.getRewardsFromChain (imports := specImports) (Sample.core 100)
      Sample.scenarioNode (Sample.range 15 40 None None) = Ok ledger
    /\ map (@Reward.balanceShares _ _) (Chain.Ledger.rewards ledger) = [100]
    /\ map (@Reward.changeShares _ _) (Chain.Ledger.rewards ledger) = [0]
    /\ Chain.Ledger.baseBalanceShares ledger = 0
    /\ ~ chained (fun _ => True) (Chain.Ledger.baseBalanceShares ledger)
           (Chain.Ledger.rewards ledger).
Proof.
  eexists. split; [vm_compute; reflexivity|].
  repeat split. simpl. intros [Hfirst _]. specialize (Hfirst I).
  discriminate Hfirst.
Qed.

(** ** Streams of rebases only *)

Lemma quot_sum_bounds (a b t : Z) :
  0 <= a -> 0 <= b -> 0 < t ->
  Z.quot b t <= Z.quot (a + b) t - Z.quot a t <= Z.quot b t + 1.
Proof.
  intros Ha Hb Ht.
  rewrite !Z.quot_div_nonneg by lia.
  pose proof (Z.div_mod a t ltac:(lia)) as Ea.
  pose proof (Z.div_mod b t ltac:(lia)) as Eb.
  pose proof (Z.div_mod (a + b) t ltac:(lia)) as Eab.
  pose proof (Z.mod_pos_bound a t Ht) as Ba.
  pose proof (Z.mod_pos_bound b t Ht) as Bb.
  pose proof (Z.mod_pos_bound (a + b) t Ht) as Bab.
  nia.
Qed.

Lemma sharesToAsset_delta_bounds (shares ether delta totalShares : Z) :
  0 <= shares -> 0 <= ether -> 0 <= delta -> 0 < totalShares ->
  sharesToAsset shares delta totalShares PRECISION
  <= sharesToAsset shares (ether + delta) totalShares PRECISION
     - sharesToAsset shares ether totalShares PRECISION
  <= sharesToAsset shares delta totalShares PRECISION + 1.
Proof.
  intros Hs He Hd Ht. unfold sharesToAsset.
  destruct (totalShares >? 0) eqn:Hpos; [|lia].
  replace (shares * (ether + delta)) with (shares * ether + shares * delta)
    by lia.
  apply quot_sum_bounds; nia.
Qed.

Lemma balanceDifferences_bounds (shares totalShares : Z) :
  0 <= shares -> 0 < totalShares ->
  forall deltas ether,
    0 <= ether -> Forall (fun d => 0 <= d) deltas ->
    Forall2 (fun d c =>
               sharesToAsset shares d totalShares PRECISION <= c
               <= sharesToAsset shares d totalShares PRECISION + 1)
      deltas (balanceDifferences shares totalShares ether deltas).
Proof.
  intros Hs Ht. induction deltas as [|d ds IH]; intros ether He Hds; simpl.
  - constructor.
  - inversion Hds as [|? ? Hd Hds']; subst. constructor.
    + apply sharesToAsset_delta_bounds; assumption.
    + apply IH; [lia | assumption].
Qed.

Section RebaseStreams.
Context `{imports : Imports}.
Hypothesis sharesToSteth_spec :
  forall shares totalEther totalShares precision,
    sharesToSteth shares totalEther totalShares precision
    = sharesToAsset shares totalEther totalShares precision.

Lemma chain_fold_syntheticRebases (address wq : Address) :
  forall deltas st block,
    exists rs st',
      mapM (Chain.callback address wq)
        (syntheticRebases (Chain.State.currentTotalShares st)
           (Chain.State.currentTotalEther st) deltas block) st
      = Ok (rs, st')
      /\ Forall (fun r => Reward.type r = rebase) rs
      /\ map (@Reward.change _ _) rs
         = balanceDifferences (Chain.State.prevSharesBalance st)
             (Chain.State.currentTotalShares st)
             (Chain.State.currentTotalEther st) deltas
      /\ Chain.State.totalRewards st'
         = Chain.State.totalRewards st + sumZ (map (@Reward.change _ _) rs).
Proof.
  induction deltas as [|d ds IH]; intros st block.
  - exists [], st. simpl. repeat split; [constructor | lia].
  - simpl syntheticRebases.
    set (e := Chain.Event.mk _ block 0).
    pose proof (@chain_step_rebase _ address wq e _ _ st eq_refl) as Hstep.
    simpl in Hstep.
    match type of Hstep with _ = Ok (?r, ?s1) =>
      destruct (IH s1 (block + 1)) as (rs & st' & Hrun & Hty & Hch & Htot)
    end.
    simpl in Hrun, Hch, Htot.
    eexists. exists st'. split.
    + eapply mapM_cons_intro; [exact Hstep | exact Hrun].
    + split; [constructor; [reflexivity | exact Hty]|].
      split.
      * simpl. rewrite Hch. unfold Chain.getCurrentStethFromShares.
        rewrite !sharesToSteth_spec. reflexivity.
      * simpl. rewrite Htot. lia.
Qed.

Lemma subgraph_fold_syntheticTotalRewards (address wq : Address)
  (totalShares : Z) :
  forall deltas ether st block,
    Subgraph.State.prevBalance st
    = sharesToAsset (Subgraph.State.prevBalanceShares st) ether totalShares
        PRECISION ->
    exists rs st',
      mapM (Subgraph.callback address wq)
        (syntheticTotalRewards totalShares ether deltas block) st
      = Ok (rs, st')
      /\ Forall (fun r => Reward.type r = rebase) rs
      /\ map (@Reward.change _ _) rs
         = balanceDifferences (Subgraph.State.prevBalanceShares st)
             totalShares ether deltas
      /\ Subgraph.State.totalRewards st'
         = Subgraph.State.totalRewards st
           + sumZ (map (@Reward.change _ _) rs).
Proof.
  induction deltas as [|d ds IH]; intros ether st block Hbal.
  - exists [], st. simpl. repeat split; [constructor | lia].
  - simpl syntheticTotalRewards.
    set (t := Subgraph.TotalRewardEntity.mk _ totalShares block 0).
    pose proof (@subgraph_step_rebase _ address wq t st) as Hstep.
    simpl in Hstep.
    match type of Hstep with _ = Ok (?r, ?s1) =>
      destruct (IH (ether + d) s1 (block + 1))
        as (rs & st' & Hrun & Hty & Hch & Htot)
    end.
    { simpl. apply sharesToSteth_spec. }
    simpl in Hrun, Hch, Htot.
    eexists. exists st'. split.
    + eapply mapM_cons_intro; [exact Hstep | exact Hrun].
    + split; [constructor; [reflexivity | exact Hty]|].
      split.
      * simpl. rewrite Hch, Hbal, sharesToSteth_spec. reflexivity.
      * simpl. rewrite Htot. lia.
Qed.

End RebaseStreams.

(** C4, as amended.  With the share arithmetic of the specification, a
    stream of [N] rebases and no transfer, each adding a known delta to the
    total ether under constant total shares, folds without error into [N]
    rebase records; the [change] of each is the converted balance after the
    rebase minus the converted balance before it (two truncating
    conversions, not one conversion of the delta); the changes add up to
    what the fold adds to [totalRewards]; and for non-negative shares, ether
    and deltas each change is the single conversion
    [shares * deltaEther / totalShares] or that plus one.  On the subgraph
    path this holds from a base balance that is the conversion of the base
    shares. *)
Theorem rebase_stream_changes_are_balance_differences `{imports : Imports}
  (address wq : Address) (deltas : list Z) (block : Z) :
  (forall shares totalEther totalShares precision,
      sharesToSteth shares totalEther totalShares precision
      = sharesToAsset shares totalEther totalShares precision) ->
  (forall st : Chain.State.t ShareRate,
      let shares := Chain.State.prevSharesBalance st in
      let totalShares := Chain.State.currentTotalShares st in
      let ether := Chain.State.currentTotalEther st in
      exists rs st',
        mapM (Chain.callback address wq)
          (syntheticRebases totalShares ether deltas block) st = Ok (rs, st')
        /\ Forall (fun r => Reward.type r = rebase) rs
        /\ map (@Reward.change _ _) rs
           = balanceDifferences shares totalShares ether deltas
        /\ Chain.State.totalRewards st'
           = Chain.State.totalRewards st + sumZ (map (@Reward.change _ _) rs)
        /\ (0 <= shares -> 0 < totalShares -> 0 <= ether ->
            Forall (fun d => 0 <= d) deltas ->
            Forall2 (fun d c =>
                       sharesToAsset shares d totalShares PRECISION <= c
                       <= sharesToAsset shares d totalShares PRECISION + 1)
              deltas (map (@Reward.change _ _) rs)))
  /\ (forall (st : Subgraph.State.t) (totalShares ether : Z),
      let shares := Subgraph.State.prevBalanceShares st in
      Subgraph.State.prevBalance st
      = sharesToAsset shares ether totalShares PRECISION ->
      exists rs st',
        mapM (Subgraph.callback address wq)
          (syntheticTotalRewards totalShares ether deltas block) st
        = Ok (rs, st')
        /\ Forall (fun r => Reward.type r = rebase) rs
        /\ map (@Reward.change _ _) rs
           = balanceDifferences shares totalShares ether deltas
        /\ Subgraph.State.totalRewards st'
           = Subgraph.State.totalRewards st
             + sumZ (map (@Reward.change _ _) rs)
        /\ (0 <= shares -> 0 < totalShares -> 0 <= ether ->
            Forall (fun d => 0 <= d) deltas ->
            Forall2 (fun d c =>
                       sharesToAsset shares d totalShares PRECISION <= c
                       <= sharesToAsset shares d totalShares PRECISION + 1)
              deltas (map (@Reward.change _ _) rs))).
Proof.
  intros Hspec. split.
  - intros st shares totalShares ether.
    destruct (chain_fold_syntheticRebases Hspec address wq deltas st block)
      as (rs & st' & Hrun & Hty & Hch & Htot).
    exists rs, st'. repeat split; try assumption.
    intros Hs Ht He Hds. rewrite Hch.
    apply balanceDifferences_bounds; assumption.
  - intros st totalShares ether shares Hbal.
    destruct (subgraph_fold_syntheticTotalRewards Hspec address wq totalShares
                deltas ether st block Hbal)
      as (rs & st' & Hrun & Hty & Hch & Htot).
    exists rs, st'. repeat split; try assumption.
    intros Hs Ht He Hds. rewrite Hch.
    apply balanceDifferences_bounds; assumption.
Qed.

Lemma rebase_stream_changes_are_balance_differences_witness :
  exists rs st',
    mapM (Chain.callback (imports := specImports) Sample.account Sample.queue)
      (syntheticRebases 10000 1000 [100; 0; 250] 30)
      (Chain.State.mk 1000 10000 0 (computeShareRate 1000 10000 PRECISION) 100)
    = Ok (rs, st')
    /\ map (@Reward.change _ _) rs
       = balanceDifferences 100 10000 1000 [100; 0; 250]
    /\ Chain.State.totalRewards st' = 0 + sumZ (map (@Reward.change _ _) rs)
    /\ Forall2 (fun d c =>
                  sharesToAsset 100 d 10000 PRECISION <= c
                  <= sharesToAsset 100 d 10000 PRECISION + 1)
         [100; 0; 250] (map (@Reward.change _ _) rs).
Proof.
  destruct (proj1 (rebase_stream_changes_are_balance_differences
                     (imports := specImports) Sample.account Sample.queue
                     [100; 0; 250] 30 (fun _ _ _ _ => eq_refl))
              (Chain.State.mk 1000 10000 0
                 (computeShareRate 1000 10000 PRECISION) 100))
    as (rs & st' & Hrun & _ & Hch & Htot & Hbound).
  exists rs, st'. repeat split; try assumption.
  apply Hbound; simpl; try lia.
  repeat constructor; lia.
Defined.

(** C4 as stated fails: one share out of two, total ether going from 1 to 2.
    The record's [change] is [1 * 2 / 2 - 1 * 1 / 2 = 1], the single
    conversion of the delta is [1 * 1 / 2 = 0]. *)
Lemma rebase_change_is_not_one_conversion_of_the_delta :
  exists ledger,
    Chain.getRewardsFromChain (imports := specImports) (Sample.core 100)
      (Sample.node 1 1 2 (syntheticRebases 2 1 [1] 20))
      (Sample.range 15 40 (Some true) (Some true)) = Ok ledger
    /\ map (@Reward.type _ _) (Chain.Ledger.rewards ledger) = [rebase]
    /\ map (@Reward.change _ _) (Chain.Ledger.rewards ledger) = [1]
    /\ map (fun d => sharesToAsset 1 d 2 PRECISION) [1] = [0]
    /\ map (@Reward.change _ _) (Chain.Ledger.rewards ledger)
       <> map (fun d => sharesToAsset 1 d 2 PRECISION) [1].
Proof.
  eexists. split; [vm_compute; reflexivity|].
  repeat split. vm_compute. discriminate.
Qed.

(** ** The merge: [sort] orders by [(blockNumber, logIndex)] *)

(** [sort] rearranges: no event is lost or duplicated by the merge. *)
Lemma insert_permutation (A : Type) (cmp : A -> A -> Z) (x : A) (l : list A) :
  Permutation (x :: l) (insert cmp x l).
Proof.
  induction l as [|y ys IH]; simpl; [reflexivity|].
  destruct (cmp x y <=? 0); [reflexivity|].
  rewrite perm_swap. apply perm_skip, IH.
Qed.

Lemma sort_permutation (A : Type) (cmp : A -> A -> Z) (l : list A) :
  Permutation l (sort cmp l).
Proof.
  induction l as [|x l IH]; simpl; [reflexivity|].
  rewrite <- insert_permutation. apply perm_skip, IH.
Qed.

Section SortOrders.
Variable A : Type.
Variable cmp : A -> A -> Z.
Variable le : A -> A -> Prop.
Hypothesis cmp_le : forall x y, cmp x y <= 0 -> le x y.
Hypothesis cmp_gt : forall x y, 0 < cmp x y -> le y x.
Hypothesis le_trans : forall x y z, le x y -> le y z -> le x z.

Lemma Forall_insert (P : A -> Prop) (x : A) (l : list A) :
  P x -> Forall P l -> Forall P (insert cmp x l).
Proof.
  intros Hx. induction 1 as [|y ys Hy Hys IH]; simpl.
  - constructor; [exact Hx | constructor].
  - destruct (cmp x y <=? 0); repeat constructor; assumption.
Qed.

Lemma insert_sorted (x : A) (l : list A) :
  StronglySorted le l -> StronglySorted le (insert cmp x l).
Proof.
  induction 1 as [|y ys Hsorted IH Hall]; simpl.
  - constructor; constructor.
  - destruct (cmp x y <=? 0) eqn:Hc.
    + apply Z.leb_le in Hc. apply cmp_le in Hc.
      constructor; [constructor; assumption|].
      constructor; [exact Hc|].
      eapply Forall_impl; [|exact Hall]. intros z Hz. eapply le_trans; eauto.
    + apply Z.leb_gt in Hc. apply cmp_gt in Hc.
      constructor; [exact IH | apply Forall_insert; assumption].
Qed.

Lemma sort_sorted (l : list A) : StronglySorted le (sort cmp l).
Proof.
  induction l as [|x l IH]; simpl; [constructor | apply insert_sorted, IH].
Qed.

End SortOrders.



Lemma Forall2_originalEvent_map (R E : Type) (es : list E)
  (rs : list (Reward.t R E)) :
  Forall2 (fun e r => Reward.originalEvent r = e) es rs ->
  map (@Reward.originalEvent R E) rs = es.
Proof.
  induction 1 as [|e r es rs He Hes IH]; simpl; [reflexivity|].
  rewrite He, IH. reflexivity.
Qed.













Section Ordering.
Context `{imports : Imports}.



Lemma chain_mapEvents_originalEvents (core : Core.t)
  (contract : Chain.Contract.t) (p : Parsed.t) rs st :
  Chain.mapEvents core contract p = Ok (rs, st) ->
  map (@Reward.originalEvent _ _) rs = Chain.sortedEvents contract p.
Proof.
  intros Hmap. apply Forall2_originalEvent_map.
  eapply mapM_Forall2; [|exact Hmap].
  intros e s r s' Hstep. apply chain_step_inv in Hstep. apply Hstep.
Qed.

Lemma subgraph_mapEvents_originalEvents (core : Core.t)
  (service : Subgraph.Service.t) (p : Parsed.t) rs st :
  Subgraph.mapEvents core service p = Ok (rs, st) ->
  map (@Reward.originalEvent _ _) rs = Subgraph.sortedEvents service p.
Proof.
  intros Hmap. apply Forall2_originalEvent_map.
  eapply mapM_Forall2; [|exact Hmap].
  intros e s r s' Hstep. apply subgraph_step_inv in Hstep. apply Hstep.
Qed.


End Ordering.



(** ** Classification of transfers *)

Section Classification.
Context `{imports : Imports}.

(** Every transfer the fold processes gets its type by a four-way table,
    each path comparing addresses its own way: string identity on the chain
    path, [addressEqual] on the subgraph path for the recipient, string
    identity with the zero address for the sender on both. *)
Lemma transfer_types_by_path (core : Core.t) (p : Parsed.t) :
  let address := Parsed.address p in
  let queue := Core.withdrawalQueueAddress core in
  (forall contract rs st,
      Chain.mapEvents core contract p = Ok (rs, st) ->
      Forall2
        (fun e r =>
           forall from to v,
             Chain.Event.args e = Chain.TransferShares from to v ->
             (to = address -> from = zeroAddress -> Reward.type r = submit)
             /\ (to = address -> from <> zeroAddress ->
                 Reward.type r = transfer_in)
             /\ (to <> address -> to = queue -> Reward.type r = withdrawal)
             /\ (to <> address -> to <> queue ->
                 Reward.type r = transfer_out))
        (Chain.sortedEvents contract p) rs)
  /\ (forall service rs st,
      Subgraph.mapEvents core service p = Ok (rs, st) ->
      Forall2
        (fun e r =>
           forall t,
             e = Subgraph.Transfer t ->
             let from := Subgraph.TransferEventEntity.from t in
             let to := Subgraph.TransferEventEntity.to t in
             (addressEqual to address = true -> from = zeroAddress ->
              Reward.type r = submit)
             /\ (addressEqual to address = true -> from <> zeroAddress ->
                 Reward.type r = transfer_in)
             /\ (addressEqual to address = false ->
                 addressEqual to queue = true -> Reward.type r = withdrawal)
             /\ (addressEqual to address = false ->
                 addressEqual to queue = false ->
                 Reward.type r = transfer_out))
        (Subgraph.sortedEvents service p) rs).
Proof.
  intros address queue. split.
  - intros contract rs st Hmap.
    eapply mapM_Forall2; [|exact Hmap].
    intros e s r s' Hstep from to v Hargs.
    erewrite chain_step_transfer in Hstep by exact Hargs.
    injection Hstep as <- _. simpl. unfold chainTransferType.
    fold address. fold queue.
    destruct (String.eqb_spec to address) as [Hto|Hto];
      destruct (String.eqb_spec from zeroAddress) as [Hfrom|Hfrom];
      destruct (String.eqb_spec to queue) as [Hq|Hq];
      repeat split; intros; congruence.
  - intros service rs st Hmap.
    eapply mapM_Forall2; [|exact Hmap].
    intros e s r s' Hstep t -> from to.
    rewrite subgraph_step_transfer in Hstep.
    injection Hstep as <- _. simpl. unfold subgraphTransferType.
    fold address. fold queue. fold from. fold to.
    destruct (addressEqual to address);
      destruct (String.eqb_spec from zeroAddress) as [Hfrom|Hfrom];
      destruct (addressEqual to queue);
      repeat split; intros; congruence.
Qed.

(** C5.  The two paths do not classify alike.  For a transfer whose recipient
    [addressEqual] takes for the queried account while the two strings
    differ, the subgraph step takes the incoming branch ([submit] or
    [transfer_in], the shares of the transfer added), and the chain step,
    which compares with [===], takes the outgoing one: the record is a
    [withdrawal] or a [transfer_out], its [changeShares] is the negated
    [sharesValue], and the running share balance goes down by shares that
    arrived. *)
Theorem chain_classifies_by_spelling_of_the_recipient
  (address queue : Address) (e : Chain.Event.t)
  (t : Subgraph.TransferEventEntity.t) (sharesValue : Z)
  (st : Chain.State.t ShareRate) (sst : Subgraph.State.t) :
  Chain.Event.args e
  = Chain.TransferShares (Subgraph.TransferEventEntity.from t)
      (Subgraph.TransferEventEntity.to t) sharesValue ->
  addressEqual (Subgraph.TransferEventEntity.to t) address = true ->
  Subgraph.TransferEventEntity.to t <> address ->
  exists r st' sr sst',
    Chain.callback address queue e st = Ok (r, st')
    /\ Subgraph.callback address queue (Subgraph.Transfer t) sst
       = Ok (sr, sst')
    /\ (Reward.type sr = submit \/ Reward.type sr = transfer_in)
    /\ Reward.changeShares sr = Subgraph.TransferEventEntity.shares t
    /\ (Reward.type r = withdrawal \/ Reward.type r = transfer_out)
    /\ Reward.changeShares r = - sharesValue
    /\ Chain.State.prevSharesBalance st'
       = Chain.State.prevSharesBalance st - sharesValue.
Proof.
  intros Hargs Hequal Hdiffer.
  erewrite chain_step_transfer by exact Hargs.
  rewrite subgraph_step_transfer.
  do 4 eexists. split; [reflexivity|]. split; [reflexivity|].
  simpl. unfold chainTransferType, subgraphTransferType.
  rewrite Hequal.
  destruct (String.eqb_spec (Subgraph.TransferEventEntity.to t) address)
    as [Hsame|_]; [contradiction|].
  split; [destruct (String.eqb _ zeroAddress); [left|right]; reflexivity|].
  split; [reflexivity|].
  split; [destruct (String.eqb _ queue); [left|right]; reflexivity|].
  split; reflexivity.
Qed.


End Classification.

Lemma chain_classifies_by_spelling_of_the_recipient_witness :
  exists r st' sr sst',
    Chain.callback (imports := caseBlindImports) Sample.account Sample.queue
      (Sample.transferShares zeroAddress Sample.accountAsLogged 100 20 3)
      (Chain.State.mk 1000 10000 0 (computeShareRate 1000 10000 PRECISION) 0)
    = Ok (r, st')
    /\ Subgraph.callback (imports := caseBlindImports) Sample.account
         Sample.queue (Subgraph.Transfer Sample.depositEntity)
         (Subgraph.State.mk 0 0 0)
       = Ok (sr, sst')
    /\ Reward.type sr = submit
    /\ Reward.changeShares sr = 100
    /\ Reward.type r = transfer_out
    /\ Reward.changeShares r = - 100
    /\ Chain.State.prevSharesBalance st' = 0 - 100.
Proof.
  destruct (@chain_classifies_by_spelling_of_the_recipient
              caseBlindImports Sample.account Sample.queue
              (Sample.transferShares zeroAddress Sample.accountAsLogged
                 100 20 3)
              Sample.depositEntity 100
              (Chain.State.mk 1000 10000 0
                 (computeShareRate 1000 10000 PRECISION) 0)
              (Subgraph.State.mk 0 0 0)
              eq_refl eq_refl ltac:(discriminate))
    as (r & st' & sr & sst' & Hchain & Hsub & _ & Hsc & _ & Hc & Hst).
  exists r, st', sr, sst'.
  split; [exact Hchain|]. split; [exact Hsub|].
  vm_compute in Hchain. injection Hchain as <- <-.
  vm_compute in Hsub. injection Hsub as <- <-.
  repeat split.
Defined.

(** The same deposit in two whole queries for the account in lower case: the
    chain ledger books it as a [transfer_out] that leaves a balance of
    [-100] shares, the subgraph ledger as a [submit] of [100]. *)
Example lower_case_query_books_a_deposit_as_outgoing :
  (match Chain.getRewardsFromChain (imports := caseBlindImports)
           (Sample.core 100) Sample.depositNode
           (Sample.range 15 40 (Some true) (Some true)) with
   | Ok l => map (fun r => (Reward.type r, Reward.changeShares r,
                            Reward.balanceShares r))
               (Chain.Ledger.rewards l)
   | Err _ => []
   end,
   match Subgraph.getRewardsFromSubgraph (imports := caseBlindImports)
           (Sample.core 100)
           (Sample.index 100 [Subgraph.Transfer Sample.depositEntity] []
              None None)
           (Sample.range 15 40 (Some true) (Some true)) with
   | Ok l => map (fun r => (Reward.type r, Reward.changeShares r,
                            Reward.balanceShares r))
               (Subgraph.Ledger.rewards l)
   | Err _ => []
   end)
  = ([(transfer_out, -100, -100)], [(submit, 100, 100)]).
Proof. vm_compute. reflexivity. Qed.


(** A self-transfer in a whole query: the log matches both the query by
    sender and the query by recipient, so it is folded twice, each time
    through the incoming branch. *)
Example self_transfer_in_a_query :
  option_map (fun l => (map (@Reward.type _ _) (Chain.Ledger.rewards l),
                        map (@Reward.balanceShares _ _)
                          (Chain.Ledger.rewards l)))
    match Chain.getRewardsFromChain (imports := specImports) (Sample.core 100)
            (Sample.node 50 1000 10000
               [Sample.transferShares Sample.account Sample.account 7 20 0])
            (Sample.range 15 40 (Some true) (Some true)) with
    | Ok l => Some l
    | Err _ => None
    end
  = Some ([transfer_in; transfer_in], [57; 64]).
Proof. vm_compute. reflexivity. Qed.

(** ** The range guard of the chain path *)

Lemma mapM_Err_inv (S A B : Type) (f : A -> M S B) (err : Error) :
  forall l s, mapM f l s = Err err ->
    exists x s', In x l /\ f x s' = Err err.
Proof.
  induction l as [|x l IH]; intros s Hrun.
  - discriminate Hrun.
  - simpl in Hrun. unfold bind in Hrun.
    destruct (f x s) as [[y s1]|e] eqn:Hx.
    + destruct (mapM f l s1) as [[ys s2]|e] eqn:Hl.
      * discriminate Hrun.
      * injection Hrun as ->. destruct (IH _ Hl) as (x' & s' & Hin & Hx').
        exists x', s'. split; [right; exact Hin | exact Hx'].
    + injection Hrun as ->. exists x, s. split; [left; reflexivity | exact Hx].
Qed.

(** C7.  The range guard does not stop the query.  With the resolved
    [fromBlock] strictly below the earliest [TokenRebased] block of the
    network, the error value of code [NOT_SUPPORTED] is made and dropped:
    no error made by [core.error] is ever the outcome, and whenever the fold
    over the logs of the range goes through, [getRewardsFromChain] returns a
    ledger for that range, with the base share balance read at the block
    before [fromBlock]. *)
Theorem range_guard_does_not_stop_the_chain_query `{imports : Imports}
  (core : Core.t) (contract : Chain.Contract.t) (props : Props.t)
  (p : Parsed.t) :
  parseProps core props = Ok p ->
  Parsed.fromBlock p < EARLIEST_TOKEN_REBASED_EVENT (Core.chainId core) ->
  (forall code message,
      Chain.getRewardsFromChain core contract props
      <> Err (SDKError code message))
  /\ forall rs st,
       Chain.mapEvents core contract p = Ok (rs, st) ->
       exists ledger,
         Chain.getRewardsFromChain core contract props = Ok ledger
         /\ Chain.Ledger.fromBlock ledger = Parsed.fromBlock p
         /\ Chain.Ledger.toBlock ledger = Parsed.toBlock p
         /\ Chain.Ledger.rewards ledger
            = Chain.postFilter (Parsed.includeZeroRebases p)
                (Parsed.includeOnlyRebases p) rs
         /\ Chain.Ledger.baseBalanceShares ledger
            = Chain.Contract.sharesOf contract (Parsed.address p)
                (Chain.preBlock (Parsed.fromBlock p)).
Proof.
  intros Hp Hlt. split.
  - intros code message Hrun.
    unfold Chain.getRewardsFromChain in Hrun. rewrite Hp in Hrun.
    simpl in Hrun. unfold whenDropped in Hrun.
    destruct (Chain.mapEvents core contract p) as [[rs st]|e] eqn:Hmap;
      simpl in Hrun; [discriminate Hrun|].
    injection Hrun as ->. unfold Chain.mapEvents in Hmap.
    apply mapM_Err_inv in Hmap. destruct Hmap as (x & s' & _ & Hx).
    destruct (Chain.Event.args x) as [from to v|pe ps|name] eqn:Hargs.
    + erewrite chain_step_transfer in Hx by exact Hargs. discriminate Hx.
    + erewrite chain_step_rebase in Hx by exact Hargs. discriminate Hx.
    + erewrite chain_step_other in Hx by exact Hargs. discriminate Hx.
  - intros rs st Hmap. unfold Chain.getRewardsFromChain.
    rewrite Hp. simpl. unfold whenDropped. rewrite Hmap. simpl.
    eexists. split; [reflexivity|]. repeat split; reflexivity.
Qed.

Lemma range_guard_does_not_stop_the_chain_query_witness :
  exists ledger,
    Chain.getRewardsFromChain (imports := specImports) (Sample.core 100)
      Sample.scenarioNode (Sample.range 9 40 None None) = Ok ledger
    /\ Chain.Ledger.fromBlock ledger = 9
    /\ EARLIEST_TOKEN_REBASED_EVENT (Imports := specImports)
         (Core.chainId (Sample.core 100)) = 10
    /\ List.length (Chain.Ledger.rewards ledger) = 1%nat.
Proof.
  destruct (Chain.mapEvents (imports := specImports) (Sample.core 100)
              Sample.scenarioNode
              (Parsed.mk Sample.account 9 40 7 false false))
    as [[rs st]|e] eqn:Hmap; [|vm_compute in Hmap; discriminate Hmap].
  destruct (proj2 (range_guard_does_not_stop_the_chain_query
                     (imports := specImports) (Sample.core 100)
                     Sample.scenarioNode (Sample.range 9 40 None None)
                     (p := Parsed.mk Sample.account 9 40 7 false false)
                     eq_refl ltac:(simpl; lia)) rs st Hmap)
    as (ledger & Hrun & Hfrom & _ & Hrs & _).
  exists ledger. split; [exact Hrun|]. split; [exact Hfrom|].
  split; [reflexivity|].
  rewrite Hrs. vm_compute in Hmap. injection Hmap as <- _.
  vm_compute. reflexivity.
Defined.

(** ** Capping of the subgraph range *)

Section Capping.
Context `{imports : Imports}.

Lemma subgraph_callback_total (address queue : Address) (e : Subgraph.Event) :
  (forall b i, e <> Subgraph.OtherEntity b i) ->
  forall st, exists r st',
    Subgraph.callback address queue e st = Ok (r, st').
Proof.
  intros Hknown st. destruct e as [t|t|b i].
  - rewrite subgraph_step_transfer. eauto.
  - rewrite subgraph_step_rebase. eauto.
  - exfalso. apply (Hknown b i). reflexivity.
Qed.

(** C9.  When the requested [toBlock] exceeds the last indexed block, both
    range queries of the subgraph path are made with the last indexed block
    as their upper bound; a query whose entities are all recognised returns
    a ledger, without any error for the cap; and the ledger returned has
    [toBlock] equal to the last indexed block, not to the requested one, its
    records being those of the capped streams. *)
Theorem subgraph_toBlock_capped_to_last_indexed (core : Core.t)
  (service : Subgraph.Service.t) (props : Props.t) (p : Parsed.t) :
  parseProps core props = Ok p ->
  Subgraph.Service.getLastIndexedBlock service < Parsed.toBlock p ->
  let lastIndexed := Subgraph.Service.getLastIndexedBlock service in
  let capped :=
    sort Subgraph.compareEvents
      (Subgraph.Service.getTotalRewards service (Parsed.fromBlock p)
         lastIndexed (Parsed.step p)
       ++ Subgraph.Service.getTransfers service (Parsed.address p)
            (Parsed.fromBlock p) lastIndexed (Parsed.step p)) in
  Subgraph.sortedEvents service p = capped
  /\ (Forall (fun e => forall b i, e <> Subgraph.OtherEntity b i) capped ->
      exists ledger,
        Subgraph.getRewardsFromSubgraph core service props = Ok ledger)
  /\ (forall ledger,
        Subgraph.getRewardsFromSubgraph core service props = Ok ledger ->
        Subgraph.Ledger.toBlock ledger = lastIndexed
        /\ Subgraph.Ledger.toBlock ledger <> Parsed.toBlock p
        /\ Subgraph.Ledger.lastIndexedBlock ledger = lastIndexed
        /\ exists rs st,
            mapM (Subgraph.callback (Parsed.address p)
                    (Core.withdrawalQueueAddress core))
              capped (Subgraph.initialState service p) = Ok (rs, st)
            /\ Subgraph.Ledger.rewards ledger
               = Subgraph.postFilter (Parsed.includeZeroRebases p)
                   (Parsed.includeOnlyRebases p) rs).
Proof.
  intros Hp Hlt lastIndexed capped.
  assert (Subgraph.cappedToBlock service p = lastIndexed) as Hcap.
  { unfold Subgraph.cappedToBlock. fold lastIndexed.
    apply Z.ltb_lt in Hlt. fold lastIndexed in Hlt. rewrite Hlt.
    reflexivity. }
  assert (Subgraph.sortedEvents service p = capped) as Hevents.
  { unfold Subgraph.sortedEvents. rewrite Hcap. reflexivity. }
  split; [exact Hevents|]. split.
  - intros Hknown.
    destruct (mapM_total
                (Subgraph.callback (Parsed.address p)
                   (Core.withdrawalQueueAddress core)) capped)
      with (s := Subgraph.initialState service p) as (rs & st & Hrun).
    { intros e He. apply subgraph_callback_total.
      rewrite Forall_forall in Hknown. apply Hknown, He. }
    destruct (subgraph_run_intro core service props (rs := rs) (st := st) Hp)
      as (ledger & Hledger & _).
    { unfold Subgraph.mapEvents. rewrite Hevents. exact Hrun. }
    exists ledger. exact Hledger.
  - intros ledger Hrun. apply subgraph_run_inv in Hrun.
    destruct Hrun as (p' & rs & st & Hp' & Hmap & Hrew & _ & _ & Hto & Hlast).
    assert (p' = p) as -> by congruence.
    rewrite Hto, Hcap. repeat split; [unfold lastIndexed; lia | exact Hlast|].
    exists rs, st. split; [|exact Hrew].
    unfold Subgraph.mapEvents in Hmap. rewrite Hevents in Hmap. exact Hmap.
Qed.

End Capping.

Lemma subgraph_toBlock_capped_to_last_indexed_witness :
  exists ledger,
    Subgraph.getRewardsFromSubgraph (imports := specImports) (Sample.core 100)
      (Sample.scenarioIndex 25) (Sample.range 15 40 (Some true) (Some true))
    = Ok ledger
    /\ Subgraph.Ledger.toBlock ledger = 25
    /\ map (@Reward.type _ _) (Subgraph.Ledger.rewards ledger) = [submit].
Proof.
  destruct (Subgraph.getRewardsFromSubgraph (imports := specImports)
              (Sample.core 100) (Sample.scenarioIndex 25)
              (Sample.range 15 40 (Some true) (Some true)))
    as [ledger|e] eqn:Hrun; [|vm_compute in Hrun; discriminate Hrun].
  exists ledger. split; [reflexivity|]. split.
  - assert (Subgraph.Service.getLastIndexedBlock (Sample.scenarioIndex 25)
            < Parsed.toBlock (Parsed.mk Sample.account 15 40 7 true true))
      as Hlt by (simpl; lia).
    destruct (subgraph_toBlock_capped_to_last_indexed
                (imports := specImports) (Sample.core 100)
                (Sample.scenarioIndex 25)
                (Sample.range 15 40 (Some true) (Some true))
                (p := Parsed.mk Sample.account 15 40 7 true true)
                eq_refl Hlt) as (_ & _ & Hledger).
    exact (proj1 (Hledger ledger Hrun)).
  - vm_compute in Hrun. injection Hrun as <-. reflexivity.
Defined.

(** ** Where the argument errors of the range resolver come from *)

Section ArgumentErrors.
Variable core : Core.t.
Hypothesis Hquiet : raisesNoArgumentError core.

Lemma toBlockNumber_argument_error (arg : BlockArgumentType.t)
  (message : string) :
  toBlockNumber core arg = Err (InvalidArgument message) ->
  message = "block must not be pending"
  /\ exists blockTag,
      Core.getBlock core blockTag = Ok None
      \/ Core.getBlock core blockTag = Ok (Some 0).
Proof.
  destruct Hquiet as [Hlatest Hblock].
  unfold toBlockNumber, ifTruthy.
  assert (forall blockTag,
             rbind (Core.getBlock core blockTag)
               (fun number =>
                  rbind (invariantArgument (truthy number)
                           "block must not be pending")
                    (fun _ => match number with
                              | Some n => Ok n
                              | None => Err TypeError
                              end))
             = Err (InvalidArgument message) ->
             message = "block must not be pending"
             /\ exists blockTag,
                 Core.getBlock core blockTag = Ok None
                 \/ Core.getBlock core blockTag = Ok (Some 0)) as Htag.
  { intros blockTag.
    destruct (Core.getBlock core blockTag) as [[n|]|e] eqn:Hget; simpl.
    - destruct (n =? 0) eqn:Hn; simpl; [|discriminate].
      apply Z.eqb_eq in Hn. subst n. intros Heq. injection Heq as <-.
      split; [reflexivity|]. exists blockTag. right. exact Hget.
    - intros Heq. injection Heq as <-.
      split; [reflexivity|]. exists blockTag. left. exact Hget.
    - intros Heq. injection Heq as ->. exfalso. exact (Hblock _ _ Hget). }
  destruct (BlockArgumentType.timestamp arg) as [ts|].
  - destruct (ts =? 0).
    + destruct (BlockArgumentType.block arg) as [[n|tag]|];
        [discriminate | apply Htag | apply Htag].
    + intros Hget. exfalso. exact (Hlatest _ _ Hget).
  - destruct (BlockArgumentType.block arg) as [[n|tag]|];
      [discriminate | apply Htag | apply Htag].
Qed.

Lemma toBackBlock_argument_error (arg : option BackArgumentType.t)
  (start : Z) (message : string) :
  toBackBlock core arg start = Err (InvalidArgument message) ->
  exists back,
    arg = Some back
    /\ ((message = "Too many blocks back"
         /\ exists blocks,
             BackArgumentType.blocks back = Some blocks
             /\ blocks <> 0 /\ start - blocks < 0)
        \/ (message = "must have at least something in back argument"
            /\ truthy (BackArgumentType.blocks back) = false
            /\ truthy (BackArgumentType.days back) = false
            /\ truthy (BackArgumentType.seconds back) = false)).
Proof.
  destruct Hquiet as [Hlatest _].
  destruct arg as [back|]; simpl; [|discriminate].
  intros Hfail. exists back. split; [reflexivity|].
  unfold ifTruthy, truthy in *.
  destruct (BackArgumentType.blocks back) as [b|] eqn:Hb.
  - destruct (b =? 0) eqn:Hb0.
    + destruct (BackArgumentType.days back) as [d|] eqn:Hd.
      * destruct (d =? 0) eqn:Hd0.
        -- destruct (BackArgumentType.seconds back) as [sec|] eqn:Hs.
           ++ destruct (sec =? 0) eqn:Hs0.
              ** simpl in Hfail. injection Hfail as <-. right. auto.
              ** exfalso. unfold BigIntOfDivision in Hfail.
                 destruct (_ mod _ =? 0) in Hfail; simpl in Hfail;
                   [exact (Hlatest _ _ Hfail) | discriminate Hfail].
           ++ simpl in Hfail. injection Hfail as <-. right. auto.
        -- exfalso. exact (Hlatest _ _ Hfail).
      * destruct (BackArgumentType.seconds back) as [sec|] eqn:Hs.
        -- destruct (sec =? 0) eqn:Hs0.
           ++ simpl in Hfail. injection Hfail as <-. right. auto.
           ++ exfalso. unfold BigIntOfDivision in Hfail.
                 destruct (_ mod _ =? 0) in Hfail; simpl in Hfail;
                [exact (Hlatest _ _ Hfail) | discriminate Hfail].
        -- simpl in Hfail. injection Hfail as <-. right. auto.
    + unfold invariantArgument in Hfail.
      destruct (start - b >=? 0) eqn:Hend; simpl in Hfail; [discriminate|].
      injection Hfail as <-. left. split; [reflexivity|].
      exists b. apply Z.eqb_neq in Hb0. repeat split; [exact Hb0 | lia].
  - destruct (BackArgumentType.days back) as [d|] eqn:Hd.
    + destruct (d =? 0) eqn:Hd0.
      * destruct (BackArgumentType.seconds back) as [sec|] eqn:Hs.
        -- destruct (sec =? 0) eqn:Hs0.
           ++ simpl in Hfail. injection Hfail as <-. right. auto.
           ++ exfalso. unfold BigIntOfDivision in Hfail.
                 destruct (_ mod _ =? 0) in Hfail; simpl in Hfail;
                [exact (Hlatest _ _ Hfail) | discriminate Hfail].
        -- simpl in Hfail. injection Hfail as <-. right. auto.
      * exfalso. exact (Hlatest _ _ Hfail).
    + destruct (BackArgumentType.seconds back) as [sec|] eqn:Hs.
      * destruct (sec =? 0) eqn:Hs0.
        -- simpl in Hfail. injection Hfail as <-. right. auto.
        -- exfalso. unfold BigIntOfDivision in Hfail.
                 destruct (_ mod _ =? 0) in Hfail; simpl in Hfail;
             [exact (Hlatest _ _ Hfail) | discriminate Hfail].
      * simpl in Hfail. injection Hfail as <-. right. auto.
Qed.

(** Every argument error of [parseProps] is one of five: a tag resolved to
    no block number or to block number [0]; too many blocks back; a back
    specifier none of whose members is truthy (absent or [0n]); an inverted
    range; a step that is not positive. *)
Lemma parseProps_argument_error (props : Props.t) (message : string) :
  parseProps core props = Err (InvalidArgument message) ->
  (message = "block must not be pending"
   /\ exists blockTag,
       Core.getBlock core blockTag = Ok None
       \/ Core.getBlock core blockTag = Ok (Some 0))
  \/ (message = "Too many blocks back"
      /\ exists back blocks toBlock,
          Props.back props = Some back
          /\ BackArgumentType.blocks back = Some blocks
          /\ blocks <> 0 /\ toBlock - blocks < 0)
  \/ (message = "must have at least something in back argument"
      /\ exists back,
          Props.back props = Some back
          /\ truthy (BackArgumentType.blocks back) = false
          /\ truthy (BackArgumentType.days back) = false
          /\ truthy (BackArgumentType.seconds back) = false)
  \/ (message = "toBlock is lower than fromBlock"
      /\ exists toBlock fromBlock,
          match Props.from props with
          | Some from => toBlockNumber core from
          | None => toBackBlock core (Props.back props) toBlock
          end = Ok fromBlock
          /\ toBlock < fromBlock)
  \/ (message = "steps must be a positive integer"
      /\ exists step, Props.step props = Some step /\ step <= 0).
Proof.
  unfold parseProps.
  destruct (toBlockNumber core _) as [toBlock|e] eqn:Hto; simpl.
  2:{ intros Heq. injection Heq as ->. left.
      eapply toBlockNumber_argument_error. exact Hto. }
  destruct (match Props.from props with
            | Some from => toBlockNumber core from
            | None => toBackBlock core (Props.back props) toBlock
            end) as [fromBlock|e] eqn:Hfrom; simpl.
  2:{ intros Heq. injection Heq as ->.
      destruct (Props.from props) as [from|].
      - left. eapply toBlockNumber_argument_error. exact Hfrom.
      - apply toBackBlock_argument_error in Hfrom.
        destruct Hfrom as (back & Hback & [[-> (b & Hb & Hb0 & Hneg)]
                                          |[-> Hnone]]).
        + right. left. split; [reflexivity|].
          exists back, b, toBlock. auto.
        + right. right. left. split; [reflexivity|].
          exists back. auto. }
  unfold invariantArgument.
  destruct (toBlock >=? fromBlock) eqn:Hrange; simpl.
  2:{ intros Heq. injection Heq as <-. right. right. right. left.
      split; [reflexivity|]. exists toBlock, fromBlock.
      split; [exact Hfrom | lia]. }
  destruct (_ >? 0) eqn:Hstep; simpl; [discriminate|].
  intros Heq. injection Heq as <-. right. right. right. right.
  split; [reflexivity|].
  unfold DEFAULT_STEP in Hstep.
  destruct (Props.step props) as [step|]; [|discriminate Hstep].
  exists step. split; [reflexivity | lia].
Qed.

(** Conversely, each of the five conditions of the specification raises its
    argument error. *)

Lemma toBlockNumber_rejects_pending (tag : BlockTag) :
  Core.getBlock core (Some tag) = Ok None ->
  toBlockNumber core (BlockArgumentType.mk None (Some (Tagged tag)))
  = Err (InvalidArgument "block must not be pending").
Proof.
  intros Hget. unfold toBlockNumber. simpl. rewrite Hget. reflexivity.
Qed.

Lemma toBackBlock_rejects_empty (start : Z) :
  toBackBlock core (Some (BackArgumentType.mk None None None)) start
  = Err (InvalidArgument "must have at least something in back argument").
Proof. reflexivity. Qed.

Lemma toBackBlock_rejects_negative (blocks start : Z) (days seconds : option Z) :
  blocks <> 0 -> start - blocks < 0 ->
  toBackBlock core (Some (BackArgumentType.mk (Some blocks) days seconds))
    start
  = Err (InvalidArgument "Too many blocks back").
Proof.
  intros Hb Hneg. unfold toBackBlock, ifTruthy. simpl.
  apply Z.eqb_neq in Hb. rewrite Hb.
  unfold invariantArgument.
  destruct (start - blocks >=? 0) eqn:Hge; [lia | reflexivity].
Qed.

Lemma parseProps_rejects_inverted_range (props : Props.t)
  (toBlock fromBlock : Z) :
  toBlockNumber core
    match Props.to props with
    | Some to => to
    | None => BlockArgumentType.mk None (Some (Tagged latest))
    end = Ok toBlock ->
  match Props.from props with
  | Some from => toBlockNumber core from
  | None => toBackBlock core (Props.back props) toBlock
  end = Ok fromBlock ->
  toBlock < fromBlock ->
  parseProps core props
  = Err (InvalidArgument "toBlock is lower than fromBlock").
Proof.
  intros Hto Hfrom Hlt. unfold parseProps. rewrite Hto. simpl.
  rewrite Hfrom. simpl. unfold invariantArgument.
  destruct (toBlock >=? fromBlock) eqn:Hge; [lia | reflexivity].
Qed.

Lemma parseProps_rejects_step (props : Props.t) (toBlock fromBlock step : Z) :
  toBlockNumber core
    match Props.to props with
    | Some to => to
    | None => BlockArgumentType.mk None (Some (Tagged latest))
    end = Ok toBlock ->
  match Props.from props with
  | Some from => toBlockNumber core from
  | None => toBackBlock core (Props.back props) toBlock
  end = Ok fromBlock ->
  fromBlock <= toBlock ->
  Props.step props = Some step -> step <= 0 ->
  parseProps core props
  = Err (InvalidArgument "steps must be a positive integer").
Proof.
  intros Hto Hfrom Hle Hstep Hneg. unfold parseProps. rewrite Hto. simpl.
  rewrite Hfrom. simpl. unfold invariantArgument.
  destruct (toBlock >=? fromBlock) eqn:Hge; [|lia]. simpl.
  rewrite Hstep. destruct (step >? 0) eqn:Hgt; [lia | reflexivity].
Qed.

End ArgumentErrors.

(** ** Range resolution on a zero value *)

(** C8 at the failing inputs.  A back specifier whose [blocks] member is set
    to [0n] is rejected with the message of an empty back specifier, whatever
    the collaborators answer; and a block tag that resolves to block number
    [0] is rejected with the message of a pending block. *)
Theorem zero_is_taken_for_absent_in_range_resolution (core : Core.t)
  (address : Address) (toBlock : Z) :
  parseProps core
    {| Props.address := address;
       Props.to := Some (BlockArgumentType.mk None (Some (BlockNumber toBlock)));
       Props.from := None;
       Props.back := Some (BackArgumentType.mk (Some 0) None None);
       Props.step := None;
       Props.includeZeroRebases := None;
       Props.includeOnlyRebases := None |}
  = Err (InvalidArgument "must have at least something in back argument")
  /\ (Core.getBlock core (Some earliest) = Ok (Some 0) ->
      parseProps core
        {| Props.address := address;
           Props.to :=
             Some (BlockArgumentType.mk None (Some (BlockNumber toBlock)));
           Props.from :=
             Some (BlockArgumentType.mk None (Some (Tagged earliest)));
           Props.back := None;
           Props.step := None;
           Props.includeZeroRebases := None;
           Props.includeOnlyRebases := None |}
      = Err (InvalidArgument "block must not be pending")).
Proof.
  split.
  - reflexivity.
  - intros Hgenesis. unfold parseProps, toBlockNumber. simpl.
    rewrite Hgenesis. reflexivity.
Qed.

Lemma zero_is_taken_for_absent_in_range_resolution_witness :
  parseProps (Sample.core 100)
    {| Props.address := Sample.account;
       Props.to := Some (BlockArgumentType.mk None (Some (BlockNumber 100)));
       Props.from := None;
       Props.back := Some (BackArgumentType.mk (Some 0) None None);
       Props.step := None;
       Props.includeZeroRebases := None;
       Props.includeOnlyRebases := None |}
  = Err (InvalidArgument "must have at least something in back argument")
  /\ parseProps (Sample.core 100)
       {| Props.address := Sample.account;
          Props.to := Some (BlockArgumentType.mk None (Some (BlockNumber 100)));
          Props.from :=
            Some (BlockArgumentType.mk None (Some (Tagged earliest)));
          Props.back := None;
          Props.step := None;
          Props.includeZeroRebases := None;
          Props.includeOnlyRebases := None |}
     = Err (InvalidArgument "block must not be pending").
Proof.
  destruct (zero_is_taken_for_absent_in_range_resolution (Sample.core 100)
              Sample.account 100) as [Hback Htag].
  split; [exact Hback | exact (Htag eq_refl)].
Defined.

(** * Further properties of the code *)

(** ** Range resolution *)

(** X1.  Whatever the collaborators answer, a query that [parseProps]
    resolves has [fromBlock <= toBlock] and a positive [step]; it keeps the
    address, and an absent [step], [includeZeroRebases] or
    [includeOnlyRebases] has become [1000], [false] and [false]. *)
Theorem resolved_query_is_well_formed (core : Core.t) (props : Props.t)
  (p : Parsed.t) :
  parseProps core props = Ok p ->
  Parsed.fromBlock p <= Parsed.toBlock p
  /\ 0 < Parsed.step p
  /\ Parsed.address p = Props.address props
  /\ Parsed.step p = orDefault (Props.step props) 1000
  /\ Parsed.includeZeroRebases p
     = orDefault (Props.includeZeroRebases props) false
  /\ Parsed.includeOnlyRebases p
     = orDefault (Props.includeOnlyRebases props) false.
Proof.
  intros Hp.
  destruct (parseProps_fields _ _ Hp) as (Ha & Hz & Ho & Hs & Hpos & Hle).
  unfold orDefault. repeat split; assumption.
Qed.

Lemma resolved_query_is_well_formed_witness :
  exists p,
    parseProps (Sample.core 100)
      (backRange Sample.account 90 (BackArgumentType.mk (Some 30) None None)
         None None (Some true)) = Ok p
    /\ Parsed.fromBlock p <= Parsed.toBlock p
    /\ Parsed.step p = 1000
    /\ Parsed.includeZeroRebases p = false.
Proof.
  destruct (parseProps (Sample.core 100)
              (backRange Sample.account 90
                 (BackArgumentType.mk (Some 30) None None) None None
                 (Some true))) as [p|e] eqn:Hp;
    [|vm_compute in Hp; discriminate Hp].
  exists p. split; [reflexivity|].
  destruct (resolved_query_is_well_formed _ _ Hp)
    as (Hle & _ & _ & Hstep & Hzero & _).
  repeat split; assumption.
Defined.

(** X2.  Two explicit block numbers are resolved without consulting any
    collaborator and without looking at their sign: the query resolves to
    exactly these bounds when they are ordered and the step is positive,
    fails with the range-order argument error when they are not, whatever
    the step, and with the step argument error when only the step is
    wrong. *)
Theorem explicit_bounds_resolve_verbatim (core : Core.t) (address : Address)
  (fromBlock toBlock : Z) (step : option Z) (zero only : option bool) :
  let props := explicitRange address fromBlock toBlock step zero only in
  (fromBlock <= toBlock -> 0 < orDefault step DEFAULT_STEP ->
   parseProps core props
   = Ok (Parsed.mk address fromBlock toBlock (orDefault step DEFAULT_STEP)
           (orDefault zero false) (orDefault only false)))
  /\ (toBlock < fromBlock ->
      parseProps core props
      = Err (InvalidArgument "toBlock is lower than fromBlock"))
  /\ (fromBlock <= toBlock -> orDefault step DEFAULT_STEP <= 0 ->
      parseProps core props
      = Err (InvalidArgument "steps must be a positive integer")).
Proof.
  intros props. unfold props, explicitRange, parseProps, toBlockNumber,
    invariantArgument, orDefault. simpl.
  repeat split.
  - intros Hle Hstep.
    destruct (toBlock >=? fromBlock) eqn:Hge; [|lia]. simpl.
    destruct step as [s|]; simpl in *.
    + destruct (s >? 0) eqn:Hs; [|lia]. destruct zero, only; reflexivity.
    + destruct zero, only; reflexivity.
  - intros Hlt. destruct (toBlock >=? fromBlock) eqn:Hge; [lia|]. reflexivity.
  - intros Hle Hstep.
    destruct (toBlock >=? fromBlock) eqn:Hge; [|lia]. simpl.
    destruct step as [s|]; simpl in *.
    + destruct (s >? 0) eqn:Hs; [lia|]. reflexivity.
    + unfold DEFAULT_STEP in Hstep. lia.
Qed.

Lemma explicit_bounds_resolve_verbatim_witness :
  parseProps (Sample.core 100)
    (explicitRange Sample.account (-5) 3 None None None)
  = Ok (Parsed.mk Sample.account (-5) 3 1000 false false)
  /\ parseProps (Sample.core 100)
       (explicitRange Sample.account 4 3 (Some 0) None None)
     = Err (InvalidArgument "toBlock is lower than fromBlock")
  /\ parseProps (Sample.core 100)
       (explicitRange Sample.account 3 3 (Some 0) None None)
     = Err (InvalidArgument "steps must be a positive integer").
Proof.
  split; [|split].
  - apply (proj1 (explicit_bounds_resolve_verbatim (Sample.core 100)
                    Sample.account (-5) 3 None None None));
      unfold orDefault, DEFAULT_STEP; lia.
  - apply (proj1 (proj2 (explicit_bounds_resolve_verbatim (Sample.core 100)
                           Sample.account 4 3 (Some 0) None None))); lia.
  - apply (proj2 (proj2 (explicit_bounds_resolve_verbatim (Sample.core 100)
                           Sample.account 3 3 (Some 0) None None)));
      unfold orDefault; lia.
Defined.

(** X3.  A query that ends at block [n] and goes [b] blocks back, [b] not
    zero, ignores the [days] and [seconds] of the back specifier.  It
    resolves to the range from [n - b] to [n] when [0 < b <= n]; more blocks
    than [n] are too many blocks back; and a negative [b], which would start
    the range after its end, is rejected by the range-order check. *)
Theorem blocks_back_range (core : Core.t) (address : Address) (n b : Z)
  (days seconds step : option Z) (zero only : option bool) :
  b <> 0 ->
  let props :=
    backRange address n (BackArgumentType.mk (Some b) days seconds) step zero
      only in
  (0 < b -> b <= n -> 0 < orDefault step DEFAULT_STEP ->
   parseProps core props
   = Ok (Parsed.mk address (n - b) n (orDefault step DEFAULT_STEP)
           (orDefault zero false) (orDefault only false)))
  /\ (n < b ->
      parseProps core props = Err (InvalidArgument "Too many blocks back"))
  /\ (b < 0 -> b <= n ->
      parseProps core props
      = Err (InvalidArgument "toBlock is lower than fromBlock")).
Proof.
  intros Hb props. unfold props, backRange, parseProps, toBlockNumber,
    toBackBlock, ifTruthy, invariantArgument, orDefault. simpl.
  apply Z.eqb_neq in Hb. rewrite Hb.
  repeat split.
  - intros Hpos Hle Hstep.
    destruct (n - b >=? 0) eqn:Hend; [|lia]. simpl.
    destruct (n >=? n - b) eqn:Hge; [|lia]. simpl.
    destruct step as [s|]; simpl in *.
    + destruct (s >? 0) eqn:Hs; [|lia]. destruct zero, only; reflexivity.
    + destruct zero, only; reflexivity.
  - intros Hlt. destruct (n - b >=? 0) eqn:Hend; [lia|]. reflexivity.
  - intros Hneg Hle.
    destruct (n - b >=? 0) eqn:Hend; [|lia]. simpl.
    destruct (n >=? n - b) eqn:Hge; [lia|]. reflexivity.
Qed.

Lemma blocks_back_range_witness :
  parseProps (Sample.core 100)
    (backRange Sample.account 90 (BackArgumentType.mk (Some 30) (Some 2) None)
       None None None)
  = Ok (Parsed.mk Sample.account 60 90 1000 false false)
  /\ parseProps (Sample.core 100)
       (backRange Sample.account 90 (BackArgumentType.mk (Some 91) None None)
          None None None)
     = Err (InvalidArgument "Too many blocks back")
  /\ parseProps (Sample.core 100)
       (backRange Sample.account 90 (BackArgumentType.mk (Some (-1)) None None)
          None None None)
     = Err (InvalidArgument "toBlock is lower than fromBlock").
Proof.
  split; [|split].
  - apply (proj1 (@blocks_back_range (Sample.core 100) Sample.account
                    90 30 (Some 2) None None None None ltac:(lia)));
      unfold orDefault, DEFAULT_STEP; lia.
  - apply (proj1 (proj2 (@blocks_back_range (Sample.core 100) Sample.account
                           90 91 None None None None None ltac:(lia)))); lia.
  - apply (proj2 (proj2 (@blocks_back_range (Sample.core 100) Sample.account
                           90 (-1) None None None None None ltac:(lia)))); lia.
Defined.

(** X4.  With no truthy [blocks], a back specifier in days is turned into a
    timestamp by integer arithmetic and resolved by the timestamp lookup at
    any instant, whereas a back specifier in seconds first converts the
    quotient [Date.now() / 1000] to a bigint: it reaches the lookup only
    when the clock stands on a whole second and throws a [RangeError]
    otherwise. *)
Theorem seconds_back_needs_a_whole_second (core : Core.t)
  (blocks : option Z) (start : Z) :
  truthy blocks = false ->
  (forall days seconds,
      days <> 0 ->
      toBackBlock core
        (Some (BackArgumentType.mk blocks (Some days) seconds)) start
      = Core.getLatestBlockToTimestamp core
          (Z.quot (Core.now core - days * 86400000) 1000))
  /\ (forall days seconds,
      truthy days = false -> seconds <> 0 ->
      (Core.now core mod 1000 <> 0 ->
       toBackBlock core
         (Some (BackArgumentType.mk blocks days (Some seconds))) start
       = Err RangeError)
      /\ (Core.now core mod 1000 = 0 ->
          toBackBlock core
            (Some (BackArgumentType.mk blocks days (Some seconds))) start
          = Core.getLatestBlockToTimestamp core
              (Core.now core / 1000 - seconds))).
Proof.
  intros Hblocks.
  assert (forall X (a : Z -> X) (b : X), ifTruthy blocks a b = b) as Hskip.
  { intros X a b. unfold ifTruthy, truthy in *.
    destruct blocks as [n|]; [|reflexivity].
    destruct (n =? 0); [reflexivity | discriminate Hblocks]. }
  split.
  - intros days seconds Hd. unfold toBackBlock. simpl. rewrite Hskip.
    unfold ifTruthy. apply Z.eqb_neq in Hd. rewrite Hd. reflexivity.
  - intros days seconds Hdays Hs.
    assert (forall X (a : Z -> X) (b : X), ifTruthy days a b = b) as Hskip'.
    { intros X a b. unfold ifTruthy, truthy in *.
      destruct days as [n|]; [|reflexivity].
      destruct (n =? 0); [reflexivity | discriminate Hdays]. }
    unfold toBackBlock. simpl. rewrite Hskip, Hskip'.
    unfold ifTruthy, BigIntOfDivision. apply Z.eqb_neq in Hs. rewrite Hs.
    split; intros Hnow.
    + apply Z.eqb_neq in Hnow. rewrite Hnow. reflexivity.
    + apply Z.eqb_eq in Hnow. rewrite Hnow. reflexivity.
Qed.

Lemma seconds_back_needs_a_whole_second_witness :
  toBackBlock (Sample.core 100)
    (Some (BackArgumentType.mk (Some 0) None (Some 3600))) 90
  = Err RangeError
  /\ toBackBlock (Sample.core 100)
       (Some (BackArgumentType.mk (Some 0) (Some 1) (Some 3600))) 90
     = Ok 141659466.
Proof.
  destruct (seconds_back_needs_a_whole_second (Sample.core 100) (Some 0) 90
              eq_refl) as [Hdays Hseconds].
  split.
  - apply (proj1 (Hseconds None 3600 eq_refl ltac:(lia))).
    vm_compute. discriminate.
  - rewrite (Hdays 1 (Some 3600) ltac:(lia)). vm_compute. reflexivity.
Defined.

(** ** How a query ends *)

Lemma mapM_throws (S A B : Type) (f : A -> M S B) (err : Error) :
  forall l,
    (forall x, In x l -> forall s,
        f x s = Err err \/ exists r s', f x s = Ok (r, s')) ->
    Exists (fun x => forall s, f x s = Err err) l ->
    forall s, mapM f l s = Err err.
Proof.
  induction l as [|x l IH]; intros Hall Hex s.
  - inversion Hex.
  - simpl. unfold bind.
    destruct (Hall x (or_introl eq_refl) s) as [Hx|(r & s1 & Hx)].
    + rewrite Hx. reflexivity.
    + rewrite Hx.
      inversion Hex as [? ? Hhere|? ? Hlater]; subst.
      * rewrite Hhere in Hx. discriminate Hx.
      * rewrite (IH (fun y Hy => Hall y (or_intror Hy)) Hlater s1).
        reflexivity.
Qed.

Lemma forallb_false_Exists (A : Type) (f : A -> bool) (l : list A) :
  forallb f l = false -> Exists (fun x => f x = false) l.
Proof.
  induction l as [|x l IH]; simpl; [discriminate|].
  destruct (f x) eqn:Hx; simpl; intros Hl.
  - apply Exists_cons_tl, IH, Hl.
  - apply Exists_cons_hd, Hx.
Qed.

Section Outcomes.
Context `{imports : Imports}.

Lemma chain_callback_recognised (address queue : Address) (e : Chain.Event.t) :
  (chainRecognised e = true ->
   forall st, exists r st', Chain.callback address queue e st = Ok (r, st'))
  /\ (chainRecognised e = false ->
      forall st,
        Chain.callback address queue e st
        = Err (InvariantFailed "Impossible event")).
Proof.
  unfold chainRecognised.
  destruct (Chain.Event.args e) as [from to v|pe ps|name] eqn:Hargs;
    split; try discriminate; intros _ st.
  - erewrite chain_step_transfer by exact Hargs. eauto.
  - erewrite chain_step_rebase by exact Hargs. eauto.
  - erewrite chain_step_other by exact Hargs. reflexivity.
Qed.

Lemma subgraph_callback_recognised (address queue : Address)
  (e : Subgraph.Event) :
  (subgraphRecognised e = true ->
   forall st, exists r st', Subgraph.callback address queue e st = Ok (r, st'))
  /\ (subgraphRecognised e = false ->
      forall st,
        Subgraph.callback address queue e st
        = Err (InvariantFailed "impossible event")).
Proof.
  destruct e as [t|t|b i]; split; try discriminate; intros _ st.
  - rewrite subgraph_step_transfer. eauto.
  - rewrite subgraph_step_rebase. eauto.
  - reflexivity.
Qed.

Lemma Forall2_forallb (A B : Type) (f : A -> bool) (l : list A)
  (rs : list B) :
  Forall2 (fun x _ => f x = true) l rs -> forallb f l = true.
Proof.
  induction 1 as [|x r l rs Hx _ IH]; simpl; [reflexivity|].
  rewrite Hx, IH. reflexivity.
Qed.

Lemma filter_length_le (A : Type) (f : A -> bool) (l : list A) :
  (List.length (filter f l) <= List.length l)%nat.
Proof.
  induction l as [|x l IH]; simpl; [lia|]. destruct (f x); simpl; lia.
Qed.

Lemma chain_mapEvents_recognised (core : Core.t)
  (contract : Chain.Contract.t) (p : Parsed.t) rs st :
  Chain.mapEvents core contract p = Ok (rs, st) ->
  forallb chainRecognised (Chain.sortedEvents contract p) = true
  /\ List.length rs = List.length (Chain.sortedEvents contract p).
Proof.
  intros Hmap. unfold Chain.mapEvents in Hmap. split.
  - eapply Forall2_forallb with (rs := rs).
    eapply mapM_Forall2; [|exact Hmap].
    intros e s r s' Hstep. destruct (chainRecognised e) eqn:He; [reflexivity|].
    rewrite (proj2 (chain_callback_recognised _ _ e) He) in Hstep.
    discriminate Hstep.
  - symmetry. eapply Forall2_length with (R := fun _ _ => True).
    eapply mapM_Forall2; [|exact Hmap]. intros; exact I.
Qed.

Lemma subgraph_mapEvents_recognised (core : Core.t)
  (service : Subgraph.Service.t) (p : Parsed.t) rs st :
  Subgraph.mapEvents core service p = Ok (rs, st) ->
  forallb subgraphRecognised (Subgraph.sortedEvents service p) = true
  /\ List.length rs = List.length (Subgraph.sortedEvents service p).
Proof.
  intros Hmap. unfold Subgraph.mapEvents in Hmap. split.
  - eapply Forall2_forallb with (rs := rs).
    eapply mapM_Forall2; [|exact Hmap].
    intros e s r s' Hstep.
    destruct (subgraphRecognised e) eqn:He; [reflexivity|].
    rewrite (proj2 (subgraph_callback_recognised _ _ e) He) in Hstep.
    discriminate Hstep.
  - symmetry. eapply Forall2_length with (R := fun _ _ => True).
    eapply mapM_Forall2; [|exact Hmap]. intros; exact I.
Qed.

(** X5.  A chain query that returns a ledger has resolved its range and has
    met, among the merged logs of that range, only [TransferShares] and
    [TokenRebased] logs; the ledger carries the resolved bounds and no more
    records than there were logs.  One log of any other name anywhere in the
    range, and no ledger is returned, not even for the logs before it. *)
Theorem chain_ledger_means_every_log_recognised (core : Core.t)
  (contract : Chain.Contract.t) (props : Props.t) :
  (forall ledger,
      Chain.getRewardsFromChain core contract props = Ok ledger ->
      exists p,
        parseProps core props = Ok p
        /\ forallb chainRecognised (Chain.sortedEvents contract p) = true
        /\ Chain.Ledger.fromBlock ledger = Parsed.fromBlock p
        /\ Chain.Ledger.toBlock ledger = Parsed.toBlock p
        /\ (List.length (Chain.Ledger.rewards ledger)
            <= List.length (Chain.sortedEvents contract p))%nat)
  /\ (forall p,
      parseProps core props = Ok p ->
      forallb chainRecognised (Chain.sortedEvents contract p) = false ->
      forall ledger,
        Chain.getRewardsFromChain core contract props <> Ok ledger).
Proof.
  assert (forall ledger,
             Chain.getRewardsFromChain core contract props = Ok ledger ->
             exists p,
               parseProps core props = Ok p
               /\ forallb chainRecognised (Chain.sortedEvents contract p)
                  = true
               /\ Chain.Ledger.fromBlock ledger = Parsed.fromBlock p
               /\ Chain.Ledger.toBlock ledger = Parsed.toBlock p
               /\ (List.length (Chain.Ledger.rewards ledger)
                   <= List.length (Chain.sortedEvents contract p))%nat)
    as Hreturned.
  { intros ledger Hrun. apply chain_run_inv in Hrun.
    destruct Hrun as (p & rs & st & Hp & Hmap & ->).
    apply chain_mapEvents_recognised in Hmap. destruct Hmap as [Hknown Hlen].
    exists p. split; [exact Hp|]. split; [exact Hknown|]. simpl.
    split; [reflexivity|]. split; [reflexivity|].
    rewrite <- Hlen. unfold Chain.postFilter.
    destruct (negb (Parsed.includeOnlyRebases p)),
      (negb (Parsed.includeZeroRebases p));
      repeat (etransitivity; [apply filter_length_le|]); lia. }
  split; [exact Hreturned|].
  intros p Hp Hunknown ledger Hrun.
  destruct (Hreturned ledger Hrun) as (p' & Hp' & Hknown & _).
  assert (p' = p) as -> by congruence. congruence.
Qed.

(** X6.  A subgraph query that returns a ledger has resolved its range and
    has met, among the merged entities of the capped range, only transfers
    and rebases; the ledger starts at the resolved [fromBlock] and has no
    more records than there were entities.  One object that is neither, and
    no ledger is returned. *)
Theorem subgraph_ledger_means_every_entity_recognised (core : Core.t)
  (service : Subgraph.Service.t) (props : Props.t) :
  (forall ledger,
      Subgraph.getRewardsFromSubgraph core service props = Ok ledger ->
      exists p,
        parseProps core props = Ok p
        /\ forallb subgraphRecognised (Subgraph.sortedEvents service p) = true
        /\ Subgraph.Ledger.fromBlock ledger = Parsed.fromBlock p
        /\ (List.length (Subgraph.Ledger.rewards ledger)
            <= List.length (Subgraph.sortedEvents service p))%nat)
  /\ (forall p,
      parseProps core props = Ok p ->
      forallb subgraphRecognised (Subgraph.sortedEvents service p) = false ->
      forall ledger,
        Subgraph.getRewardsFromSubgraph core service props <> Ok ledger).
Proof.
  assert (forall ledger,
             Subgraph.getRewardsFromSubgraph core service props = Ok ledger ->
             exists p,
               parseProps core props = Ok p
               /\ forallb subgraphRecognised (Subgraph.sortedEvents service p)
                  = true
               /\ Subgraph.Ledger.fromBlock ledger = Parsed.fromBlock p
               /\ (List.length (Subgraph.Ledger.rewards ledger)
                   <= List.length (Subgraph.sortedEvents service p))%nat)
    as Hreturned.
  { intros ledger Hrun. unfold Subgraph.getRewardsFromSubgraph in Hrun.
    apply rbind_Ok_inv in Hrun. destruct Hrun as (p & Hp & Hrun).
    destruct (Subgraph.baseValues service p) as [[shares bal] rate].
    apply rbind_Ok_inv in Hrun. destruct Hrun as ([rs st] & Hmap & Hrun).
    injection Hrun as <-.
    apply subgraph_mapEvents_recognised in Hmap.
    destruct Hmap as [Hknown Hlen].
    exists p. split; [exact Hp|]. split; [exact Hknown|]. simpl.
    split; [reflexivity|].
    rewrite <- Hlen. unfold Subgraph.postFilter.
    destruct (negb (Parsed.includeOnlyRebases p)),
      (negb (Parsed.includeZeroRebases p));
      repeat (etransitivity; [apply filter_length_le|]); lia. }
  split; [exact Hreturned|].
  intros p Hp Hunknown ledger Hrun.
  destruct (Hreturned ledger Hrun) as (p' & Hp' & Hknown & _).
  assert (p' = p) as -> by congruence. congruence.
Qed.

End Outcomes.

Lemma chain_ledger_means_every_log_recognised_witness :
  (exists ledger,
      Chain.getRewardsFromChain (imports := specImports) (Sample.core 100)
        Sample.scenarioNode (Sample.range 15 40 None None) = Ok ledger
      /\ Chain.Ledger.fromBlock ledger = 15
      /\ Chain.Ledger.toBlock ledger = 40)
  /\ forall ledger,
       Chain.getRewardsFromChain (imports := specImports) (Sample.core 100)
         (Chain.Contract.mk (fun _ _ => 0) (fun _ => 1000) (fun _ => 10000)
            (fun f fromBlock toBlock =>
               Chain.Contract.getEvents_TransferShares Sample.scenarioNode f
                 fromBlock toBlock)
            (fun fromBlock toBlock =>
               Chain.Event.mk (Chain.OtherEvent "Approval") toBlock 9
                 :: Chain.Contract.getEvents_TokenRebased Sample.scenarioNode
                      fromBlock toBlock))
         (Sample.range 15 40 None None)
       <> Ok ledger.
Proof.
  split.
  - destruct (Chain.getRewardsFromChain (imports := specImports)
                (Sample.core 100) Sample.scenarioNode
                (Sample.range 15 40 None None))
      as [ledger|e] eqn:Hrun; [|vm_compute in Hrun; discriminate Hrun].
    destruct (proj1 (chain_ledger_means_every_log_recognised
                       (imports := specImports) (Sample.core 100)
                       Sample.scenarioNode (Sample.range 15 40 None None))
                ledger Hrun) as (p & Hp & _ & Hfrom & Hto & _).
    vm_compute in Hp. injection Hp as <-.
    exists ledger. split; [reflexivity|]. split; assumption.
  - refine (proj2 (chain_ledger_means_every_log_recognised
                     (imports := specImports) (Sample.core 100) _
                     (Sample.range 15 40 None None))
              (Parsed.mk Sample.account 15 40 7 false false) eq_refl _).
    vm_compute. reflexivity.
Defined.

Lemma subgraph_ledger_means_every_entity_recognised_witness :
  (exists ledger,
      Subgraph.getRewardsFromSubgraph (imports := specImports)
        (Sample.core 100) (Sample.scenarioIndex 100)
        (Sample.range 3 40 None None) = Ok ledger
      /\ Subgraph.Ledger.fromBlock ledger = 3)
  /\ forall ledger,
       Subgraph.getRewardsFromSubgraph (imports := specImports)
         (Sample.core 100)
         (Sample.index 100 [Subgraph.Transfer Sample.submitEntity]
            [Subgraph.OtherEntity 30 1] None None)
         (Sample.range 3 40 None None)
       <> Ok ledger.
Proof.
  split.
  - destruct (Subgraph.getRewardsFromSubgraph (imports := specImports)
                (Sample.core 100) (Sample.scenarioIndex 100)
                (Sample.range 3 40 None None))
      as [ledger|e] eqn:Hrun; [|vm_compute in Hrun; discriminate Hrun].
    destruct (proj1 (subgraph_ledger_means_every_entity_recognised
                       (imports := specImports) (Sample.core 100)
                       (Sample.scenarioIndex 100)
                       (Sample.range 3 40 None None))
                ledger Hrun) as (p & Hp & _ & Hfrom & _).
    vm_compute in Hp. injection Hp as <-.
    exists ledger. split; [reflexivity | exact Hfrom].
  - refine (proj2 (subgraph_ledger_means_every_entity_recognised
                     (imports := specImports) (Sample.core 100) _
                     (Sample.range 3 40 None None))
              (Parsed.mk Sample.account 3 40 7 false false) eq_refl _).
    vm_compute. reflexivity.
Defined.

(** ** The merge loses and invents nothing *)

Section Completeness.
Context `{imports : Imports}.

Lemma chain_sortedEvents_streams (contract : Chain.Contract.t) (p : Parsed.t) :
  Permutation (chainStreams contract p) (Chain.sortedEvents contract p).
Proof. unfold Chain.sortedEvents, chainStreams. apply sort_permutation. Qed.

Lemma subgraph_sortedEvents_streams (service : Subgraph.Service.t)
  (p : Parsed.t) :
  Permutation (subgraphStreams service p (Subgraph.cappedToBlock service p))
    (Subgraph.sortedEvents service p).
Proof.
  unfold Subgraph.sortedEvents, subgraphStreams. apply sort_permutation.
Qed.

(** X7.  On both paths the original events of the returned records all come
    from the fetched streams, and with both flags set they are exactly the
    fetched streams rearranged: every fetched event yields one record, none
    is lost or merged, and an event fetched twice yields two records. *)
Theorem records_cover_the_fetched_streams (core : Core.t)
  (contract : Chain.Contract.t) (service : Subgraph.Service.t)
  (props : Props.t) (p : Parsed.t) :
  parseProps core props = Ok p ->
  (forall ledger,
      Chain.getRewardsFromChain core contract props = Ok ledger ->
      Forall (fun r => In (Reward.originalEvent r) (chainStreams contract p))
        (Chain.Ledger.rewards ledger)
      /\ (Parsed.includeZeroRebases p = true ->
          Parsed.includeOnlyRebases p = true ->
          Permutation (chainStreams contract p)
            (map (@Reward.originalEvent _ _) (Chain.Ledger.rewards ledger))))
  /\ (forall ledger,
      Subgraph.getRewardsFromSubgraph core service props = Ok ledger ->
      let streams :=
        subgraphStreams service p (Subgraph.Ledger.toBlock ledger) in
      Forall (fun r => In (Reward.originalEvent r) streams)
        (Subgraph.Ledger.rewards ledger)
      /\ (Parsed.includeZeroRebases p = true ->
          Parsed.includeOnlyRebases p = true ->
          Permutation streams
            (map (@Reward.originalEvent _ _)
               (Subgraph.Ledger.rewards ledger)))).
Proof.
  intros Hp. split; intros ledger Hrun.
  - apply chain_run_inv in Hrun.
    destruct Hrun as (p' & rs & st & Hp' & Hmap & ->).
    assert (p' = p) as -> by congruence. simpl.
    apply chain_mapEvents_originalEvents in Hmap.
    pose proof (chain_sortedEvents_streams contract p) as Hperm.
    rewrite <- Hmap in Hperm.
    assert (Forall (fun r => In (Reward.originalEvent r)
                               (chainStreams contract p)) rs) as Hall.
    { apply Forall_forall. intros r Hr.
      eapply Permutation_in; [symmetry; exact Hperm|].
      apply in_map, Hr. }
    split.
    + rewrite chain_postFilter_spec.
      destruct (Parsed.includeOnlyRebases p);
        [|apply Forall_filter_keep]; apply Forall_dropZeroRebases; exact Hall.
    + intros -> ->. exact Hperm.
  - apply subgraph_run_inv in Hrun.
    destruct Hrun as (p' & rs & st & Hp' & Hmap & Hrew & _ & _ & Hto & _).
    assert (p' = p) as -> by congruence.
    intros streams. unfold streams. rewrite Hto, Hrew.
    apply subgraph_mapEvents_originalEvents in Hmap.
    pose proof (subgraph_sortedEvents_streams service p) as Hperm.
    rewrite <- Hmap in Hperm.
    assert (Forall (fun r => In (Reward.originalEvent r)
                               (subgraphStreams service p
                                  (Subgraph.cappedToBlock service p))) rs)
      as Hall.
    { apply Forall_forall. intros r Hr.
      eapply Permutation_in; [symmetry; exact Hperm|].
      apply in_map, Hr. }
    split.
    + rewrite subgraph_postFilter_spec.
      destruct (Parsed.includeOnlyRebases p);
        [|apply Forall_filter_keep]; apply Forall_dropZeroRebases; exact Hall.
    + intros -> ->. exact Hperm.
Qed.

(** ** The [includeZeroRebases] filter *)

Lemma Forall_notZeroRebase (R E : Type) (rs : list (Reward.t R E)) :
  Forall (fun r => Reward.type r = rebase -> Reward.change r <> 0)
    (filter notZeroRebase rs).
Proof.
  eapply Forall_impl; [|apply filter_Forall_true].
  intros r Hkeep Ht Hc.
  assert (notZeroRebase r = false) as Hdrop
      by (apply notZeroRebase_false; split; assumption).
  congruence.
Qed.

Lemma filter_isRebase_idem (R E : Type) (rs : list (Reward.t R E)) :
  filter isRebase (filter isRebase rs) = filter isRebase rs.
Proof.
  induction rs as [|r rs IH]; simpl; [reflexivity|].
  destruct (isRebase r) eqn:Hr; simpl; rewrite ?Hr, IH; reflexivity.
Qed.

(** X8.  On both paths, and whatever [includeOnlyRebases] says, of the
    records [events.map] made: with [includeZeroRebases] false (also the
    default) no returned record is a rebase whose [change] is zero, and the
    rebase records returned are the mapped ones with a [change] other than
    zero; with [includeZeroRebases] true every mapped rebase record is
    returned, in order, zero-change ones included. *)
Theorem includeZeroRebases_keeps_or_drops_idle_rebases (core : Core.t)
  (contract : Chain.Contract.t) (service : Subgraph.Service.t)
  (props : Props.t) (p : Parsed.t) :
  parseProps core props = Ok p ->
  (forall ledger,
      Chain.getRewardsFromChain core contract props = Ok ledger ->
      exists rs st,
        Chain.mapEvents core contract p = Ok (rs, st)
        /\ (Parsed.includeZeroRebases p = false ->
            Forall (fun r => Reward.type r = rebase -> Reward.change r <> 0)
              (Chain.Ledger.rewards ledger)
            /\ filter isRebase (Chain.Ledger.rewards ledger)
               = filter isRebase (filter notZeroRebase rs))
        /\ (Parsed.includeZeroRebases p = true ->
            filter isRebase (Chain.Ledger.rewards ledger)
            = filter isRebase rs))
  /\ (forall ledger,
      Subgraph.getRewardsFromSubgraph core service props = Ok ledger ->
      exists rs st,
        Subgraph.mapEvents core service p = Ok (rs, st)
        /\ (Parsed.includeZeroRebases p = false ->
            Forall (fun r => Reward.type r = rebase -> Reward.change r <> 0)
              (Subgraph.Ledger.rewards ledger)
            /\ filter isRebase (Subgraph.Ledger.rewards ledger)
               = filter isRebase (filter notZeroRebase rs))
        /\ (Parsed.includeZeroRebases p = true ->
            filter isRebase (Subgraph.Ledger.rewards ledger)
            = filter isRebase rs)).
Proof.
  intros Hp. split; intros ledger Hrun.
  - apply chain_run_inv in Hrun.
    destruct Hrun as (p' & rs & st & Hp' & Hmap & ->).
    assert (p' = p) as -> by congruence.
    exists rs, st. split; [exact Hmap|]. simpl.
    rewrite chain_postFilter_spec. split; intros ->; simpl.
    + split.
      * destruct (Parsed.includeOnlyRebases p);
          [|apply Forall_filter_keep]; apply Forall_notZeroRebase.
      * destruct (Parsed.includeOnlyRebases p);
          [reflexivity | apply filter_isRebase_idem].
    + destruct (Parsed.includeOnlyRebases p);
        [reflexivity | apply filter_isRebase_idem].
  - apply subgraph_run_inv in Hrun.
    destruct Hrun as (p' & rs & st & Hp' & Hmap & Hrew & _).
    assert (p' = p) as -> by congruence.
    exists rs, st. split; [exact Hmap|].
    rewrite Hrew, subgraph_postFilter_spec. split; intros ->; simpl.
    + split.
      * destruct (Parsed.includeOnlyRebases p);
          [|apply Forall_filter_keep]; apply Forall_notZeroRebase.
      * destruct (Parsed.includeOnlyRebases p);
          [reflexivity | apply filter_isRebase_idem].
    + destruct (Parsed.includeOnlyRebases p);
        [reflexivity | apply filter_isRebase_idem].
Qed.

End Completeness.

Lemma records_cover_the_fetched_streams_witness :
  exists ledger,
    Chain.getRewardsFromChain (imports := specImports) (Sample.core 100)
      (Sample.node 50 1000 10000
         [Sample.transferShares Sample.account Sample.account 7 20 0])
      (Sample.range 15 40 (Some true) (Some true)) = Ok ledger
    /\ Permutation
         (chainStreams (imports := specImports)
            (Sample.node 50 1000 10000
               [Sample.transferShares Sample.account Sample.account 7 20 0])
            (Parsed.mk Sample.account 15 40 7 true true))
         (map (@Reward.originalEvent _ _) (Chain.Ledger.rewards ledger))
    /\ List.length (Chain.Ledger.rewards ledger) = 2%nat.
Proof.
  destruct (Chain.getRewardsFromChain (imports := specImports)
              (Sample.core 100)
              (Sample.node 50 1000 10000
                 [Sample.transferShares Sample.account Sample.account 7 20 0])
              (Sample.range 15 40 (Some true) (Some true)))
    as [ledger|e] eqn:Hrun; [|vm_compute in Hrun; discriminate Hrun].
  exists ledger. split; [reflexivity|]. split.
  - apply (proj1 (records_cover_the_fetched_streams (imports := specImports)
                    (Sample.core 100) _ (Sample.scenarioIndex 25)
                    (Sample.range 15 40 (Some true) (Some true))
                    (p := Parsed.mk Sample.account 15 40 7 true true)
                    eq_refl) ledger Hrun); reflexivity.
  - vm_compute in Hrun. injection Hrun as <-. reflexivity.
Defined.

Lemma includeZeroRebases_keeps_or_drops_idle_rebases_witness :
  exists ledger rs st,
    Chain.getRewardsFromChain (imports := specImports) (Sample.core 100)
      (Sample.node 0 1000 10000
         (Sample.tokenRebased 1100 10000 31 0 :: Sample.scenarioLog))
      (Sample.range 15 40 (Some true) None) = Ok ledger
    /\ Chain.mapEvents (imports := specImports) (Sample.core 100)
         (Sample.node 0 1000 10000
            (Sample.tokenRebased 1100 10000 31 0 :: Sample.scenarioLog))
         (Parsed.mk Sample.account 15 40 7 true false)
       = Ok (rs, st)
    /\ filter isRebase (Chain.Ledger.rewards ledger) = filter isRebase rs
    /\ map (@Reward.change _ _) (Chain.Ledger.rewards ledger) = [1; 0].
Proof.
  destruct (Chain.getRewardsFromChain (imports := specImports)
              (Sample.core 100)
              (Sample.node 0 1000 10000
                 (Sample.tokenRebased 1100 10000 31 0 :: Sample.scenarioLog))
              (Sample.range 15 40 (Some true) None))
    as [ledger|e] eqn:Hrun; [|vm_compute in Hrun; discriminate Hrun].
  destruct (proj1 (includeZeroRebases_keeps_or_drops_idle_rebases
                     (imports := specImports)
                     (Sample.core 100) _ (Sample.scenarioIndex 25)
                     (Sample.range 15 40 (Some true) None)
                     (p := Parsed.mk Sample.account 15 40 7 true false)
                     eq_refl) ledger Hrun) as (rs & st & Hmap & _ & Hon).
  exists ledger, rs, st.
  split; [reflexivity|]. split; [exact Hmap|].
  split; [exact (Hon eq_refl)|].
  vm_compute in Hrun. injection Hrun as <-. reflexivity.
Defined.

(** ** Asset balances along the records *)

Lemma last_cons_default (l : list Z) (x d : Z) :
  last (x :: l) d = last l x.
Proof.
  revert x d. induction l as [|y l IH]; intros x d; [reflexivity|].
  change (last (y :: l) d = last (y :: l) x). rewrite !IH. reflexivity.
Qed.

Lemma lastBalance_cons (R E : Type) (r : Reward.t R E)
  (rs : list (Reward.t R E)) (prev : Z) :
  lastBalance prev (r :: rs) = lastBalance (Reward.balance r) rs.
Proof. unfold lastBalance. simpl map. apply last_cons_default. Qed.

Lemma balanceChained_filter (R E : Type) (P : Reward.t R E -> Prop)
  (keep : Reward.t R E -> bool) :
  forall (rs : list (Reward.t R E)) (prev : Z),
    balanceChained P prev rs ->
    Forall (fun r => keep r = false -> P r /\ Reward.change r = 0) rs ->
    balanceChained P prev (filter keep rs)
    /\ lastBalance prev (filter keep rs) = lastBalance prev rs.
Proof.
  induction rs as [|r rs IH]; intros prev Hchain Hdrop;
    [split; [exact I | reflexivity]|].
  destruct Hchain as [Hr Hrest]. inversion Hdrop as [|? ? Hd Hds]; subst.
  destruct (IH (Reward.balance r) Hrest Hds) as [IHc IHl].
  simpl filter. destruct (keep r) eqn:Hk.
  - split; [split; assumption|]. rewrite !lastBalance_cons. exact IHl.
  - destruct (Hd eq_refl) as [HP Hzero].
    assert (Reward.balance r = prev) as Hsame
        by (rewrite (Hr HP), Hzero; lia).
    rewrite lastBalance_cons. rewrite Hsame in IHc, IHl.
    rewrite Hsame. split; assumption.
Qed.

Lemma balanceChained_sum (R E : Type) (P : Reward.t R E -> Prop) :
  forall (rs : list (Reward.t R E)) (prev : Z),
    balanceChained P prev rs -> Forall P rs ->
    sumZ (map (@Reward.change R E) rs) = lastBalance prev rs - prev.
Proof.
  induction rs as [|r rs IH]; intros prev Hchain Hall;
    [unfold lastBalance; simpl; lia|].
  destruct Hchain as [Hr Hrest]. inversion Hall as [|? ? HP HPs]; subst.
  rewrite lastBalance_cons. simpl. rewrite (IH _ Hrest HPs), (Hr HP). lia.
Qed.

Lemma filter_all_true (A : Type) (f : A -> bool) (l : list A) :
  Forall (fun x => f x = true) l -> filter f l = l.
Proof.
  induction 1 as [|x l Hx Hl IH]; simpl; [reflexivity|].
  rewrite Hx, IH. reflexivity.
Qed.

Section BalanceChain.
Context `{imports : Imports}.

Lemma chain_fold_balanceChained (address wq : Address) :
  forall evs st rs st',
    mapM (Chain.callback address wq) evs st = Ok (rs, st') ->
    let current s :=
      Chain.getCurrentStethFromShares s (Chain.State.prevSharesBalance s) in
    balanceChained (fun r => Reward.type r = rebase) (current st) rs
    /\ lastBalance (current st) rs = current st'.
Proof.
  intros evs st rs st' Hrun current. revert evs st rs st' Hrun.
  apply (mapM_run_ind (Chain.callback address wq)
           (fun st _ rs st' =>
              balanceChained (fun r => Reward.type r = rebase) (current st) rs
              /\ lastBalance (current st) rs = current st')).
  - intros st. split; [exact I | reflexivity].
  - intros e evs st r s1 rs st' Hstep _ [IHc IHl].
    assert (Reward.balance r = current s1
            /\ (Reward.type r = rebase ->
                Reward.balance r = current st + Reward.change r)) as [Hb Hc].
    { destruct (Chain.Event.args e) as [from to v|pe ps|name] eqn:Hargs.
      - erewrite chain_step_transfer in Hstep by exact Hargs.
        injection Hstep as <- <-. simpl. split; [reflexivity|].
        intros Ht. exfalso.
        exact (chainTransferType_not_rebase _ _ _ _ Ht).
      - erewrite chain_step_rebase in Hstep by exact Hargs.
        injection Hstep as <- <-. unfold current. simpl.
        split; [reflexivity | intros _; lia].
      - erewrite chain_step_other in Hstep by exact Hargs.
        discriminate Hstep. }
    rewrite <- Hb in IHc, IHl. split; [split; assumption|].
    rewrite lastBalance_cons. exact IHl.
Qed.

Lemma subgraph_fold_balanceChained (address wq : Address) :
  forall evs st rs st',
    mapM (Subgraph.callback address wq) evs st = Ok (rs, st') ->
    balanceChained (fun r => Reward.type r = rebase)
      (Subgraph.State.prevBalance st) rs
    /\ lastBalance (Subgraph.State.prevBalance st) rs
       = Subgraph.State.prevBalance st'.
Proof.
  apply (mapM_run_ind (Subgraph.callback address wq)
           (fun st _ rs st' =>
              balanceChained (fun r => Reward.type r = rebase)
                (Subgraph.State.prevBalance st) rs
              /\ lastBalance (Subgraph.State.prevBalance st) rs
                 = Subgraph.State.prevBalance st')).
  - intros st. split; [exact I | reflexivity].
  - intros e evs st r s1 rs st' Hstep _ [IHc IHl].
    assert (Reward.balance r = Subgraph.State.prevBalance s1
            /\ (Reward.type r = rebase ->
                Reward.balance r
                = Subgraph.State.prevBalance st + Reward.change r))
      as [Hb Hc].
    { destruct e as [t|t|b i].
      - rewrite subgraph_step_transfer in Hstep.
        injection Hstep as <- <-. simpl. split; [reflexivity|].
        intros Ht. exfalso.
        exact (subgraphTransferType_not_rebase _ _ _ _ Ht).
      - rewrite subgraph_step_rebase in Hstep.
        injection Hstep as <- <-. simpl.
        split; [reflexivity | intros _; lia].
      - discriminate Hstep. }
    rewrite <- Hb in IHc, IHl. split; [split; assumption|].
    rewrite lastBalance_cons. exact IHl.
Qed.

Lemma subgraph_run_baseBalance (core : Core.t) (service : Subgraph.Service.t)
  (props : Props.t) (ledger : Subgraph.Ledger.t ShareRate) (p : Parsed.t) :
  parseProps core props = Ok p ->
  Subgraph.getRewardsFromSubgraph core service props = Ok ledger ->
  Subgraph.Ledger.baseBalance ledger
  = Subgraph.State.prevBalance (Subgraph.initialState service p).
Proof.
  unfold Subgraph.getRewardsFromSubgraph. intros Hp Hrun.
  rewrite Hp in Hrun. simpl in Hrun. unfold Subgraph.initialState.
  destruct (Subgraph.baseValues service p) as [[shares bal] rate] eqn:Hbase.
  apply rbind_Ok_inv in Hrun. destruct Hrun as ([rs st] & Hmap & Hrun).
  injection Hrun as <-. reflexivity.
Qed.

(** X9.  On both paths, when [includeOnlyRebases] is true: at every rebase
    record the [balance] is the [balance] of the preceding returned record
    ([baseBalance] for the first) plus the record's [change], so a reward is
    exactly the growth of the balance across the rebase; and when the
    returned sequence holds rebase records only, [totalRewards] is the last
    [balance] minus [baseBalance]. *)
Theorem rewards_are_balance_growth_across_rebases (core : Core.t)
  (contract : Chain.Contract.t) (service : Subgraph.Service.t)
  (props : Props.t) (p : Parsed.t) :
  parseProps core props = Ok p ->
  Parsed.includeOnlyRebases p = true ->
  (forall ledger,
      Chain.getRewardsFromChain core contract props = Ok ledger ->
      balanceChained (fun r => Reward.type r = rebase)
        (Chain.Ledger.baseBalance ledger) (Chain.Ledger.rewards ledger)
      /\ (Forall (fun r => Reward.type r = rebase)
            (Chain.Ledger.rewards ledger) ->
          Chain.Ledger.totalRewards ledger
          = lastBalance (Chain.Ledger.baseBalance ledger)
              (Chain.Ledger.rewards ledger)
            - Chain.Ledger.baseBalance ledger))
  /\ (forall ledger,
      Subgraph.getRewardsFromSubgraph core service props = Ok ledger ->
      balanceChained (fun r => Reward.type r = rebase)
        (Subgraph.Ledger.baseBalance ledger) (Subgraph.Ledger.rewards ledger)
      /\ (Forall (fun r => Reward.type r = rebase)
            (Subgraph.Ledger.rewards ledger) ->
          Subgraph.Ledger.totalRewards ledger
          = lastBalance (Subgraph.Ledger.baseBalance ledger)
              (Subgraph.Ledger.rewards ledger)
            - Subgraph.Ledger.baseBalance ledger)).
Proof.
  intros Hp Honly.
  assert (forall (E : Type) (z : bool) (prev : Z)
                 (rs : list (Reward.t ShareRate E)),
             balanceChained (fun r => Reward.type r = rebase) prev rs ->
             balanceChained (fun r => Reward.type r = rebase) prev
               (dropZeroRebases z rs)) as Hkeep.
  { intros E z prev rs Hchain. destruct z; simpl; [exact Hchain|].
    apply balanceChained_filter; [exact Hchain|].
    apply Forall_forall. intros r _ Hdrop.
    apply notZeroRebase_false in Hdrop. exact Hdrop. }
  assert (forall (E : Type) (z : bool) (prev total : Z)
                 (rs : list (Reward.t ShareRate E)),
             balanceChained (fun r => Reward.type r = rebase) prev rs ->
             total = sumZ (map (@Reward.change _ _) (filter isRebase rs)) ->
             Forall (fun r => Reward.type r = rebase) (dropZeroRebases z rs) ->
             total = lastBalance prev (dropZeroRebases z rs) - prev) as Htotal.
  { intros E z prev total rs Hchain -> Hall.
    rewrite <- balanceChained_sum
      with (P := fun r : Reward.t ShareRate E => Reward.type r = rebase)
      by (try apply Hkeep; assumption).
    assert (filter isRebase (dropZeroRebases z rs) = dropZeroRebases z rs)
      as Hsame.
    { apply filter_all_true. eapply Forall_impl; [|exact Hall].
      intros r Hr. apply isRebase_true. exact Hr. }
    rewrite <- Hsame at 1. destruct z; simpl; [reflexivity|].
    symmetry. apply sum_filter_notZeroRebase. }
  split; intros ledger Hrun.
  - apply chain_run_inv in Hrun.
    destruct Hrun as (p' & rs & st & Hp' & Hmap & ->).
    assert (p' = p) as -> by congruence. simpl.
    pose proof (chain_mapEvents_totalRewards _ _ _ Hmap) as Hsum.
    apply chain_fold_balanceChained in Hmap. destruct Hmap as [Hchain _].
    rewrite chain_postFilter_spec, Honly.
    split; [apply Hkeep, Hchain|].
    intros Hall. eapply Htotal; eassumption.
  - pose proof (subgraph_run_baseBalance _ _ _ Hp Hrun) as Hbase.
    apply subgraph_run_inv in Hrun.
    destruct Hrun as (p' & rs & st & Hp' & Hmap & Hrew & Htot & _).
    assert (p' = p) as -> by congruence.
    pose proof (subgraph_mapEvents_totalRewards _ _ _ Hmap) as Hsum.
    apply subgraph_fold_balanceChained in Hmap. destruct Hmap as [Hchain _].
    rewrite Hrew, Hbase, Htot, subgraph_postFilter_spec, Honly.
    split; [apply Hkeep, Hchain|].
    intros Hall. eapply Htotal; eassumption.
Qed.

End BalanceChain.

Lemma rewards_are_balance_growth_across_rebases_witness :
  exists ledger,
    Chain.getRewardsFromChain (imports := specImports) (Sample.core 100)
      (Sample.node 100 1000 10000 (syntheticRebases 10000 1000 [100; 250] 20))
      (Sample.range 15 40 None (Some true)) = Ok ledger
    /\ map (@Reward.balance _ _) (Chain.Ledger.rewards ledger) = [11; 13]
    /\ Chain.Ledger.baseBalance ledger = 10
    /\ Chain.Ledger.totalRewards ledger
       = lastBalance (Chain.Ledger.baseBalance ledger)
           (Chain.Ledger.rewards ledger)
         - Chain.Ledger.baseBalance ledger.
Proof.
  destruct (Chain.getRewardsFromChain (imports := specImports)
              (Sample.core 100)
              (Sample.node 100 1000 10000
                 (syntheticRebases 10000 1000 [100; 250] 20))
              (Sample.range 15 40 None (Some true)))
    as [ledger|e] eqn:Hrun; [|vm_compute in Hrun; discriminate Hrun].
  exists ledger. split; [reflexivity|].
  pose proof (proj1 (rewards_are_balance_growth_across_rebases
                       (imports := specImports) (Sample.core 100) _
                       (Sample.scenarioIndex 25)
                       (Sample.range 15 40 None (Some true))
                       (p := Parsed.mk Sample.account 15 40 7 false true)
                       eq_refl eq_refl) ledger Hrun) as [_ Htotal].
  vm_compute in Hrun. injection Hrun as <-.
  split; [reflexivity|]. split; [reflexivity|].
  apply Htotal. repeat constructor.
Defined.

(** ** The upper bound of a subgraph query *)

Lemma resolved_range_ordered (core : Core.t) (props : Props.t) (p : Parsed.t) :
  parseProps core props = Ok p -> Parsed.fromBlock p <= Parsed.toBlock p.
Proof. intros Hp. apply (parseProps_fields _ _ Hp). Qed.

(** X10.  The [toBlock] of a subgraph ledger is the smaller of the requested
    [toBlock] and the last indexed block, and both streams are fetched up to
    it.  A request within the indexed range is not capped.  When the index
    has not even reached [fromBlock], the query raises no error for that:
    the ledger it returns has [toBlock] below [fromBlock]. *)
Theorem subgraph_toBlock_is_the_smaller_bound `{imports : Imports}
  (core : Core.t) (service : Subgraph.Service.t) (props : Props.t)
  (p : Parsed.t) (ledger : Subgraph.Ledger.t ShareRate) :
  parseProps core props = Ok p ->
  Subgraph.getRewardsFromSubgraph core service props = Ok ledger ->
  let lastIndexed := Subgraph.Service.getLastIndexedBlock service in
  Subgraph.Ledger.toBlock ledger = Z.min (Parsed.toBlock p) lastIndexed
  /\ Subgraph.sortedEvents service p
     = sort Subgraph.compareEvents
         (subgraphStreams service p (Subgraph.Ledger.toBlock ledger))
  /\ (Parsed.toBlock p <= lastIndexed ->
      Subgraph.Ledger.toBlock ledger = Parsed.toBlock p)
  /\ (lastIndexed < Parsed.fromBlock p ->
      Subgraph.Ledger.toBlock ledger < Subgraph.Ledger.fromBlock ledger).
Proof.
  intros Hp Hrun lastIndexed.
  assert (Subgraph.Ledger.fromBlock ledger = Parsed.fromBlock p) as Hfrom.
  { unfold Subgraph.getRewardsFromSubgraph in Hrun. rewrite Hp in Hrun.
    simpl in Hrun.
    destruct (Subgraph.baseValues service p) as [[shares bal] rate].
    apply rbind_Ok_inv in Hrun. destruct Hrun as ([rs st] & _ & Hrun).
    injection Hrun as <-. reflexivity. }
  pose proof (resolved_range_ordered core props Hp) as Hle.
  apply subgraph_run_inv in Hrun.
  destruct Hrun as (p' & rs & st & Hp' & _ & _ & _ & _ & Hto & _).
  assert (p' = p) as -> by congruence.
  assert (Subgraph.cappedToBlock service p
          = Z.min (Parsed.toBlock p) lastIndexed) as Hcap.
  { unfold Subgraph.cappedToBlock. fold lastIndexed.
    destruct (lastIndexed <? Parsed.toBlock p) eqn:Hlt; lia. }
  rewrite Hto, Hfrom, Hcap. repeat split; try lia.
  unfold Subgraph.sortedEvents, subgraphStreams. rewrite Hcap. reflexivity.
Qed.

Lemma subgraph_toBlock_is_the_smaller_bound_witness :
  exists ledger,
    Subgraph.getRewardsFromSubgraph (imports := specImports) (Sample.core 100)
      (Sample.scenarioIndex 12) (Sample.range 15 40 None None) = Ok ledger
    /\ Subgraph.Ledger.fromBlock ledger = 15
    /\ Subgraph.Ledger.toBlock ledger = 12
    /\ Subgraph.Ledger.toBlock ledger < Subgraph.Ledger.fromBlock ledger.
Proof.
  destruct (Subgraph.getRewardsFromSubgraph (imports := specImports)
              (Sample.core 100) (Sample.scenarioIndex 12)
              (Sample.range 15 40 None None))
    as [ledger|e] eqn:Hrun; [|vm_compute in Hrun; discriminate Hrun].
  exists ledger. split; [reflexivity|].
  destruct (subgraph_toBlock_is_the_smaller_bound (imports := specImports)
              (Sample.core 100) (Sample.scenarioIndex 12)
              (Sample.range 15 40 None None)
              (p := Parsed.mk Sample.account 15 40 7 false false)
              eq_refl Hrun) as (Hmin & _ & _ & Hbelow).
  split; [|split].
  - vm_compute in Hrun. injection Hrun as <-. reflexivity.
  - rewrite Hmin. reflexivity.
  - apply Hbelow. simpl. lia.
Defined.

(** ** Withdrawal requests: claimable, pending, claimed *)

Section WithdrawInfo.
Variable views : Withdraw.Views.t.

Local Abbreviation amount := Withdraw.RequestStatusWithId.amountOfStETH.
Local Abbreviation ident := Withdraw.RequestStatusWithId.id.

Lemma collect_fold (test : Withdraw.RequestStatusWithId.t -> bool) :
  forall (requests : list Withdraw.RequestStatusWithId.t)
         (acc : Withdraw.Totals.t),
    fold_left (Withdraw.collect test) requests acc
    = Withdraw.Totals.mk
        (Withdraw.Totals.requests acc ++ filter test requests)
        (Withdraw.Totals.amountStETH acc
         + sumZ (map amount (filter test requests))).
Proof.
  induction requests as [|r rs IH]; intros [accRequests accAmount]; simpl.
  - rewrite app_nil_r, Z.add_0_r. reflexivity.
  - rewrite IH. unfold Withdraw.collect. destruct (test r); simpl.
    + rewrite <- app_assoc. simpl. f_equal. lia.
    + reflexivity.
Qed.

Lemma sumEth_sumZ (l : list Z) : Withdraw.sumEth l = sumZ l.
Proof.
  unfold Withdraw.sumEth.
  assert (forall acc, fold_left (fun a eth => a + eth) l acc = acc + sumZ l)
    as Hgen.
  { induction l as [|x l IH]; intros acc; simpl; [lia|]. rewrite IH. lia. }
  rewrite Hgen. lia.
Qed.

Lemma info_of_fetched_requests (account : Address)
  (requests : list Withdraw.RequestStatusWithId.t) :
  Withdraw.getWithdrawalRequestsStatus views account = Ok requests ->
  Withdraw.getClaimableRequestsInfo views account
  = Ok (Withdraw.Totals.mk (filter Withdraw.isClaimable requests)
          (sumZ (map amount (filter Withdraw.isClaimable requests))))
  /\ Withdraw.getPendingRequestsInfo views account
     = Ok (Withdraw.Totals.mk (filter Withdraw.isPending requests)
             (sumZ (map amount (filter Withdraw.isPending requests)))).
Proof.
  intros Hstatus.
  unfold Withdraw.getClaimableRequestsInfo, Withdraw.getPendingRequestsInfo.
  rewrite Hstatus. simpl. rewrite !collect_fold. simpl. split; reflexivity.
Qed.

(** X11.  When the statuses of an account's requests are fetched, the
    claimable info lists, in the order they were fetched, exactly the
    requests that are finalized and not claimed, with the sum of their
    amounts; the pending info does the same for the requests that are
    neither finalized nor claimed.  When the statuses cannot be fetched,
    both fail with the error of the fetch. *)
Theorem claimable_and_pending_info_select_and_sum (account : Address) :
  (forall requests,
      Withdraw.getWithdrawalRequestsStatus views account = Ok requests ->
      Withdraw.getClaimableRequestsInfo views account
      = Ok (Withdraw.Totals.mk (filter Withdraw.isClaimable requests)
              (sumZ (map amount (filter Withdraw.isClaimable requests))))
      /\ Withdraw.getPendingRequestsInfo views account
         = Ok (Withdraw.Totals.mk (filter Withdraw.isPending requests)
                 (sumZ (map amount (filter Withdraw.isPending requests)))))
  /\ (forall e,
      Withdraw.getWithdrawalRequestsStatus views account = Err e ->
      Withdraw.getClaimableRequestsInfo views account = Err e
      /\ Withdraw.getPendingRequestsInfo views account = Err e).
Proof.
  split.
  - intros requests Hstatus. apply info_of_fetched_requests, Hstatus.
  - intros e Hstatus.
    unfold Withdraw.getClaimableRequestsInfo, Withdraw.getPendingRequestsInfo.
    rewrite Hstatus. split; reflexivity.
Qed.

Lemma request_in_one_class (r : Withdraw.RequestStatusWithId.t) :
  (Withdraw.isClaimable r = true
   /\ Withdraw.isPending r = false
   /\ Withdraw.RequestStatusWithId.isClaimed r = false)
  \/ (Withdraw.isClaimable r = false
      /\ Withdraw.isPending r = true
      /\ Withdraw.RequestStatusWithId.isClaimed r = false)
  \/ (Withdraw.isClaimable r = false
      /\ Withdraw.isPending r = false
      /\ Withdraw.RequestStatusWithId.isClaimed r = true).
Proof.
  unfold Withdraw.isClaimable, Withdraw.isPending.
  destruct (Withdraw.RequestStatusWithId.isFinalized r),
    (Withdraw.RequestStatusWithId.isClaimed r); simpl; auto.
Qed.

Lemma three_way_split (requests : list Withdraw.RequestStatusWithId.t) :
  (List.length (filter Withdraw.isClaimable requests)
   + List.length (filter Withdraw.isPending requests)
   + List.length (filter Withdraw.RequestStatusWithId.isClaimed requests)
   = List.length requests)%nat
  /\ sumZ (map amount (filter Withdraw.isClaimable requests))
     + sumZ (map amount (filter Withdraw.isPending requests))
     + sumZ (map amount
               (filter Withdraw.RequestStatusWithId.isClaimed requests))
     = sumZ (map amount requests).
Proof.
  induction requests as [|r rs [IHn IHs]]; simpl; [split; reflexivity|].
  destruct (request_in_one_class r)
    as [(-> & -> & ->)|[(-> & -> & ->)|(-> & -> & ->)]];
    simpl; split; lia.
Qed.

(** X12.  In the info of an account's withdrawal requests every fetched
    request falls in exactly one of three classes: listed as claimable,
    listed as pending, or already claimed and listed in neither (the views
    answering the three fetches of the statuses alike).  No request is
    listed in both, the three classes together count every request once,
    and the claimable amount, the pending amount and the claimed amounts add
    up to the amount of all requests. *)
Theorem withdrawal_requests_fall_in_one_class (account : Address)
  (info : Withdraw.Info.t) :
  Withdraw.getWithdrawalRequestsInfo views account = Ok info ->
  exists requests,
    Withdraw.getWithdrawalRequestsStatus views account = Ok requests
    /\ Withdraw.ClaimableETH.requests (Withdraw.Info.claimableETH info)
       = Some requests
    /\ let claimable :=
         Withdraw.Totals.requests (Withdraw.Info.claimableInfo info) in
       let pending :=
         Withdraw.Totals.requests (Withdraw.Info.pendingInfo info) in
       (forall r,
           In r requests ->
           (In r claimable /\ ~ In r pending
            /\ Withdraw.RequestStatusWithId.isClaimed r = false)
           \/ (~ In r claimable /\ In r pending
               /\ Withdraw.RequestStatusWithId.isClaimed r = false)
           \/ (~ In r claimable /\ ~ In r pending
               /\ Withdraw.RequestStatusWithId.isClaimed r = true))
       /\ (forall r, In r claimable \/ In r pending -> In r requests)
       /\ (List.length claimable + List.length pending
           + List.length
               (filter Withdraw.RequestStatusWithId.isClaimed requests)
           = List.length requests)%nat
       /\ Withdraw.Totals.amountStETH (Withdraw.Info.claimableInfo info)
          + Withdraw.Totals.amountStETH (Withdraw.Info.pendingInfo info)
          + sumZ (map amount
                    (filter Withdraw.RequestStatusWithId.isClaimed requests))
          = sumZ (map amount requests).
Proof.
  unfold Withdraw.getWithdrawalRequestsInfo. intros Hinfo.
  apply rbind_Ok_inv in Hinfo. destruct Hinfo as (cl & Hcl & Hinfo).
  apply rbind_Ok_inv in Hinfo. destruct Hinfo as (eth & Heth & Hinfo).
  apply rbind_Ok_inv in Hinfo. destruct Hinfo as (pe & Hpe & Hinfo).
  injection Hinfo as <-. simpl.
  destruct (Withdraw.getWithdrawalRequestsStatus views account)
    as [requests|e] eqn:Hstatus.
  2:{ unfold Withdraw.getClaimableRequestsInfo in Hcl.
      rewrite Hstatus in Hcl. discriminate Hcl. }
  destruct (info_of_fetched_requests account Hstatus) as [Hcl' Hpe'].
  rewrite Hcl' in Hcl. rewrite Hpe' in Hpe.
  injection Hcl as <-. injection Hpe as <-. simpl.
  exists requests. split; [reflexivity|]. split.
  - unfold Withdraw.getClaimableRequestsETHByAccount in Heth.
    rewrite Hstatus in Heth. simpl in Heth.
    apply rbind_Ok_inv in Heth. destruct Heth as ([[a b] c] & _ & Heth).
    injection Heth as <-. reflexivity.
  - split; [|split; [|apply three_way_split]].
    + intros r Hr. rewrite !filter_In.
      destruct (request_in_one_class r)
        as [(Hc & Hp & Hd)|[(Hc & Hp & Hd)|(Hc & Hp & Hd)]].
      * left. repeat split; try assumption. intros [_ Hp']. congruence.
      * right. left. repeat split; try assumption.
        intros [_ Hc']. congruence.
      * right. right. repeat split; try assumption.
        -- intros [_ Hc']. congruence.
        -- intros [_ Hp']. congruence.
    + intros r [Hr|Hr]; apply filter_In in Hr; apply Hr.
Qed.

End WithdrawInfo.

Lemma claimable_and_pending_info_select_and_sum_witness :
  Withdraw.getClaimableRequestsInfo SampleQueue.views Sample.account
  = Ok (Withdraw.Totals.mk
          [Withdraw.RequestStatusWithId.mk 7 100 true false] 100)
  /\ Withdraw.getPendingRequestsInfo SampleQueue.views Sample.account
     = Ok (Withdraw.Totals.mk
             [Withdraw.RequestStatusWithId.mk 3 40 false false] 40).
Proof.
  exact (proj1 (claimable_and_pending_info_select_and_sum SampleQueue.views
                  Sample.account) SampleQueue.requests eq_refl).
Defined.

Lemma withdrawal_requests_fall_in_one_class_witness :
  exists info requests,
    Withdraw.getWithdrawalRequestsInfo SampleQueue.views Sample.account
    = Ok info
    /\ Withdraw.getWithdrawalRequestsStatus SampleQueue.views Sample.account
       = Ok requests
    /\ Withdraw.Totals.amountStETH (Withdraw.Info.claimableInfo info)
       + Withdraw.Totals.amountStETH (Withdraw.Info.pendingInfo info)
       + sumZ (map Withdraw.RequestStatusWithId.amountOfStETH
                 (filter Withdraw.RequestStatusWithId.isClaimed requests))
       = sumZ (map Withdraw.RequestStatusWithId.amountOfStETH requests).
Proof.
  destruct (Withdraw.getWithdrawalRequestsInfo SampleQueue.views
              Sample.account) as [info|e] eqn:Hinfo;
    [|vm_compute in Hinfo; discriminate Hinfo].
  destruct (withdrawal_requests_fall_in_one_class SampleQueue.views
              Sample.account Hinfo)
    as (requests & Hstatus & _ & _ & _ & _ & Hsum).
  exists info, requests. repeat split; assumption.
Defined.

(** ** Claimable ether by account and by ids *)

Lemma sort_map (A B : Type) (cmpA : A -> A -> Z) (cmpB : B -> B -> Z)
  (g : A -> B) :
  (forall x y, cmpB (g x) (g y) = cmpA x y) ->
  forall l, sort cmpB (map g l) = map g (sort cmpA l).
Proof.
  intros Hcmp.
  assert (forall x l, insert cmpB (g x) (map g l) = map g (insert cmpA x l))
    as Hinsert.
  { intros x l. induction l as [|y l IH]; simpl; [reflexivity|].
    rewrite Hcmp. destruct (cmpA x y <=? 0); simpl; [reflexivity|].
    rewrite IH. reflexivity. }
  induction l as [|x l IH]; simpl; [reflexivity|].
  rewrite IH, Hinsert. reflexivity.
Qed.

Lemma compareIds_sorted (ids : list Z) :
  StronglySorted Z.le (sort Withdraw.compareIds ids).
Proof.
  apply sort_sorted; unfold Withdraw.compareIds.
  - intros x y. destruct (x >? y) eqn:H; lia.
  - intros x y. destruct (x >? y) eqn:H; lia.
  - intros x y z. lia.
Qed.

Lemma StronglySorted_le_NoDup_lt (l : list Z) :
  NoDup l -> StronglySorted Z.le l -> StronglySorted Z.lt l.
Proof.
  induction l as [|x l IH]; intros Hnd Hs; [constructor|].
  inversion Hnd as [|? ? Hx Hl]; subst.
  inversion Hs as [|? ? Hs' Hall]; subst.
  constructor; [apply IH; assumption|].
  rewrite Forall_forall in *. intros y Hy.
  specialize (Hall y Hy).
  assert (x <> y) by (intros ->; exact (Hx Hy)). lia.
Qed.

Section ClaimableEther.
Variable views : Withdraw.Views.t.

Local Abbreviation ident := Withdraw.RequestStatusWithId.id.

(** X13.  What [getClaimableRequestsETHByAccount] returns covers every
    request of the account, claimable or not: [requests] is the fetched
    list in its own order, while [sortedIds] holds the same ids rearranged,
    in strictly ascending order when no id occurs twice; [hints] and
    [ethByRequests] are what the queue answered for [sortedIds], so they
    are aligned with [sortedIds], not with [requests]; and [ethSum] is the
    sum of [ethByRequests]. *)
Theorem claimable_ether_by_account_is_by_sorted_ids (account : Address)
  (result : Withdraw.ClaimableETH.t) :
  Withdraw.getClaimableRequestsETHByAccount views account = Ok result ->
  exists requests sortedIds lastIndex,
    Withdraw.getWithdrawalRequestsStatus views account = Ok requests
    /\ Withdraw.ClaimableETH.requests result = Some requests
    /\ Withdraw.ClaimableETH.sortedIds result = Some sortedIds
    /\ Permutation (map ident requests) sortedIds
    /\ (NoDup (map ident requests) -> StronglySorted Z.lt sortedIds)
    /\ Withdraw.Views.getLastCheckpointIndex views = Ok lastIndex
    /\ Withdraw.Views.findCheckpointHints views sortedIds lastIndex
       = Ok (Withdraw.ClaimableETH.hints result)
    /\ Withdraw.Views.getClaimableEther views sortedIds
         (Withdraw.ClaimableETH.hints result)
       = Ok (Withdraw.ClaimableETH.ethByRequests result)
    /\ Withdraw.ClaimableETH.ethSum result
       = sumZ (Withdraw.ClaimableETH.ethByRequests result).
Proof.
  unfold Withdraw.getClaimableRequestsETHByAccount. intros Hrun.
  apply rbind_Ok_inv in Hrun. destruct Hrun as (requests & Hstatus & Hrun).
  apply rbind_Ok_inv in Hrun. destruct Hrun as ([[eth total] hints] & Hof & Hrun).
  injection Hrun as <-. simpl.
  unfold Withdraw.claimableEtherOf in Hof.
  apply rbind_Ok_inv in Hof. destruct Hof as (lastIndex & Hlast & Hof).
  apply rbind_Ok_inv in Hof. destruct Hof as (hints' & Hhints & Hof).
  apply rbind_Ok_inv in Hof. destruct Hof as (eth' & Heth & Hof).
  injection Hof as <- <- <-.
  exists requests, (sort Withdraw.compareIds (map ident requests)), lastIndex.
  repeat split; try assumption.
  - apply sort_permutation.
  - intros Hnd. apply StronglySorted_le_NoDup_lt; [|apply compareIds_sorted].
    eapply Permutation_NoDup; [apply sort_permutation | exact Hnd].
  - apply sumEth_sumZ.
Qed.

(** X14.  [getClaimableRequestsETHByIds] gives the same answer for a list of
    request statuses as for the list of their ids, and that answer carries
    the [ethByRequests], [ethSum] and [hints] that
    [getClaimableRequestsETHByAccount] returns for an account with these
    requests (ids occurring once, so that the comparators order them). *)
Theorem claimable_ether_by_ids_accepts_ids_or_requests
  (requests : list Withdraw.RequestStatusWithId.t) :
  NoDup (map ident requests) ->
  Withdraw.getClaimableRequestsETHByIds views
    (map Withdraw.ByRequest requests)
  = Withdraw.getClaimableRequestsETHByIds views
      (map Withdraw.ById (map ident requests))
  /\ forall account result,
      Withdraw.getWithdrawalRequestsStatus views account = Ok requests ->
      Withdraw.getClaimableRequestsETHByAccount views account = Ok result ->
      Withdraw.getClaimableRequestsETHByIds views
        (map Withdraw.ByRequest requests)
      = Ok (Withdraw.ClaimableETH.mk
              (Withdraw.ClaimableETH.ethByRequests result)
              (Withdraw.ClaimableETH.ethSum result)
              (Withdraw.ClaimableETH.hints result) None None).
Proof.
  intros _.
  assert (map Withdraw.idOf
            (sort Withdraw.compareIdOrRequest
               (map Withdraw.ByRequest requests))
          = sort Withdraw.compareIds (map ident requests)) as Hreq.
  { rewrite (sort_map (fun a b => Withdraw.compareIds (ident a) (ident b))
               Withdraw.compareIdOrRequest Withdraw.ByRequest)
      by reflexivity.
    rewrite map_map. simpl.
    rewrite (sort_map (fun a b => Withdraw.compareIds (ident a) (ident b))
               Withdraw.compareIds ident) by reflexivity.
    reflexivity. }
  assert (map Withdraw.idOf
            (sort Withdraw.compareIdOrRequest
               (map Withdraw.ById (map ident requests)))
          = sort Withdraw.compareIds (map ident requests)) as Hids.
  { rewrite (sort_map Withdraw.compareIds Withdraw.compareIdOrRequest
               Withdraw.ById) by reflexivity.
    rewrite map_map. simpl. apply map_id. }
  unfold Withdraw.getClaimableRequestsETHByIds. rewrite Hreq, Hids.
  split; [reflexivity|].
  intros account result Hstatus Hrun.
  unfold Withdraw.getClaimableRequestsETHByAccount in Hrun.
  rewrite Hstatus in Hrun. simpl in Hrun.
  destruct (Withdraw.claimableEtherOf views
              (sort Withdraw.compareIds (map ident requests)))
    as [[[eth total] hints]|e]; simpl in *; [|discriminate Hrun].
  injection Hrun as <-. reflexivity.
Qed.

End ClaimableEther.

Lemma claimable_ether_by_account_is_by_sorted_ids_witness :
  exists result,
    Withdraw.getClaimableRequestsETHByAccount SampleQueue.views Sample.account
    = Ok result
    /\ Withdraw.ClaimableETH.sortedIds result = Some [3; 5; 7]
    /\ Withdraw.ClaimableETH.ethByRequests result = [30; 50; 70]
    /\ Withdraw.ClaimableETH.ethSum result
       = sumZ (Withdraw.ClaimableETH.ethByRequests result).
Proof.
  destruct (Withdraw.getClaimableRequestsETHByAccount SampleQueue.views
              Sample.account) as [result|e] eqn:Hrun;
    [|vm_compute in Hrun; discriminate Hrun].
  exists result. split; [reflexivity|].
  destruct (claimable_ether_by_account_is_by_sorted_ids SampleQueue.views
              Sample.account Hrun)
    as (requests & sortedIds & lastIndex & _ & _ & _ & _ & _ & _ & _ & _
        & Hsum).
  vm_compute in Hrun. injection Hrun as <-.
  split; [reflexivity|]. split; [reflexivity|]. exact Hsum.
Defined.

Lemma claimable_ether_by_ids_accepts_ids_or_requests_witness :
  Withdraw.getClaimableRequestsETHByIds SampleQueue.views
    (map Withdraw.ByRequest SampleQueue.requests)
  = Withdraw.getClaimableRequestsETHByIds SampleQueue.views
      [Withdraw.ById 7; Withdraw.ById 3; Withdraw.ById 5].
Proof.
  refine (proj1 (claimable_ether_by_ids_accepts_ids_or_requests
                   SampleQueue.views SampleQueue.requests _)).
  simpl. repeat constructor; simpl; intuition lia.
Defined.

(** ** The playground's action state *)

Section Reducer.
Variables (E TResult : Type).

Local Abbreviation State := (Playground.ReducerState.t E TResult).
Local Abbreviation Action := (Playground.ReducerAction E TResult).

Lemma reducer_coherent (state : State) (action : option Action) :
  Playground.coherent state ->
  Playground.coherent (Playground.reducer state action).
Proof.
  intros Hstate. destruct action as [[|e|r|]|]; simpl; try exact Hstate;
    unfold Playground.coherent; simpl; split; intros H;
    try discriminate; try (split; reflexivity); try reflexivity;
    try (exfalso; apply H; reflexivity).
Qed.

(** X15.  Whatever actions are dispatched, in whatever order, absent ones
    included, the state of a playground action that started from the initial
    state never shows a result together with an error, and shows neither
    while it is loading; the same holds from any state that had this
    property. *)
Theorem reducer_never_shows_result_and_error
  (actions : list (option Action)) :
  Playground.coherent (Playground.dispatchAll actions Playground.initialState)
  /\ forall state : State,
      Playground.coherent state ->
      Playground.coherent (Playground.dispatchAll actions state).
Proof.
  assert (forall state : State,
             Playground.coherent state ->
             Playground.coherent (Playground.dispatchAll actions state))
    as Hgen.
  { unfold Playground.dispatchAll.
    induction actions as [|a actions IH]; intros state Hstate; simpl;
      [exact Hstate|].
    apply IH, reducer_coherent, Hstate. }
  split; [|exact Hgen].
  apply Hgen. unfold Playground.coherent. simpl.
  split; intros H; [discriminate H | reflexivity].
Qed.


End Reducer.

Lemma reducer_never_shows_result_and_error_witness :
  Playground.coherent
    (Playground.dispatchAll
       (Playground.startLoading (inl "reverted")
        ++ [None] ++ Playground.startLoading (inr 7))
       (Playground.ReducerState.mk false None (Some 3))).
Proof.
  apply (proj2 (reducer_never_shows_result_and_error
                  (Playground.startLoading (E := string) (inl "reverted")
                   ++ [None] ++ Playground.startLoading (inr 7)))).
  unfold Playground.coherent. simpl.
  split; intros H; [discriminate H | exfalso; apply H; reflexivity].
Defined.

(** ** Balance and share rate of a chain record *)

Section LatestTotals.
Context `{imports : Imports}.

Lemma chain_fold_latest_totals (address wq : Address) :
  forall evs st rs st',
    mapM (Chain.callback address wq) evs st = Ok (rs, st') ->
    Chain.State.shareRate st = Chain.getCurrentShareRate st ->
    Forall2
      (fun totals r =>
         Reward.balance r
         = sharesToSteth (Reward.balanceShares r) (fst totals) (snd totals)
             PRECISION
         /\ Reward.shareRate r
            = calcShareRate (fst totals) (snd totals) PRECISION)
      (totalsAlong (Chain.State.currentTotalEther st)
         (Chain.State.currentTotalShares st) evs) rs.
Proof.
  apply (mapM_run_ind (Chain.callback address wq)
           (fun st evs rs _ =>
              Chain.State.shareRate st = Chain.getCurrentShareRate st ->
              Forall2
                (fun totals r =>
                   Reward.balance r
                   = sharesToSteth (Reward.balanceShares r) (fst totals)
                       (snd totals) PRECISION
                   /\ Reward.shareRate r
                      = calcShareRate (fst totals) (snd totals) PRECISION)
                (totalsAlong (Chain.State.currentTotalEther st)
                   (Chain.State.currentTotalShares st) evs) rs)).
  - intros st _. constructor.
  - intros e evs st r s1 rs st' Hstep _ IH Hrate. simpl totalsAlong.
    destruct (Chain.Event.args e) as [from to v|pe ps|name] eqn:Hargs.
    + erewrite chain_step_transfer in Hstep by exact Hargs.
      injection Hstep as <- <-. simpl in *.
      constructor; [split; [reflexivity | exact Hrate]|].
      apply IH. exact Hrate.
    + erewrite chain_step_rebase in Hstep by exact Hargs.
      injection Hstep as <- <-. simpl in *.
      constructor; [split; reflexivity|].
      apply IH. reflexivity.
    + erewrite chain_step_other in Hstep by exact Hargs. discriminate Hstep.
Qed.

(** X17.  On the chain path, base state and records are priced with one
    pair of totals each.  The base balance is the conversion of the base
    shares at the totals read one block before the range (at block [0] for a
    range that starts there), and the base share rate is the rate of those
    totals.  In the full sequence every record's [balance] is the conversion
    of its own [balanceShares] at the totals of the latest rebase so far
    (the base totals before the first), and its [shareRate] is the rate of
    these same totals; what a query returns is that sequence filtered. *)
Theorem chain_records_priced_at_latest_totals (core : Core.t)
  (contract : Chain.Contract.t) (props : Props.t) (p : Parsed.t)
  (ledger : Chain.Ledger.t ShareRate) :
  parseProps core props = Ok p ->
  Chain.getRewardsFromChain core contract props = Ok ledger ->
  let block := if Parsed.fromBlock p =? 0 then 0 else Parsed.fromBlock p - 1 in
  let ether := Chain.Contract.getTotalPooledEther contract block in
  let shares := Chain.Contract.getTotalShares contract block in
  Chain.Ledger.baseBalanceShares ledger
  = Chain.Contract.sharesOf contract (Parsed.address p) block
  /\ Chain.Ledger.baseBalance ledger
     = sharesToSteth (Chain.Ledger.baseBalanceShares ledger) ether shares
         PRECISION
  /\ Chain.Ledger.baseShareRate ledger = calcShareRate ether shares PRECISION
  /\ exists rs,
      Chain.Ledger.rewards ledger
      = Chain.postFilter (Parsed.includeZeroRebases p)
          (Parsed.includeOnlyRebases p) rs
      /\ Forall2
           (fun totals r =>
              Reward.balance r
              = sharesToSteth (Reward.balanceShares r) (fst totals)
                  (snd totals) PRECISION
              /\ Reward.shareRate r
                 = calcShareRate (fst totals) (snd totals) PRECISION)
           (totalsAlong ether shares (Chain.sortedEvents contract p)) rs.
Proof.
  intros Hp Hrun block ether shares.
  apply chain_run_inv in Hrun.
  destruct Hrun as (p' & rs & st & Hp' & Hmap & ->).
  assert (p' = p) as -> by congruence. simpl.
  repeat split.
  exists rs. split; [reflexivity|].
  apply chain_fold_latest_totals in Hmap; [exact Hmap | reflexivity].
Qed.

End LatestTotals.

Lemma chain_records_priced_at_latest_totals_witness :
  exists ledger,
    Chain.getRewardsFromChain (imports := specImports) (Sample.core 100)
      Sample.scenarioNode (Sample.range 15 40 (Some true) (Some true))
    = Ok ledger
    /\ Chain.Ledger.baseBalance ledger
       = sharesToAsset (Chain.Ledger.baseBalanceShares ledger) 1000 10000
           PRECISION
    /\ map (fun r => (Reward.balanceShares r, Reward.balance r,
                      Reward.shareRate r))
         (Chain.Ledger.rewards ledger)
       = [ (100, sharesToAsset 100 1000 10000 PRECISION,
            computeShareRate 1000 10000 PRECISION);
           (100, sharesToAsset 100 1100 10000 PRECISION,
            computeShareRate 1100 10000 PRECISION) ].
Proof.
  destruct (Chain.getRewardsFromChain (imports := specImports)
              (Sample.core 100) Sample.scenarioNode
              (Sample.range 15 40 (Some true) (Some true)))
    as [ledger|e] eqn:Hrun; [|vm_compute in Hrun; discriminate Hrun].
  exists ledger. split; [reflexivity|].
  destruct (chain_records_priced_at_latest_totals (imports := specImports)
              (Sample.core 100) Sample.scenarioNode
              (Sample.range 15 40 (Some true) (Some true))
              (p := Parsed.mk Sample.account 15 40 7 true true)
              eq_refl Hrun) as (_ & Hbase & _).
  split; [exact Hbase|].
  vm_compute in Hrun. injection Hrun as <-. vm_compute. reflexivity.
Defined.

(** ** The base state of a subgraph ledger *)

Section SubgraphBase.
Context `{imports : Imports}.

Lemma subgraph_run_base (core : Core.t) (service : Subgraph.Service.t)
  (props : Props.t) (p : Parsed.t) (ledger : Subgraph.Ledger.t ShareRate) :
  parseProps core props = Ok p ->
  Subgraph.getRewardsFromSubgraph core service props = Ok ledger ->
  Subgraph.baseValues service p
  = (Subgraph.Ledger.baseBalanceShares ledger,
     Subgraph.Ledger.baseBalance ledger,
     Subgraph.Ledger.baseShareRate ledger).
Proof.
  unfold Subgraph.getRewardsFromSubgraph. intros Hp Hrun.
  rewrite Hp in Hrun. simpl in Hrun.
  destruct (Subgraph.baseValues service p) as [[shares bal] rate].
  apply rbind_Ok_inv in Hrun. destruct Hrun as ([rs st] & _ & Hrun).
  injection Hrun as <-. reflexivity.
Qed.

(** X18.  The base state of a subgraph ledger comes from the last transfer
    and the last rebase the index knows before the range, asked for one
    block before [fromBlock].  Without such a transfer, or with one that
    names the account neither as recipient nor as sender, the base shares
    are zero.  With a last rebase, the base balance is the conversion of the
    base shares at that rebase's totals, whatever balance the transfer
    stored, and the base share rate is the rate of those totals.  Without a
    last rebase the base share rate is the number [0], even for an account
    that holds shares, and the base balance is the balance the transfer
    stored: the one after the increase when the account is the recipient
    (a transfer to itself included), the one after the decrease
    otherwise. *)
Theorem subgraph_base_state (core : Core.t) (service : Subgraph.Service.t)
  (props : Props.t) (p : Parsed.t) (ledger : Subgraph.Ledger.t ShareRate) :
  parseProps core props = Ok p ->
  Subgraph.getRewardsFromSubgraph core service props = Ok ledger ->
  let address := Parsed.address p in
  let block := if Parsed.fromBlock p =? 0 then 0 else Parsed.fromBlock p - 1 in
  let initial := Subgraph.Service.getInitialData service address block in
  let baseShares := Subgraph.Ledger.baseBalanceShares ledger in
  let baseBalance := Subgraph.Ledger.baseBalance ledger in
  let baseRate := Subgraph.Ledger.baseShareRate ledger in
  (fst initial = None -> baseShares = 0)
  /\ (forall t,
        fst initial = Some t ->
        (addressEqual (Subgraph.TransferEventEntity.to t) address = true ->
         baseShares = Subgraph.TransferEventEntity.sharesAfterIncrease t)
        /\ (addressEqual (Subgraph.TransferEventEntity.to t) address = false ->
            addressEqual (Subgraph.TransferEventEntity.from t) address = true ->
            baseShares = Subgraph.TransferEventEntity.sharesAfterDecrease t)
        /\ (addressEqual (Subgraph.TransferEventEntity.to t) address = false ->
            addressEqual (Subgraph.TransferEventEntity.from t) address = false ->
            baseShares = 0))
  /\ (forall r,
        snd initial = Some r ->
        baseBalance
        = sharesToSteth baseShares
            (Subgraph.TotalRewardEntity.totalPooledEtherAfter r)
            (Subgraph.TotalRewardEntity.totalSharesAfter r) PRECISION
        /\ baseRate
           = calcShareRate (Subgraph.TotalRewardEntity.totalPooledEtherAfter r)
               (Subgraph.TotalRewardEntity.totalSharesAfter r) PRECISION)
  /\ (snd initial = None ->
      baseRate = zeroShareRate
      /\ (fst initial = None -> baseBalance = 0)
      /\ (forall t,
            fst initial = Some t ->
            (addressEqual (Subgraph.TransferEventEntity.to t) address = true ->
             baseBalance = Subgraph.TransferEventEntity.balanceAfterIncrease t)
            /\ (addressEqual (Subgraph.TransferEventEntity.to t) address
                = false ->
                addressEqual (Subgraph.TransferEventEntity.from t) address
                = true ->
                baseBalance
                = Subgraph.TransferEventEntity.balanceAfterDecrease t))).
Proof.
  intros Hp Hrun address block initial baseShares baseBalance baseRate.
  pose proof (subgraph_run_base _ _ _ Hp Hrun) as Hbase.
  unfold Subgraph.baseValues, Subgraph.preBlock in Hbase.
  fold address in Hbase. fold block in Hbase. fold initial in Hbase.
  fold baseShares in Hbase. fold baseBalance in Hbase. fold baseRate in Hbase.
  clearbody initial baseShares baseBalance baseRate.
  destruct initial as [[t|] [r|]]; simpl in *.
  - destruct (addressEqual (Subgraph.TransferEventEntity.to t) address)
      eqn:Hto;
      [|destruct (addressEqual (Subgraph.TransferEventEntity.from t) address)
          eqn:Hfrom];
      injection Hbase as <- <- <-;
      repeat split; intros; try discriminate;
      match goal with
      | H : Some _ = Some _ |- _ => injection H as <-
      end; try reflexivity; congruence.
  - destruct (addressEqual (Subgraph.TransferEventEntity.to t) address)
      eqn:Hto;
      [|destruct (addressEqual (Subgraph.TransferEventEntity.from t) address)
          eqn:Hfrom];
      injection Hbase as <- <- <-;
      repeat split; intros; try discriminate;
      match goal with
      | H : Some _ = Some _ |- _ => injection H as <-
      end; try reflexivity; congruence.
  - injection Hbase as <- <- <-.
    repeat split; intros; try discriminate;
      match goal with
      | H : Some _ = Some _ |- _ => injection H as <-
      end; reflexivity.
  - injection Hbase as <- <- <-.
    repeat split; intros; try discriminate; reflexivity.
Qed.

End SubgraphBase.

Lemma subgraph_base_state_witness :
  exists ledger,
    Subgraph.getRewardsFromSubgraph (imports := specImports) (Sample.core 100)
      (Sample.index 100 [] [Subgraph.TotalReward Sample.rebaseEntity]
         (Some Sample.submitEntity) None)
      (Sample.range 25 40 None None) = Ok ledger
    /\ Subgraph.Ledger.baseBalanceShares ledger = 100
    /\ Subgraph.Ledger.baseBalance ledger = 10
    /\ Subgraph.Ledger.baseShareRate ledger = 0.
Proof.
  destruct (Subgraph.getRewardsFromSubgraph (imports := specImports)
              (Sample.core 100)
              (Sample.index 100 [] [Subgraph.TotalReward Sample.rebaseEntity]
                 (Some Sample.submitEntity) None)
              (Sample.range 25 40 None None))
    as [ledger|e] eqn:Hrun; [|vm_compute in Hrun; discriminate Hrun].
  exists ledger. split; [reflexivity|].
  destruct (subgraph_base_state (imports := specImports) (Sample.core 100)
              (Sample.index 100 [] [Subgraph.TotalReward Sample.rebaseEntity]
                 (Some Sample.submitEntity) None)
              (Sample.range 25 40 None None)
              (p := Parsed.mk Sample.account 25 40 7 false false)
              eq_refl Hrun) as (_ & Hshares & _ & Hnone).
  destruct (Hnone eq_refl) as (Hrate & _ & Hbal).
  split; [|split].
  - exact (proj1 (Hshares Sample.submitEntity eq_refl) eq_refl).
  - exact (proj1 (Hbal Sample.submitEntity eq_refl) eq_refl).
  - exact Hrate.
Defined.
